(** * aiwebbuilder-swarm: event-sourcing engine and AI spend guard

    A shallow embedding of the reducer ([src/state/reducer.ts],
    [src/state/types.ts]), the commit endpoint
    ([supabase/functions/mutate/index.ts] with the SQL function
    [apply_project_event]), the rate limiter ([_shared/rateLimit.ts] with the
    SQL functions [check_rate_limit], [get_rate_limit_status] and
    [cleanup_rate_limits]), the CORS headers ([_shared/cors.ts]) and the
    metered AI endpoint ([supabase/functions/ai-proxy/index.ts] with
    [get_user_ai_cost] and [get_project_ai_cost]), followed by the properties
    proved about them.

    Conventions.
    - A JavaScript [number] is an IEEE-754 binary64 value: [float].
    - A JavaScript string is a [string]; one character stands for one UTF-16
      code unit, so [String.length] is the [.length] of the source.
    - A JavaScript object read by key is a [gmap string _]; spreading an
      object and setting a key is a map insert.
    - SQL [NUMERIC] values are exact decimals: [Q].  SQL [BIGINT] and
      [INTEGER] values are [Z] with their range checks written out.
    - A thrown exception, an early [return new Response(...)] and a raised SQL
      exception are results of a sum type; nothing is left partial.
    - A name in a query of a PL/pgSQL function that is both a variable of the
      function and a column of the queried table is resolved by the
      [plpgsql.variable_conflict] setting of the database.
    - Requests are handled one at a time. *)

From Stdlib Require Import ZArith QArith Qabs Floats Lia.
From stdpp Require Import base option list gmap strings.

#[local] Set Warnings "-register-all,-inexact-float".
#[local] Open Scope Z_scope.

(* ===================================================================== *)
(** * Part I.  The embedding                                              *)
(* ===================================================================== *)

(** ** JavaScript values *)
Module Js.

Inductive jsval : Type :=
  | JUndefined
  | JNull
  | JBool (b : bool)
  | JNum (x : float)
  | JStr (s : string)
  | JObj (props : gmap string jsval).

Inductive jstype : Set :=
  | TUndefined | TObject | TBoolean | TNumber | TString.

#[export] Instance jstype_eq_dec : EqDecision jstype.
Proof. solve_decision. Defined.

(** [typeof v]; [typeof null] is ['object']. *)
Definition typeof (v : jsval) : jstype :=
  match v with
  | JUndefined => TUndefined
  | JNull => TObject
  | JBool _ => TBoolean
  | JNum _ => TNumber
  | JStr _ => TString
  | JObj _ => TObject
  end.

(** ToBoolean: [undefined], [null], [false], [+0], [-0], [NaN] and [''] are
    falsy, everything else is truthy. *)
Definition truthy (v : jsval) : bool :=
  match v with
  | JUndefined | JNull => false
  | JBool b => b
  | JNum x => negb (PrimFloat.eqb x 0%float || PrimFloat.is_nan x)
  | JStr s => negb (String.eqb s "")
  | JObj _ => true
  end.

(** [o.k] on a value already known not to be [null] or [undefined], for a key
    [k] that no prototype defines (['type'], ['payload'], ['name']): the own
    property, or [undefined]. *)
Definition prop (v : jsval) (k : string) : jsval :=
  match v with
  | JObj props => default JUndefined (props !! k)
  | _ => JUndefined
  end.

(** The integer a number denotes, when it is one ([Number.isInteger]). *)
Definition integer_value (x : float) : option Z :=
  match Prim2SF x with
  | S754_zero _ => Some 0
  | S754_finite s m e =>
      let v := if 0 <=? e then Z.pos m * 2 ^ e else Z.pos m / 2 ^ (- e) in
      if (0 <=? e) || (Z.pos m mod 2 ^ (- e) =? 0)
      then Some (if s then - v else v)
      else None
  | _ => None
  end.

(** The number an integer literal denotes (exact up to [2 ^ 53]). *)
Definition number_of_Z (z : Z) : float :=
  if z <? 0 then PrimFloat.opp (PrimFloat.of_uint63 (Uint63.of_Z (- z)))
  else PrimFloat.of_uint63 (Uint63.of_Z z).

Definition MAX_SAFE_INTEGER : Z := 2 ^ 53 - 1.

(** The integer value of the number [JSON.parse] gives for an integer numeral
    of at most 64 bits: the nearest binary64 value, ties to even.  Integers up
    to [2 ^ 53] in magnitude are kept as they are. *)
Definition nearest_double (z : Z) : Z :=
  let a := Z.abs z in
  if a <=? 2 ^ 53 then z
  else
    let e := Z.log2 a - 52 in
    let q := a / 2 ^ e in
    let r := a mod 2 ^ e in
    let half := 2 ^ (e - 1) in
    let q' := if (half <? r) || ((r =? half) && Z.odd q) then q + 1 else q in
    Z.sgn z * (q' * 2 ^ e).

(** The two exception classes the embedded code can raise, with the message
    given to the constructor. *)
Inductive exn : Set :=
  | Error (message : string)
  | TypeError (message : string).

Inductive completion (A : Type) : Type :=
  | Ok (value : A)
  | Throw (e : exn).
Arguments Ok {A} value.
Arguments Throw {A} e.

End Js.

(** ** The reducer: [src/state/types.ts] and [src/state/reducer.ts] *)
Module Reducer.
Import Js.

(** [ProjectSnapshot]: an object whose only declared field is [name]; other
    fields may be present and are carried along. *)
Abbreviation ProjectSnapshot := (gmap string jsval).

Definition VALID_EVENT_TYPES : list string := ["project.rename"].

(** [isProjectRenameEvent]. *)
Definition isProjectRenameEvent (event : jsval) : bool :=
  match prop event "type" with
  | JStr t => String.eqb t "project.rename"
  | _ => false
  end.

(** [applyRenameEvent].  [const { name } = event.payload] throws a
    [TypeError] when the payload is [undefined] or [null]. *)
Definition applyRenameEvent (snapshot : ProjectSnapshot) (event : jsval)
  : completion ProjectSnapshot :=
  if negb (isProjectRenameEvent event) then
    Throw (Error "Invalid project.rename event structure")
  else
    match prop event "payload" with
    | JUndefined | JNull =>
        Throw (TypeError "Cannot destructure property 'name' of 'event.payload'")
    | payload =>
        match prop payload "name" with
        | JStr name =>
            if (String.length name =? 0)%nat then
              Throw (Error "Invalid project.rename payload: name cannot be empty")
            else if (200 <? String.length name)%nat then
              Throw (Error "Invalid project.rename payload: name exceeds maximum length of 200")
            else
              Ok (<["name" := JStr name]> snapshot)
        | _ =>
            Throw (Error "Invalid project.rename payload: name must be a string")
        end
    end.

(** [applyEvent]. *)
Definition applyEvent (snapshot : ProjectSnapshot) (event : jsval)
  : completion ProjectSnapshot :=
  if negb (truthy event) || negb (bool_decide (typeof event = TObject)) then
    Throw (Error "Invalid event: must be an object")
  else
    let type := prop event "type" in
    if negb (truthy type) || negb (bool_decide (typeof type = TString)) then
      Throw (Error "Invalid event: must have a type string")
    else
      match type with
      | JStr t =>
          if String.eqb t "project.rename" then applyRenameEvent snapshot event
          else Throw (Error ("Unknown event type: " +:+ t))
      | _ => Throw (Error "Invalid event: must have a type string")
      end.

(** [applyEvents]: [events.reduce(applyEvent, initialSnapshot)]; the first
    exception ends the fold. *)
Fixpoint applyEvents (events : list jsval) (initialSnapshot : ProjectSnapshot)
  : completion ProjectSnapshot :=
  match events with
  | [] => Ok initialSnapshot
  | event :: rest =>
      match applyEvent initialSnapshot event with
      | Ok snapshot => applyEvents rest snapshot
      | Throw e => Throw e
      end
  end.

Definition createInitialSnapshot : ProjectSnapshot := ∅.

(** The two failure kinds of the specification, read off the messages. *)
Definition UnknownEventType (e : exn) : Prop :=
  ∃ t, e = Error ("Unknown event type: " +:+ t).

Definition InvalidPayload (e : exn) : Prop :=
  ∃ reason, e = Error ("Invalid project.rename payload: " +:+ reason).

(** The names the specification admits in a rename payload: non-empty
    strings of at most 200 characters. *)
Definition valid_rename_name (v : jsval) : Prop :=
  ∃ n, v = JStr n ∧ (1 ≤ String.length n ≤ 200)%nat.

(** ['a'.repeat(n)], the names of the boundary tests. *)
Fixpoint a_repeat (n : nat) : string :=
  match n with
  | O => ""
  | S n' => String (Ascii.ascii_of_nat 97) (a_repeat n')
  end.

(** An event object [{ type, payload }]. *)
Definition event_of (type payload : jsval) : jsval :=
  JObj (<["type" := type]> (<["payload" := payload]> ∅)).

(** A rename event [{ type: 'project.rename', payload: { name } }]. *)
Definition rename_event (name : jsval) : jsval :=
  event_of (JStr "project.rename") (JObj (<["name" := name]> ∅)).

End Reducer.

(** ** The database: [supabase/migrations/0001_init.sql]

    One record holds the tables the two endpoints touch.  Rows keep the
    columns the embedded code reads or writes; serial ids and defaulted
    creation stamps of the event log are left out. *)
Module Sql.

(** A [UUID] in its text form. *)
Abbreviation uuid := string.

(** A [TIMESTAMPTZ]: microseconds since the Unix epoch. *)
Abbreviation timestamptz := Z.

(** A JSON scalar stored in a [JSONB] object; a number is kept as the numeral
    PostgreSQL prints for it. *)
Inductive jsonb_scalar : Set :=
  | BNull
  | BBool (b : bool)
  | BNum (numeral : string)
  | BStr (s : string).

(** A [JSONB] object whose fields are scalars: the shape of a proposal
    payload and of a projection snapshot. *)
Abbreviation jsonb_object := (gmap string jsonb_scalar).

(** [o ->> k]: the field as [TEXT], SQL [NULL] when the field is missing or
    is JSON [null]. *)
Definition jsonb_get_text (o : jsonb_object) (k : string) : option string :=
  match o !! k with
  | Some (BStr s) => Some s
  | Some (BNum numeral) => Some numeral
  | Some (BBool b) => Some (if b then "true" else "false")
  | Some BNull | None => None
  end.

(** [jsonb_set(target, '{k}', to_jsonb(v))] for a [TEXT] value [v]: both
    functions are strict, so a [NULL] target or a [NULL] text gives a [NULL]
    result. *)
Definition jsonb_set_text (target : option jsonb_object) (k : string) (v : option string)
  : option jsonb_object :=
  match target, v with
  | Some o, Some s => Some (<[k := BStr s]> o)
  | _, _ => None
  end.

Inductive role : Set := Owner | Editor | Viewer.

#[export] Instance role_eq_dec : EqDecision role.
Proof. solve_decision. Defined.

Inductive usage_status : Set := StatusOk | StatusFailed.

#[export] Instance usage_status_eq_dec : EqDecision usage_status.
Proof. solve_decision. Defined.

Record project_row := {
  owner_id : uuid;
}.

Record event_row := {
  ev_project_id : uuid;
  ev_actor_id : uuid;
  ev_seq : Z;
  ev_type : string;
  ev_payload : jsonb_object;
}.

Record projection_row := {
  head_seq : Z;
  snapshot : jsonb_object;
  pr_updated_at : timestamptz;
}.

Record ai_usage_row := {
  au_user_id : uuid;
  au_project_id : option uuid;
  au_provider : string;
  au_model : string;
  au_tokens_in : Z;
  au_tokens_out : Z;
  au_cost_usd : Q;
  au_status : usage_status;
  au_created_at : timestamptz;
}.

Record rate_limit_row := {
  window_start : timestamptz;
  count : Z;
  rl_updated_at : timestamptz;
}.

Record database := {
  auth_users : gset uuid;
  projects : gmap uuid project_row;
  project_members : gmap (uuid * uuid) role;
  project_events : list event_row;
  project_projections : gmap uuid projection_row;
  ai_usage : list ai_usage_row;
  rate_limits : gmap string rate_limit_row;
}.

Definition with_project_events (f : list event_row → list event_row) (db : database)
  : database :=
  {| auth_users := auth_users db;
     projects := projects db;
     project_members := project_members db;
     project_events := f (project_events db);
     project_projections := project_projections db;
     ai_usage := ai_usage db;
     rate_limits := rate_limits db |}.

Definition with_project_projections
    (f : gmap uuid projection_row → gmap uuid projection_row) (db : database)
  : database :=
  {| auth_users := auth_users db;
     projects := projects db;
     project_members := project_members db;
     project_events := project_events db;
     project_projections := f (project_projections db);
     ai_usage := ai_usage db;
     rate_limits := rate_limits db |}.

Definition with_ai_usage (f : list ai_usage_row → list ai_usage_row) (db : database)
  : database :=
  {| auth_users := auth_users db;
     projects := projects db;
     project_members := project_members db;
     project_events := project_events db;
     project_projections := project_projections db;
     ai_usage := f (ai_usage db);
     rate_limits := rate_limits db |}.

Definition with_rate_limits
    (f : gmap string rate_limit_row → gmap string rate_limit_row) (db : database)
  : database :=
  {| auth_users := auth_users db;
     projects := projects db;
     project_members := project_members db;
     project_events := project_events db;
     project_projections := project_projections db;
     ai_usage := ai_usage db;
     rate_limits := f (rate_limits db) |}.

Definition empty_database : database :=
  {| auth_users := ∅;
     projects := ∅;
     project_members := ∅;
     project_events := [];
     project_projections := ∅;
     ai_usage := [];
     rate_limits := ∅ |}.

(** Errors a statement can raise, by SQLSTATE class. *)
Inductive sql_error : Set :=
  | RaiseException (message : string)
  | UniqueViolation (constraint : string)
  | ForeignKeyViolation (constraint : string)
  | NotNullViolation (column : string)
  | NumericValueOutOfRange (message : string)
  | DivisionByZero
  | AmbiguousColumn (name : string)
  | UndefinedColumn (name : string).

(** A PL/pgSQL body run from a database state: it ends with a value, or it
    raises from the state it had reached. *)
Inductive outcome (A : Type) : Type :=
  | Done (db : database) (a : A)
  | Raised (db : database) (e : sql_error).
Arguments Done {A} db a.
Arguments Raised {A} db e.

Definition stmt (A : Type) : Type := database → outcome A.

Definition ret {A} (a : A) : stmt A := λ db, Done db a.

Definition raise {A} (e : sql_error) : stmt A := λ db, Raised db e.

Definition bind {A B} (m : stmt A) (k : A → stmt B) : stmt B :=
  λ db, match m db with
        | Done db' a => k a db'
        | Raised db' e => Raised db' e
        end.

Definition read {A} (f : database → A) : stmt A := λ db, Done db (f db).

Definition write (f : database → database) : stmt unit := λ db, Done (f db) tt.

(** A function call is one transaction: an exception undoes every change
    the body had made. *)
Definition transaction {A} (body : stmt A) (db : database)
  : database * (sql_error + A) :=
  match body db with
  | Done db' a => (db', inr a)
  | Raised _ e => (db, inl e)
  end.

#[export] Instance stmt_ret : MRet stmt := @ret.
#[export] Instance stmt_bind : MBind stmt := λ A B k m, bind m k.

Definition BIGINT_MAX : Z := 2 ^ 63 - 1.
Definition INTEGER_MAX : Z := 2 ^ 31 - 1.

(** [a + b] on [BIGINT]: out of range is an error, not a wrap-around. *)
Definition bigint_add (a b : Z) : stmt Z :=
  if (a + b <=? BIGINT_MAX) && (- BIGINT_MAX - 1 <=? a + b) then ret (a + b)
  else raise (NumericValueOutOfRange "bigint out of range").

(** The range of [INTEGER]. *)
Definition is_integer (a : Z) : bool :=
  (- INTEGER_MAX - 1 <=? a) && (a <=? INTEGER_MAX).

(** [a + b] on [INTEGER]. *)
Definition integer_add (a b : Z) : stmt Z :=
  if is_integer (a + b) then ret (a + b)
  else raise (NumericValueOutOfRange "integer out of range").

(** [plpgsql.variable_conflict]: what PL/pgSQL does with a name in a query
    that is both a variable of the function and a column of a table of the
    query.  PostgreSQL's default is [error]. *)
Inductive variable_conflict : Set := ConflictError | UseVariable | UseColumn.

Inductive reference : Set := ColumnRef | VariableRef.

(** A name in an expression of a query, in a function with the given
    variables, over a table with the given columns. *)
Definition resolve (vc : variable_conflict) (variables columns : list string)
    (name : string) : stmt reference :=
  match bool_decide (name ∈ columns), bool_decide (name ∈ variables) with
  | true, false => ret ColumnRef
  | false, true => ret VariableRef
  | false, false => raise (UndefinedColumn name)
  | true, true =>
      match vc with
      | ConflictError => raise (AmbiguousColumn name)
      | UseVariable => ret VariableRef
      | UseColumn => ret ColumnRef
      end
  end.

End Sql.

(** ** [apply_project_event]: [supabase/migrations/0005_project_projections.sql] *)
Module ProjectEvents.
Import Sql.

(** The columns of [project_projections]. *)
Definition project_projections_columns : list string :=
  ["project_id"; "head_seq"; "snapshot"; "updated_at"].

(** The variables of [apply_project_event]: its parameters, the output
    columns of [RETURNS TABLE(seq BIGINT, snapshot JSONB)], which PL/pgSQL
    declares as output parameters, and the [DECLARE]d variables. *)
Definition apply_project_event_variables : list string :=
  ["p_project_id"; "p_actor_id"; "p_type"; "p_payload";
   "seq"; "snapshot";
   "v_head_seq"; "v_current_snapshot"; "v_next_seq"; "v_new_snapshot"].

(** [INSERT INTO project_projections]: [project_id] is the primary key and
    references [projects(id)]. *)
Definition insert_projection (project_id : uuid) (row : projection_row) : stmt unit :=
  λ db,
    if bool_decide (is_Some (project_projections db !! project_id)) then
      Raised db (UniqueViolation "project_projections_pkey")
    else if bool_decide (is_Some (projects db !! project_id)) then
      Done (with_project_projections <[project_id := row]> db) tt
    else
      Raised db (ForeignKeyViolation "project_projections_project_id_fkey").

(** Does the log hold an event of this project with this sequence number? *)
Definition seq_taken (project_id : uuid) (seq : Z) (log : list event_row) : bool :=
  existsb (λ e, bool_decide (ev_project_id e = project_id) && (ev_seq e =? seq)) log.

(** [INSERT INTO project_events]: [UNIQUE(project_id, seq)], and the project
    and the actor must exist.  The log is append-only: a row goes to its end. *)
Definition insert_event (row : event_row) : stmt unit :=
  λ db,
    if seq_taken (ev_project_id row) (ev_seq row) (project_events db) then
      Raised db (UniqueViolation "project_events_project_id_seq_key")
    else if negb (bool_decide (is_Some (projects db !! ev_project_id row))) then
      Raised db (ForeignKeyViolation "project_events_project_id_fkey")
    else if negb (bool_decide (ev_actor_id row ∈ auth_users db)) then
      Raised db (ForeignKeyViolation "project_events_actor_id_fkey")
    else
      Done (with_project_events (λ log, log ++ [row]) db) tt.

(** [UPDATE project_projections SET head_seq, snapshot, updated_at WHERE
    project_id = ...]; [snapshot] is [NOT NULL]. *)
Definition update_projection (project_id : uuid) (next_seq : Z)
    (new_snapshot : option jsonb_object) (now : timestamptz) : stmt unit :=
  match new_snapshot with
  | None => raise (NotNullViolation "snapshot")
  | Some snap =>
      write (with_project_projections
               (alter (λ _, {| head_seq := next_seq;
                               snapshot := snap;
                               pr_updated_at := now |}) project_id))
  end.

(** The body of [apply_project_event], in a database whose
    [plpgsql.variable_conflict] is [vc].  Of the names in the expressions of
    its queries, [snapshot] in the select list of the first [SELECT] is both a
    column of [project_projections] and a variable of the function; the
    output variable [snapshot] is still [NULL] where the [SELECT] runs.
    ([head_seq] and [project_id] name columns only, and the column lists of
    [INSERT] and the targets of [UPDATE ... SET] are not expressions.) *)
Definition apply_project_event_body (vc : variable_conflict) (now : timestamptz)
    (p_project_id p_actor_id : uuid) (p_type : string) (p_payload : jsonb_object)
  : stmt (Z * option jsonb_object) :=
  (* SELECT head_seq, snapshot INTO v_head_seq, v_current_snapshot
     FROM project_projections WHERE project_id = p_project_id FOR UPDATE *)
  snapshot_ref ← resolve vc apply_project_event_variables project_projections_columns
                         "snapshot";
  row ← read (λ db, project_projections db !! p_project_id);
  (* IF v_head_seq IS NULL THEN ... INSERT INTO project_projections *)
  '(v_head_seq, v_current_snapshot) ←
    match row with
    | Some r =>
        ret (head_seq r,
             match snapshot_ref with
             | ColumnRef => Some (snapshot r)
             | VariableRef => None
             end)
    | None =>
        insert_projection p_project_id
          {| head_seq := 0; snapshot := ∅; pr_updated_at := now |};;
        ret (0, Some ∅)
    end;
  (* v_next_seq := v_head_seq + 1 *)
  v_next_seq ← bigint_add v_head_seq 1;
  (* CASE p_type *)
  v_new_snapshot ←
    (if String.eqb p_type "project.rename" then
       ret (jsonb_set_text v_current_snapshot "name" (jsonb_get_text p_payload "name"))
     else
       raise (RaiseException ("Unknown event type: " +:+ p_type)));
  (* INSERT INTO project_events *)
  insert_event {| ev_project_id := p_project_id;
                  ev_actor_id := p_actor_id;
                  ev_seq := v_next_seq;
                  ev_type := p_type;
                  ev_payload := p_payload |};;
  (* UPDATE project_projections *)
  update_projection p_project_id v_next_seq v_new_snapshot now;;
  (* RETURN QUERY SELECT v_next_seq, v_new_snapshot *)
  ret (v_next_seq, v_new_snapshot).

(** [apply_project_event] as the RPC runs it: in one transaction. *)
Definition apply_project_event (vc : variable_conflict) (now : timestamptz)
    (p_project_id p_actor_id : uuid) (p_type : string) (p_payload : jsonb_object)
    (db : database) : database * (sql_error + (Z * option jsonb_object)) :=
  transaction (apply_project_event_body vc now p_project_id p_actor_id p_type p_payload) db.

(** The head sequence of a project: that of its projection row, [0] while
    there is none. *)
Definition head_of (d : database) (p : uuid) : Z :=
  match project_projections d !! p with
  | Some row => head_seq row
  | None => 0
  end.

(** The sequence numbers of the events of a project, in log order. *)
Definition seqs_of (p : uuid) (log : list event_row) : list Z :=
  ev_seq <$> filter (λ e, ev_project_id e = p) log.

(** The invariant of the data model: the events of a project are numbered
    [1, 2, ..., head_seq], without gap or duplicate. *)
Definition log_matches_projection (d : database) (p : uuid) : Prop :=
  0 ≤ head_of d p ∧ seqs_of p (project_events d) = seqZ 1 (head_of d p).

(** The statements of [apply_project_event] before its [CASE] go through
    once the first [SELECT] is accepted: the project has a projection whose
    [head_seq] can be incremented, or it exists and has no projection yet. *)
Definition reaches_the_case (d : database) (p : uuid) : Prop :=
  match project_projections d !! p with
  | Some row => - BIGINT_MAX - 1 ≤ head_seq row + 1 ≤ BIGINT_MAX
  | None => is_Some (projects d !! p)
  end.

End ProjectEvents.

(** ** [check_rate_limit]: [supabase/migrations/0003_rate_limits.sql] *)
Module RateLimitSql.
Import Sql.

Definition MICROS : Z := 1000000.

(** [date_trunc('second', t)]. *)
Definition date_trunc_second (t : timestamptz) : timestamptz := t - t mod MICROS.

(** [EXTRACT(SECOND FROM t)]: the seconds field with its fraction, in
    microseconds ([0 <= _ < 60 * MICROS]). *)
Definition extract_second_micros (t : timestamptz) : Z := t mod (60 * MICROS).

(** [x::INTEGER] for a non-negative [NUMERIC] given in microseconds: the cast
    rounds to the nearest integer, a half away from zero. *)
Definition numeric_micros_to_integer (x : Z) : Z := (x + MICROS / 2) / MICROS.

(** [date_trunc('second', now()) - interval '1 second' *
    (EXTRACT(SECOND FROM now())::INTEGER % p_window_seconds)], for a window
    length other than zero. *)
Definition window_start_of (now : timestamptz) (p_window_seconds : Z) : timestamptz :=
  date_trunc_second now
  - MICROS * Z.rem (numeric_micros_to_integer (extract_second_micros now))
                   p_window_seconds.

Definition window_start_at (now : timestamptz) (p_window_seconds : Z) : stmt timestamptz :=
  if p_window_seconds =? 0 then raise DivisionByZero
  else ret (window_start_of now p_window_seconds).

(** [SELECT count INTO v_count FROM rate_limits WHERE key = p_key AND
    window_start = v_window_start]. *)
Definition select_count (p_key : string) (v_window_start : timestamptz) (db : database)
  : option Z :=
  match rate_limits db !! p_key with
  | Some r => if window_start r =? v_window_start then Some (count r) else None
  | None => None
  end.

(** [INSERT ... VALUES (p_key, v_window_start, 1) ON CONFLICT (key) DO UPDATE
    SET window_start = v_window_start, count = 1, updated_at = now()
    WHERE rate_limits.window_start < v_window_start]. *)
Definition upsert_window (now : timestamptz) (p_key : string) (v_window_start : timestamptz)
  : stmt unit :=
  let fresh := {| window_start := v_window_start; count := 1; rl_updated_at := now |} in
  write (with_rate_limits (λ t,
    match t !! p_key with
    | None => <[p_key := fresh]> t
    | Some r => if window_start r <? v_window_start then <[p_key := fresh]> t else t
    end)).

(** [UPDATE rate_limits SET count = count + 1, updated_at = now() WHERE key =
    p_key AND window_start = v_window_start]. *)
Definition increment_count (now : timestamptz) (p_key : string)
    (v_window_start : timestamptz) (v_count : Z) : stmt unit :=
  c ← integer_add v_count 1;
  write (with_rate_limits
           (<[p_key := {| window_start := v_window_start;
                          count := c;
                          rl_updated_at := now |}]>)).

Definition check_rate_limit_body (now : timestamptz) (p_key : string)
    (p_window_seconds p_max_requests : Z) : stmt bool :=
  v_window_start ← window_start_at now p_window_seconds;
  v_count ← read (select_count p_key v_window_start);
  match v_count with
  | None =>
      (* New window *)
      upsert_window now p_key v_window_start;;
      ret true
  | Some c =>
      if p_max_requests <=? c then
        (* Rate limit exceeded *)
        ret false
      else
        (* Increment counter *)
        increment_count now p_key v_window_start c;;
        ret true
  end.

Definition check_rate_limit (now : timestamptz) (p_key : string)
    (p_window_seconds p_max_requests : Z) (db : database)
  : database * (sql_error + bool) :=
  transaction (check_rate_limit_body now p_key p_window_seconds p_max_requests) db.

End RateLimitSql.

(** ** [get_rate_limit_status], [cleanup_rate_limits]:
    [supabase/migrations/0003_rate_limits.sql] *)
Module RateLimitAdmin.
Import Sql RateLimitSql.

(** The row [get_rate_limit_status] returns; [count] may be [NULL]. *)
Record rate_limit_status := {
  status_count : option Z;
  limit_val : Z;
  remaining : Z;
  reset_at : timestamptz;
}.

(** [a - b] on [INTEGER]. *)
Definition integer_sub (a b : Z) : stmt Z :=
  if is_integer (a - b) then ret (a - b)
  else raise (NumericValueOutOfRange "integer out of range").

(** [GREATEST(0, x)]: a [NULL] argument is ignored. *)
Definition greatest_0 (x : option Z) : Z :=
  match x with
  | Some v => Z.max 0 v
  | None => 0
  end.

(** The range of [TIMESTAMPTZ], in microseconds since the Unix epoch
    (4714-11-24 BC to 294277-01-01). *)
Definition MIN_TIMESTAMP : Z := -210866803200000000.
Definition END_TIMESTAMP : Z := 9224318016000000000.

(** The result of adding an interval to a [TIMESTAMPTZ], or of subtracting
    one from it. *)
Definition timestamptz_result (t : Z) : stmt timestamptz :=
  if (MIN_TIMESTAMP <=? t) && (t <? END_TIMESTAMP) then ret t
  else raise (NumericValueOutOfRange "timestamp out of range").

(** [SELECT COALESCE(rl.count, 0) INTO v_count FROM rate_limits rl WHERE
    rl.key = p_key AND rl.window_start = v_window_start]: [count] is [NOT
    NULL], so the [COALESCE] changes nothing, and [v_count] is [NULL] when no
    row is selected.  The references are qualified by the alias [rl], so
    none is taken for the output column [count]. *)
Definition get_rate_limit_status_body (now : timestamptz) (p_key : string)
    (p_window_seconds : Z) : stmt rate_limit_status :=
  v_window_start ← window_start_at now p_window_seconds;
  v_count ← read (select_count p_key v_window_start);
  (* p_window_seconds - v_count *)
  left ← match v_count with
         | Some c => d ← integer_sub p_window_seconds c; ret (Some d)
         | None => ret None
         end;
  (* v_window_start + interval '1 second' * p_window_seconds *)
  reset ← timestamptz_result (v_window_start + MICROS * p_window_seconds);
  ret {| status_count := v_count;
         limit_val := p_window_seconds;
         remaining := greatest_0 left;
         reset_at := reset |}.

Definition get_rate_limit_status (now : timestamptz) (p_key : string)
    (p_window_seconds : Z) (db : database)
  : database * (sql_error + rate_limit_status) :=
  transaction (get_rate_limit_status_body now p_key p_window_seconds) db.

(** [now() - interval '1 hour' * max_age_hours]. *)
Definition cleanup_cutoff (now : timestamptz) (max_age_hours : Z) : stmt timestamptz :=
  timestamptz_result (now - 3600 * MICROS * max_age_hours).

(** [DELETE FROM rate_limits WHERE window_start < cutoff], then [GET
    DIAGNOSTICS deleted_count = ROW_COUNT]. *)
Definition cleanup_rate_limits_body (now : timestamptz) (max_age_hours : Z) : stmt Z :=
  cutoff ← cleanup_cutoff now max_age_hours;
  old ← read (λ db, filter (λ kv, window_start kv.2 < cutoff) (rate_limits db));
  write (with_rate_limits (filter (λ kv, ¬ window_start kv.2 < cutoff)));;
  ret (Z.of_nat (size old)).

Definition cleanup_rate_limits (now : timestamptz) (max_age_hours : Z) (db : database)
  : database * (sql_error + Z) :=
  transaction (cleanup_rate_limits_body now max_age_hours) db.

End RateLimitAdmin.

(** ** [get_user_ai_cost], [get_project_ai_cost]:
       [supabase/migrations/0002_ai_usage.sql] *)
Module AiUsageSql.
Import Sql.

(** [since IS NULL OR created_at >= since]. *)
Definition since_ok (since : option timestamptz) (r : ai_usage_row) : bool :=
  match since with
  | None => true
  | Some t => t <=? au_created_at r
  end.

(** [COALESCE((SELECT SUM(cost_usd) ...), 0)] over the selected rows. *)
Definition sum_cost (rows : list ai_usage_row) : Q :=
  foldr (λ r acc, au_cost_usd r + acc)%Q 0%Q rows.

Definition get_user_ai_cost (user_uuid : uuid) (since : option timestamptz)
    (db : database) : Q :=
  sum_cost (filter (λ r, au_user_id r = user_uuid
                         ∧ au_status r = StatusOk
                         ∧ since_ok since r = true) (ai_usage db)).

Definition get_project_ai_cost (project_uuid : uuid) (since : option timestamptz)
    (db : database) : Q :=
  sum_cost (filter (λ r, au_project_id r = Some project_uuid
                         ∧ au_status r = StatusOk
                         ∧ since_ok since r = true) (ai_usage db)).

(** [INSERT INTO ai_usage]: the user must exist, a given project must exist,
    the token counts are [INTEGER]s and the cost fits [NUMERIC(10, 6)]. *)
Definition insert_ai_usage (row : ai_usage_row) : stmt unit :=
  λ db,
    if negb (is_integer (au_tokens_in row) && is_integer (au_tokens_out row)) then
      Raised db (NumericValueOutOfRange "integer out of range")
    else if negb (Qle_bool (Qabs (au_cost_usd row)) 9999.999999) then
      Raised db (NumericValueOutOfRange "numeric field overflow")
    else if negb (bool_decide (au_user_id row ∈ auth_users db)) then
      Raised db (ForeignKeyViolation "ai_usage_user_id_fkey")
    else if negb (match au_project_id row with
                  | Some p => bool_decide (is_Some (projects db !! p))
                  | None => true
                  end) then
      Raised db (ForeignKeyViolation "ai_usage_project_id_fkey")
    else
      Done (with_ai_usage (λ ledger, ledger ++ [row]) db) tt.

End AiUsageSql.

(** ** What the edge runtime provides

    Capabilities the repository calls but does not define. *)
Module Runtime.
Import Js Sql.

(** What [callAIProvider] resolves to. *)
Record ai_result := {
  result : string;
  tokensIn : float;
  tokensOut : float;
}.

Class Platform := {
  (** zod's [.uuid()] format check. *)
  zod_uuid : string → bool;
  (** The value a [NUMERIC(10, 6)] column takes for a number sent in a JSON
      body; [None] when it is written as [null] ([NaN], infinities). *)
  numeric_of_number : float → option Q;
  (** Local midnight of the day of an instant, both in milliseconds since the
      epoch: [new Date(y, m, d)] for the fields of [new Date(ms)]. *)
  local_midnight : Z → Z;
  (** The text-generation capability behind [callAIProvider]
      [(provider, model, prompt)]; it may throw. *)
  ai_provider : string → string → string → completion ai_result;
  (** The [plpgsql.variable_conflict] setting of the database the migrations
      are installed in. *)
  plpgsql_variable_conflict : variable_conflict;
}.

(** Failures of the backend calls of one request, chosen by the
    environment: a call marked [true] comes back with an error and no data,
    and changes nothing. *)
Record faults := {
  rate_limit_rpc_down : bool;
  members_select_down : bool;
  projects_select_down : bool;
  projection_select_down : bool;
  apply_rpc_down : bool;
  user_cost_rpc_down : bool;
  project_cost_rpc_down : bool;
  usage_insert_down : bool;
}.

Definition no_faults : faults :=
  {| rate_limit_rpc_down := false;
     members_select_down := false;
     projects_select_down := false;
     projection_select_down := false;
     apply_rpc_down := false;
     user_cost_rpc_down := false;
     project_cost_rpc_down := false;
     usage_insert_down := false |}.

(** The state a request runs against: the database, the sessions of the
    authentication service (bearer token to user id) and the console. *)
Record world := {
  db : database;
  sessions : gmap string uuid;
  console : list string;
}.

Definition with_db (d : database) (w : world) : world :=
  {| db := d; sessions := sessions w; console := console w |}.

Definition console_error (line : string) (w : world) : world :=
  {| db := db w; sessions := sessions w; console := console w ++ [line] |}.

(** An incoming request: the method, the [authorization] header and the JSON
    body ([None] when [req.json()] throws).  It is handled at one instant
    [now], in microseconds since the epoch. *)
Record request := {
  method : string;
  authorization : option string;
  body : option jsval;
}.

End Runtime.

(** ** [supabase/functions/_shared/cors.ts] *)
Module Cors.

(** Strict CORS allowlist. *)
Definition ALLOWED_ORIGINS : list string :=
  ["http://localhost:3000"; "http://localhost:5173"].

Definition defaultCorsHeaders : gmap string string :=
  <["Access-Control-Allow-Methods" := "POST, GET, OPTIONS"]>
    (<["Access-Control-Allow-Headers" := "authorization, x-client-info, apikey, content-type"]>
       (<["Access-Control-Allow-Origin" := "*"]> ∅)).

(** [haystack.includes(needle)]. *)
Fixpoint includes (needle haystack : string) : bool :=
  String.prefix needle haystack
  || match haystack with
     | String _ rest => includes needle rest
     | EmptyString => false
     end.

(** [getCorsHeaders], as a function of the [origin] header of the request
    ([None] when the request has none). *)
Definition getCorsHeaders (origin_header : option string) : gmap string string :=
  (* req.headers.get('origin') || '' *)
  let origin := default "" origin_header in
  (* Check if origin is in allowlist *)
  let isAllowed :=
    bool_decide (origin ∈ ALLOWED_ORIGINS) || includes "vercel.app" origin in
  <["Access-Control-Allow-Methods" := "POST, GET, OPTIONS"]>
    (<["Access-Control-Allow-Headers" := "authorization, x-client-info, apikey, content-type"]>
       (<["Access-Control-Allow-Origin" :=
            if isAllowed then origin else default "" (ALLOWED_ORIGINS !! 0%nat)]>
          defaultCorsHeaders)).

(** [handleCors]: the headers of the preflight response, or [None]. *)
Definition handleCors (method : string) (origin_header : option string)
  : option (gmap string string) :=
  if String.eqb method "OPTIONS" then Some (getCorsHeaders origin_header) else None.

End Cors.

(** ** [supabase/functions/_shared/auth.ts] *)
Module Auth.
Import Js Sql Runtime.

(** [verifyAuth]: the pair [{ userId, error }]. *)
Definition verifyAuth (w : world) (req : request) : string * option string :=
  match authorization req with
  | None => ("", Some "Missing or invalid authorization header")
  | Some authHeader =>
      if negb (String.eqb authHeader "") && String.prefix "Bearer " authHeader then
        (* authHeader.replace('Bearer ', '') on a header that starts with it *)
        let token := String.substring 7 (String.length authHeader - 7) authHeader in
        match sessions w !! token with
        | Some id => (id, None)
        | None => ("", Some "Invalid token")
        end
      else ("", Some "Missing or invalid authorization header")
  end.

End Auth.

(** ** [supabase/functions/_shared/rateLimit.ts] *)
Module RateLimit.
Import Js Sql Runtime.

Definition RATE_LIMIT_WINDOW : Z := 60.
Definition RATE_LIMIT_MAX_REQUESTS : Z := 30.

Record rate_limit_result := {
  allowed : bool;
  retryAfter : option Z;
}.

(** [checkRateLimit]: any error of the RPC lets the request through. *)
Definition checkRateLimit (f : faults) (now : timestamptz) (userId : string) (w : world)
  : world * rate_limit_result :=
  let key := "ai_proxy:" +:+ userId in
  if rate_limit_rpc_down f then
    (console_error "Rate limit check error:" w, {| allowed := true; retryAfter := None |})
  else
    match RateLimitSql.check_rate_limit now key RATE_LIMIT_WINDOW RATE_LIMIT_MAX_REQUESTS (db w) with
    | (_, inl _) =>
        (console_error "Rate limit check error:" w, {| allowed := true; retryAfter := None |})
    | (db', inr false) =>
        (with_db db' w, {| allowed := false; retryAfter := Some RATE_LIMIT_WINDOW |})
    | (db', inr true) =>
        (with_db db' w, {| allowed := true; retryAfter := None |})
    end.

Definition rate_allowed : rate_limit_result :=
  {| allowed := true; retryAfter := None |}.

Definition rate_denied : rate_limit_result :=
  {| allowed := false; retryAfter := Some RATE_LIMIT_WINDOW |}.

(** The key of a principal in [rate_limits]. *)
Definition rate_key (userId : string) : string := "ai_proxy:" +:+ userId.

(** Requests of one principal checked one after the other, at the given
    instants, with the backend up. *)
Fixpoint checkRateLimit_each (times : list timestamptz) (userId : string) (w : world)
  : world * list rate_limit_result :=
  match times with
  | [] => (w, [])
  | now :: rest =>
      let '(w1, r) := checkRateLimit no_faults now userId w in
      let '(w2, rs) := checkRateLimit_each rest userId w1 in
      (w2, r :: rs)
  end.

(** The fixed window an instant falls in: the minute of the clock, counted
    from the epoch. *)
Definition clock_window (now : timestamptz) : Z :=
  now / (RATE_LIMIT_WINDOW * RateLimitSql.MICROS).

End RateLimit.

(** ** The commit endpoint: [supabase/functions/mutate/index.ts] *)
Module Mutate.
Import Js Sql Runtime.

Record proposal := {
  type : string;
  payload_name : string;
}.

Record mutate_request := {
  projectId : uuid;
  baseSeq : option Z;
  proposal_of : proposal;
  idempotencyKey : option string;
}.

(** [ProposalSchema.safeParse]: [{ type: 'project.rename', payload: { name:
    string, 1 to 200 characters } }]; unknown keys are dropped. *)
Definition ProposalSchema (v : jsval) : option proposal :=
  match v with
  | JObj _ =>
      match prop v "type", prop v "payload" with
      | JStr t, JObj pl =>
          match prop (JObj pl) "name" with
          | JStr name =>
              if String.eqb t "project.rename"
                 && (1 <=? String.length name)%nat
                 && (String.length name <=? 200)%nat
              then Some {| type := t; payload_name := name |}
              else None
          | _ => None
          end
      | _, _ => None
      end
  | _ => None
  end.

(** [z.number().int().min(0).optional()]. *)
Definition baseSeqSchema (v : jsval) : option (option Z) :=
  match v with
  | JUndefined => Some None
  | JNum x =>
      match integer_value x with
      | Some z => if 0 <=? z then Some (Some z) else None
      | None => None
      end
  | _ => None
  end.

(** [z.string().optional()]. *)
Definition optionalStringSchema (v : jsval) : option (option string) :=
  match v with
  | JUndefined => Some None
  | JStr s => Some (Some s)
  | _ => None
  end.

(** The responses of the handler, by the branch that builds them, with the
    values the branch puts into the body.  [Committed] is the 200 of a
    commit: [applied] is the row [apply_project_event] returned to the
    handler (its [seq] and [snapshot]), which the handler reads as
    [applyResult]. *)
Inductive response : Type :=
  | CorsPreflight
  | MethodNotAllowed
  | Unauthorized (error : string)
  | RateLimitExceeded (retry_after : option Z) (retry_after_header : Z)
  | InvalidJsonBody
  | InvalidRequest
  | Forbidden (error : string)
  | Conflict (expected current : Z)
  | ApplyFailed (details : option sql_error)
  | Committed (project : uuid) (applied : Z * option jsonb_object)
              (idempotency_key : option string)
  | InternalServerError.

Definition status (r : response) : Z :=
  match r with
  | CorsPreflight => 200
  | MethodNotAllowed => 405
  | Unauthorized _ => 401
  | RateLimitExceeded _ _ => 429
  | InvalidJsonBody | InvalidRequest => 400
  | Forbidden _ => 403
  | Conflict _ _ => 409
  | ApplyFailed _ => 500
  | Committed _ _ _ => 200
  | InternalServerError => 500
  end.

(** [retryAfter || 60]. *)
Definition retry_after_or_60 (retryAfter : option Z) : Z :=
  match retryAfter with
  | Some r => if r =? 0 then 60 else r
  | None => 60
  end.

(** [idempotencyKey || undefined]. *)
Definition key_or_undefined (k : option string) : option string :=
  match k with
  | Some s => if String.eqb s "" then None else Some s
  | None => None
  end.

(** What a response says about the log and the projections: a committed
    response for project [p] with sequence [s] goes with one event appended at
    [s = head + 1] and the projection of [p] moved to [s]; any other response
    leaves both tables as they were. *)
Definition commit_effect (now : timestamptz) (d d' : database) (resp : response) : Prop :=
  match resp with
  | Committed p (s, snap) k =>
      s = ProjectEvents.head_of d p + 1
      ∧ ∃ sn a t payload,
          snap = Some sn
          ∧ project_projections d' =
              <[p := {| head_seq := s; snapshot := sn; pr_updated_at := now |}]>
                (project_projections d)
          ∧ project_events d' =
              project_events d ++ [{| ev_project_id := p; ev_actor_id := a; ev_seq := s;
                                      ev_type := t; ev_payload := payload |}]
  | _ => project_projections d' = project_projections d
         ∧ project_events d' = project_events d
  end.

Section MutatePlatform.
Context `{Platform}.

(** [RequestSchema.safeParse]. *)
Definition RequestSchema (v : jsval) : option mutate_request :=
  match v with
  | JObj _ =>
      match prop v "projectId" with
      | JStr id =>
          if zod_uuid id then
            b ← baseSeqSchema (prop v "baseSeq");
            p ← ProposalSchema (prop v "proposal");
            k ← optionalStringSchema (prop v "idempotencyKey");
            Some {| projectId := id; baseSeq := b; proposal_of := p; idempotencyKey := k |}
          else None
      | _ => None
      end
  | _ => None
  end.

(** The handler passed to [serve]. *)
Definition serve (f : faults) (now : timestamptz) (req : request) (w : world)
  : world * response :=
  (* Handle CORS preflight *)
  if String.eqb (method req) "OPTIONS" then (w, CorsPreflight)
  (* Only accept POST requests *)
  else if negb (String.eqb (method req) "POST") then (w, MethodNotAllowed)
  else
    (* Verify authentication *)
    let '(userId, authError) := Auth.verifyAuth w req in
    if bool_decide (is_Some authError) || String.eqb userId "" then
      (w, Unauthorized (default "Unauthorized" authError))
    else
      (* Check rate limit *)
      let '(w, rl) := RateLimit.checkRateLimit f now userId w in
      if negb (RateLimit.allowed rl) then
        (w, RateLimitExceeded (RateLimit.retryAfter rl)
              (retry_after_or_60 (RateLimit.retryAfter rl)))
      else
        (* Parse and validate request body *)
        match body req with
        | None => (w, InvalidJsonBody)
        | Some json =>
            match RequestSchema json with
            | None => (w, InvalidRequest)
            | Some r =>
                (* Verify user is member/owner of the project *)
                let membership :=
                  if members_select_down f then None
                  else project_members (db w) !! (projectId r, userId) in
                let project :=
                  if projects_select_down f then None
                  else projects (db w) !! projectId r in
                let isOwner :=
                  match project with
                  | Some p => String.eqb (owner_id p) userId
                  | None => false
                  end in
                let isMember :=
                  match membership with
                  | Some Editor | Some Viewer => true
                  | Some Owner | None => false
                  end in
                if negb isOwner && negb isMember then
                  (w, Forbidden "Forbidden: Not a project member")
                (* Check if user has permission to edit (not just view) *)
                else if bool_decide (membership = Some Viewer) && negb isOwner then
                  (w, Forbidden "Forbidden: Viewers cannot modify projects")
                else
                  (* Check optimistic concurrency if baseSeq provided *)
                  let concurrency : option response :=
                    match baseSeq r with
                    | None => None
                    | Some expected =>
                        if projection_select_down f then Some InternalServerError
                        else
                          let currentSeq :=
                            match project_projections (db w) !! projectId r with
                            | Some row => nearest_double (head_seq row)
                            | None => 0
                            end in
                          if bool_decide (currentSeq ≠ expected)
                          then Some (Conflict expected currentSeq)
                          else None
                    end in
                  match concurrency with
                  | Some InternalServerError =>
                      (console_error "Unexpected error in mutate:" w, InternalServerError)
                  | Some early => (w, early)
                  | None =>
                      (* Apply the event atomically using the database function *)
                      if apply_rpc_down f then
                        (console_error "Failed to apply event:" w, ApplyFailed None)
                      else
                        match ProjectEvents.apply_project_event plpgsql_variable_conflict
                                now (projectId r) userId
                                (type (proposal_of r))
                                {[ "name" := BStr (payload_name (proposal_of r)) ]}
                                (db w) with
                        | (_, inl e) =>
                            (console_error "Failed to apply event:" w, ApplyFailed (Some e))
                        | (db', inr applied) =>
                            (with_db db' w,
                             Committed (projectId r) applied
                                       (key_or_undefined (idempotencyKey r)))
                        end
                  end
            end
        end.

(** The request gets past the method check, authentication, rate limiting
    and validation: it is a [POST] of user [userId] whose body parses to [r],
    and the rate limiter leaves the world [w1]. *)
Definition admitted (f : faults) (now : timestamptz) (req : request) (w : world)
    (userId : string) (r : mutate_request) (w1 : world) : Prop :=
  method req = "POST"
  ∧ Auth.verifyAuth w req = (userId, None)
  ∧ userId ≠ ""
  ∧ (∃ rl, RateLimit.checkRateLimit f now userId w = (w1, rl)
           ∧ RateLimit.allowed rl = true)
  ∧ ∃ json, body req = Some json ∧ RequestSchema json = Some r.

(** The user owns the project or is one of its editors. *)
Definition may_edit (d : database) (userId : string) (p : uuid) : Prop :=
  (∃ row, projects d !! p = Some row ∧ owner_id row = userId)
  ∨ project_members d !! (p, userId) = Some Editor.

(** Requests handled one after the other, each at its instant and with the
    backend failures of its moment. *)
Record call := {
  call_faults : faults;
  call_now : timestamptz;
  call_request : request;
}.

Fixpoint run (calls : list call) (w : world) : world * list response :=
  match calls with
  | [] => (w, [])
  | c :: rest =>
      let '(w1, r) := serve (call_faults c) (call_now c) (call_request c) w in
      let '(w2, rs) := run rest w1 in
      (w2, r :: rs)
  end.

(** The sequence numbers [apply_project_event] returned to the successful
    commits against a project, in order. *)
Definition committed_seqs (p : uuid) (rs : list response) : list Z :=
  omap (λ r, match r with
             | Committed p' (s, _) _ => if bool_decide (p' = p) then Some s else None
             | _ => None
             end) rs.

End MutatePlatform.

End Mutate.

(** ** The metered AI endpoint: [supabase/functions/ai-proxy/index.ts] *)
Module AiProxy.
Import Js Sql Runtime.

Record ai_request := {
  project_id : option uuid;
  prompt : string;
  provider : string;
  model : string;
}.

Definition PROVIDERS : list string := ["openai"; "anthropic"; "gemini"; "groq"; "mistral"].

Record pricing := {
  input : float;
  output : float;
}.

(** AI Provider cost configuration (per 1K tokens): the own properties of
    the object literal. *)
Definition COST_PER_1K_TOKENS : list (string * pricing) :=
  [ ("gpt-4", {| input := 0.03; output := 0.06 |});
    ("gpt-4-turbo", {| input := 0.01; output := 0.03 |});
    ("gpt-3.5-turbo", {| input := 0.0015; output := 0.002 |});
    ("claude-3-opus", {| input := 0.015; output := 0.075 |});
    ("claude-3-sonnet", {| input := 0.003; output := 0.015 |});
    ("claude-3-haiku", {| input := 0.00025; output := 0.00125 |}) ]%float.

(** The properties every object literal inherits from [Object.prototype]:
    functions, and the prototype object itself for [__proto__]. *)
Definition OBJECT_PROTOTYPE_KEYS : list string :=
  [ "constructor"; "__defineGetter__"; "__defineSetter__"; "hasOwnProperty";
    "__lookupGetter__"; "__lookupSetter__"; "isPrototypeOf";
    "propertyIsEnumerable"; "toString"; "valueOf"; "__proto__";
    "toLocaleString" ].

(** What [COST_PER_1K_TOKENS[model]] evaluates to. *)
Inductive table_entry : Set :=
  | OwnPricing (p : pricing)
  | Inherited
  | Undefined.

Fixpoint own_pricing (table : list (string * pricing)) (key : string) : option pricing :=
  match table with
  | [] => None
  | (k, p) :: rest => if String.eqb k key then Some p else own_pricing rest key
  end.

Definition cost_entry (key : string) : table_entry :=
  match own_pricing COST_PER_1K_TOKENS key with
  | Some p => OwnPricing p
  | None =>
      if existsb (String.eqb key) OBJECT_PROTOTYPE_KEYS then Inherited else Undefined
  end.

(** [entry.input] and [entry.output] as operands of [*]: an inherited
    function or object has neither, and [undefined] converts to [NaN]. *)
Definition entry_input (e : table_entry) : float :=
  match e with OwnPricing p => input p | _ => nan end.

Definition entry_output (e : table_entry) : float :=
  match e with OwnPricing p => output p | _ => nan end.

(** Budget limits (USD). *)
Definition USER_DAILY_BUDGET : Q := 10.00.
Definition PROJECT_DAILY_BUDGET : Q := 5.00.

(** [calculateCost]. *)
Definition calculateCost (model : string) (tokensIn tokensOut : float) : float :=
  let pricing :=
    match cost_entry model with
    | Undefined => cost_entry "gpt-4"          (* a || b, a falsy *)
    | entry => entry
    end in
  let inputCost := (tokensIn / 1000 * entry_input pricing)%float in
  let outputCost := (tokensOut / 1000 * entry_output pricing)%float in
  (inputCost + outputCost)%float.

Definition dquote : string := String (Ascii.ascii_of_nat 34) "".

(** The mock [callAIProvider] of the source. *)
Definition mockAIProvider (provider model prompt : string) : completion ai_result :=
  let mockResponse :=
    "Mock AI response for: " +:+ dquote +:+ String.substring 0 50 prompt
      +:+ "..." +:+ dquote in
  (* Math.ceil(s.length / 4) *)
  let ceil4 (s : string) := number_of_Z ((Z.of_nat (String.length s) + 3) / 4) in
  Ok {| result := mockResponse;
        tokensIn := ceil4 prompt;
        tokensOut := ceil4 mockResponse |}.

Record budget_result := {
  allowed : bool;
  reason : option string;
}.

(** The [data] of a cost RPC as a condition: [null] and [0] are falsy.  The
    number is the decimal the function returned. *)
Definition cost_truthy (data : option Q) : bool :=
  match data with
  | Some c => negb (Qeq_bool c 0)
  | None => false
  end.

(** [data >= limit] for a non-null [data]. *)
Definition cost_reached (data : option Q) (limit : Q) : bool :=
  match data with
  | Some c => Qle_bool limit c
  | None => false
  end.

(** The decision of [checkBudget] from the [data] of its RPCs;
    [projectCost] is read only when a project is given. *)
Definition budget_decision (userCost : option Q) (projectId : option uuid)
    (projectCost : option Q) : budget_result :=
  if cost_truthy userCost && cost_reached userCost USER_DAILY_BUDGET then
    {| allowed := false; reason := Some "User daily budget exceeded" |}
  else
    match projectId with
    | Some id =>
        if negb (String.eqb id "")
           && cost_truthy projectCost
           && cost_reached projectCost PROJECT_DAILY_BUDGET
        then {| allowed := false; reason := Some "Project daily budget exceeded" |}
        else {| allowed := true; reason := None |}
    | None => {| allowed := true; reason := None |}
    end.

(** A cap does not bite: the RPC gave no data, or a spend below the limit. *)
Definition under_cap (data : option Q) (limit : Q) : Prop :=
  ∀ c, data = Some c → (c < limit)%Q.

Definition budget_allowed : budget_result := {| allowed := true; reason := None |}.

Definition budget_denied (why : string) : budget_result :=
  {| allowed := false; reason := Some why |}.

(** The world after one more row has been written to the ledger. *)
Definition record (row : ai_usage_row) (w : world) : world :=
  with_db (with_ai_usage (λ ledger, ledger ++ [row]) (db w)) w.

(** The world with the [failed] rows taken out of the ledger. *)
Definition without_failed (w : world) : world :=
  with_db (with_ai_usage (filter (λ r, au_status r = StatusOk)) (db w)) w.

Inductive response : Type :=
  | CorsPreflight
  | MethodNotAllowed
  | Unauthorized (error : string)
  | RateLimitExceeded (retry_after : option Z) (retry_after_header : Z)
  | InvalidJsonBody
  | InvalidRequest
  | BudgetExceeded (error : string)
  | ProviderFailed (error : string)
  | Success (text : string) (tokens_in tokens_out cost_usd : float).

Definition status (r : response) : Z :=
  match r with
  | CorsPreflight => 200
  | MethodNotAllowed => 405
  | Unauthorized _ => 401
  | RateLimitExceeded _ _ => 429
  | InvalidJsonBody | InvalidRequest => 400
  | BudgetExceeded _ => 402
  | ProviderFailed _ => 502
  | Success _ _ _ _ => 200
  end.

Definition exn_message (e : exn) : string :=
  match e with
  | Error m | TypeError m => m
  end.

Section AiProxyPlatform.
Context `{Platform}.

(** [RequestSchema.safeParse]. *)
Definition RequestSchema (v : jsval) : option ai_request :=
  match v with
  | JObj _ =>
      pid ← match prop v "project_id" with
            | JUndefined => Some None
            | JStr id => if zod_uuid id then Some (Some id) else None
            | _ => None
            end;
      pr ← match prop v "prompt" with
           | JStr p =>
               if (1 <=? Z.of_nat (String.length p))
                  && (Z.of_nat (String.length p) <=? 10000)
               then Some p else None
           | _ => None
           end;
      pv ← match prop v "provider" with
           | JUndefined => Some "openai"
           | JStr p => if existsb (String.eqb p) PROVIDERS then Some p else None
           | _ => None
           end;
      m ← match prop v "model" with
          | JUndefined => Some "gpt-4"
          | JStr m => Some m
          | _ => None
          end;
      Some {| project_id := pid; prompt := pr; provider := pv; model := m |}
  | _ => None
  end.

(** [new Date(now.getFullYear(), now.getMonth(), now.getDate())
    .toISOString()] as a [TIMESTAMPTZ]. *)
Definition today (now : timestamptz) : timestamptz :=
  1000 * local_midnight (now / 1000).

(** The spend of the current day that the cost RPCs sum up: [ok] rows of
    the user, or of the project, created since local midnight. *)
Definition user_spend (now : timestamptz) (userId : string) (w : world) : Q :=
  AiUsageSql.get_user_ai_cost userId (Some (today now)) (db w).

Definition project_spend (now : timestamptz) (projectId : uuid) (w : world) : Q :=
  AiUsageSql.get_project_ai_cost projectId (Some (today now)) (db w).

(** [checkBudget]. *)
Definition checkBudget (f : faults) (now : timestamptz) (userId : string)
    (projectId : option uuid) (w : world) : budget_result :=
  let userCost :=
    if user_cost_rpc_down f then None
    else Some (user_spend now userId w) in
  let projectCost :=
    match projectId with
    | Some id =>
        if project_cost_rpc_down f then None
        else Some (project_spend now id w)
    | None => None
    end in
  budget_decision userCost projectId projectCost.

(** The row PostgREST inserts for the object [recordAIUsage] sends, when
    every field converts. *)
Definition usage_row (now : timestamptz) (userId : string) (projectId : option uuid)
    (provider model : string) (tokensIn tokensOut costUsd : float)
    (status : usage_status) : option ai_usage_row :=
  tin ← integer_value tokensIn;
  tout ← integer_value tokensOut;
  cost ← numeric_of_number costUsd;
  Some {| au_user_id := userId;
          (* projectId || null *)
          au_project_id := match projectId with
                           | Some id => if String.eqb id "" then None else Some id
                           | None => None
                           end;
          au_provider := provider;
          au_model := model;
          au_tokens_in := tin;
          au_tokens_out := tout;
          au_cost_usd := cost;
          au_status := status;
          au_created_at := now |}.

(** [recordAIUsage]: an error of the insert is logged and nothing else. *)
Definition recordAIUsage (f : faults) (now : timestamptz) (userId : string)
    (projectId : option uuid) (provider model : string)
    (tokensIn tokensOut costUsd : float) (status : usage_status) (w : world) : world :=
  let failed := console_error "Failed to record AI usage:" w in
  if usage_insert_down f then failed
  else
    match usage_row now userId projectId provider model tokensIn tokensOut costUsd status with
    | None => failed
    | Some row =>
        match transaction (AiUsageSql.insert_ai_usage row) (db w) with
        | (_, inl _) => failed
        | (db', inr _) => with_db db' w
        end
    end.

(** The handler passed to [serve]. *)
Definition serve (f : faults) (now : timestamptz) (req : request) (w : world)
  : world * response :=
  (* Handle CORS *)
  if String.eqb (method req) "OPTIONS" then (w, CorsPreflight)
  (* Only accept POST requests *)
  else if negb (String.eqb (method req) "POST") then (w, MethodNotAllowed)
  else
    (* Verify authentication *)
    let '(userId, authError) := Auth.verifyAuth w req in
    if bool_decide (is_Some authError) || String.eqb userId "" then
      (w, Unauthorized (default "Unauthorized" authError))
    else
      (* Check rate limit *)
      let '(w, rl) := RateLimit.checkRateLimit f now userId w in
      if negb (RateLimit.allowed rl) then
        (w, RateLimitExceeded (RateLimit.retryAfter rl)
              (Mutate.retry_after_or_60 (RateLimit.retryAfter rl)))
      else
        (* Parse and validate request body *)
        match body req with
        | None => (w, InvalidJsonBody)
        | Some json =>
            match RequestSchema json with
            | None => (w, InvalidRequest)
            | Some r =>
                (* Check budget before proceeding *)
                let budget := checkBudget f now userId (project_id r) w in
                if negb (allowed budget) then
                  (* Record failed attempt *)
                  (recordAIUsage f now userId (project_id r) (provider r) (model r)
                                 0 0 0 StatusFailed w,
                   BudgetExceeded (default "Budget exceeded" (reason budget)))
                else
                  (* Call AI provider *)
                  match ai_provider (provider r) (model r) (prompt r) with
                  | Throw err =>
                      (* Record failed usage *)
                      (recordAIUsage f now userId (project_id r) (provider r) (model r)
                                     0 0 0 StatusFailed w,
                       ProviderFailed (exn_message err))
                  | Ok aiResult =>
                      (* Calculate cost *)
                      let costUsd :=
                        calculateCost (model r) (tokensIn aiResult) (tokensOut aiResult) in
                      (* Record successful usage *)
                      (recordAIUsage f now userId (project_id r) (provider r) (model r)
                                     (tokensIn aiResult) (tokensOut aiResult) costUsd
                                     StatusOk w,
                       Success (result aiResult) (tokensIn aiResult) (tokensOut aiResult)
                               costUsd)
                  end
            end
        end.

(** The request gets past the method check, authentication, rate limiting
    and validation: it is a [POST] of user [userId] whose body parses to [r],
    and the rate limiter leaves the world [w1].  From here on the call is a
    metered call. *)
Definition admitted (f : faults) (now : timestamptz) (req : request) (w : world)
    (userId : string) (r : ai_request) (w1 : world) : Prop :=
  method req = "POST"
  ∧ Auth.verifyAuth w req = (userId, None)
  ∧ userId ≠ ""
  ∧ (∃ rl, RateLimit.checkRateLimit f now userId w = (w1, rl)
           ∧ RateLimit.allowed rl = true)
  ∧ ∃ json, body req = Some json ∧ RequestSchema json = Some r.

End AiProxyPlatform.


End AiProxy.

(** ** A reference platform

    One instance of the runtime, used to run the embedding on concrete
    requests: the UUID pattern of zod 3.22, UTC as the local zone, the
    decimal that [JSON.stringify] writes for a number rounded to six decimals
    for [NUMERIC(10, 6)], the mock provider of the source, and PostgreSQL's
    default for [plpgsql.variable_conflict]. *)
Module Reference.
Import Js Sql Runtime.

Definition is_hex (c : Ascii.ascii) : bool :=
  let n := Ascii.nat_of_ascii c in
  ((48 <=? n) && (n <=? 57) || (65 <=? n) && (n <=? 70) || (97 <=? n) && (n <=? 102))%nat.

(** [8-4-4-4-12] hexadecimal digits. *)
Fixpoint uuid_shape (groups : list nat) (left : nat) (s : string) : bool :=
  match s, left with
  | EmptyString, O => match groups with [] => true | _ => false end
  | EmptyString, S _ => false
  | String c rest, O =>
      match groups with
      | g :: groups' => String.eqb (String c "") "-" && uuid_shape groups' g rest
      | [] => false
      end
  | String c rest, S left' => is_hex c && uuid_shape groups left' rest
  end.

Definition uuid_pattern (s : string) : bool := uuid_shape [4; 4; 4; 12]%nat 8%nat s.

(** Floor of a rational plus one half, away from zero for negative values. *)
Definition round_half_away (q : Q) : Z :=
  let n := (2 * Z.abs (Qnum q) + Z.pos (Qden q)) / (2 * Z.pos (Qden q)) in
  Z.sgn (Qnum q) * n.

(** [b ^ e] for an integer exponent of either sign. *)
Definition power (b e : Z) : Q :=
  if 0 <=? e then b ^ e # 1 else 1 # Z.to_pos (b ^ (- e)).

(** The value [m * 2 ^ e] of a finite number. *)
Definition value_of (m : positive) (e : Z) : Q := (inject_Z (Z.pos m) * power 2 e)%Q.

(** Does a decimal read back as the number [m * 2 ^ e]?  It does when it
    lies within half the distance to the next number above and below, the
    ends included when [m] is even (round to nearest, ties to even).  The
    number below is half as far when [m] is the least mantissa of its
    binade. *)
Definition reads_back (m : positive) (e : Z) (c : Q) : bool :=
  let v := value_of m e in
  let up := power 2 (e - 1) in
  let down := if (Z.pos m =? 2 ^ 52) && (-1074 <? e) then power 2 (e - 2)
              else power 2 (e - 1) in
  if Z.even (Z.pos m) then Qle_bool (v - down) c && Qle_bool c (v + up)
  else negb (Qle_bool c (v - down)) && negb (Qle_bool (v + up) c).

(** The least [p] from [p] on with [v < 10 ^ p]. *)
Fixpoint magnitude_from (fuel : nat) (p : Z) (v : Q) : Z :=
  match fuel with
  | O => p
  | S fuel' => if Qle_bool (power 10 p) v then magnitude_from fuel' (p + 1) v else p
  end.

(** The least [p] with [m * 2 ^ e < 10 ^ p].  The search starts below it:
    with [l] the binary logarithm of the value, [2 ^ l <= m * 2 ^ e] and
    [0.30102 * l - 0.02 < l * log10 2] for the exponents of binary64; it ends
    within six steps. *)
Definition magnitude (m : positive) (e : Z) : Z :=
  let l := Z.log2 (Z.pos m) + e in
  magnitude_from 8 (l * 30102 / 100000 - 2) (value_of m e).

(** The decimal with [k] digits, the first of them worth [10 ^ (p - 1)],
    that reads back as [m * 2 ^ e]; the closest one when there are two. *)
Definition with_digits (m : positive) (e p k : Z) : option Q :=
  let v := value_of m e in
  let unit := power 10 (p - k) in
  let s := Qnum (v / unit) / Z.pos (Qden (v / unit)) in
  let below := (inject_Z s * unit)%Q in
  let above := (inject_Z (s + 1) * unit)%Q in
  match reads_back m e below, reads_back m e above with
  | true, true =>
      Some (if Qeq_bool (v - below) (above - v) then (if Z.even s then below else above)
            else if Qle_bool (v - below) (above - v) then below else above)
  | true, false => Some below
  | false, true => Some above
  | false, false => None
  end.

Fixpoint shortest_from (fuel : nat) (m : positive) (e p k : Z) : option Q :=
  match fuel with
  | O => None
  | S fuel' =>
      match with_digits m e p k with
      | Some c => Some c
      | None => shortest_from fuel' m e p (k + 1)
      end
  end.

(** The decimal [JSON.stringify] writes for a number: the shortest one that
    reads back as the number (17 digits always do), [0] for both zeros, and
    [null] for [NaN] and the infinities. *)
Definition shortest_decimal (x : float) : option Q :=
  match Prim2SF x with
  | S754_zero _ => Some 0%Q
  | S754_finite sign m e =>
      let c := default (value_of m e) (shortest_from 17 m e (magnitude m e) 1) in
      Some (if sign then Qopp c else c)
  | _ => None
  end.

(** The value a [NUMERIC(10, 6)] column takes from that decimal: rounded to
    six decimals, halves away from zero. *)
Definition six_decimals (x : float) : option Q :=
  q ← shortest_decimal x;
  Some (round_half_away (q * 1000000) # 1000000).

Definition utc_midnight (ms : Z) : Z := ms - ms mod 86400000.

Definition platform : Platform :=
  {| zod_uuid := uuid_pattern;
     numeric_of_number := six_decimals;
     local_midnight := utc_midnight;
     ai_provider := AiProxy.mockAIProvider;
     plpgsql_variable_conflict := ConflictError |}.

(** The same platform over a database set to
    [plpgsql.variable_conflict = use_column]. *)
Definition platform_use_column : Platform :=
  {| zod_uuid := uuid_pattern;
     numeric_of_number := six_decimals;
     local_midnight := utc_midnight;
     ai_provider := AiProxy.mockAIProvider;
     plpgsql_variable_conflict := UseColumn |}.

End Reference.

(** ** Test data

    The scenario of the specification: principal [alice] creates aggregate
    [project_A] and commits renames to it. *)
Module Examples.
Import Js Sql Runtime.

Definition alice : uuid := "11111111-1111-4111-8111-111111111111".
Definition project_A : uuid := "22222222-2222-4222-8222-222222222222".

(** Principal [alice] owns aggregate [project_A]; nothing has been committed. *)
Definition db0 : database :=
  {| auth_users := {[alice]};
     projects := {[project_A := {| owner_id := alice |}]};
     project_members := ∅;
     project_events := [];
     project_projections := ∅;
     ai_usage := [];
     rate_limits := ∅ |}.

Definition w0 : world :=
  {| db := db0; sessions := {["alice-token" := alice]}; console := [] |}.

(** [{ projectId, baseSeq?, proposal: rename(name) }] sent by [alice]. *)
Definition commit_request (baseSeq : option Z) (name : string) : request :=
  let fields : gmap string jsval :=
    <["projectId" := JStr project_A]>
      (<["proposal" := Reducer.rename_event (JStr name)]> ∅) in
  {| method := "POST";
     authorization := Some "Bearer alice-token";
     body := Some (JObj match baseSeq with
                        | Some b => <["baseSeq" := JNum (number_of_Z b)]> fields
                        | None => fields
                        end) |}.

Definition commit_call (now : timestamptz) (baseSeq : option Z) (name : string)
  : Mutate.call :=
  {| Mutate.call_faults := no_faults;
     Mutate.call_now := now;
     Mutate.call_request := commit_request baseSeq name |}.

(** 2023-11-14 22:13:20 UTC and the seconds after it. *)
Definition t0 : timestamptz := 1700000000000000.

(** Five renames, one a second. *)
Definition five_commits : list Mutate.call :=
  [ commit_call t0 None "One";
    commit_call (t0 + 1000000) (Some 1) "Two";
    commit_call (t0 + 2000000) None "Three";
    commit_call (t0 + 3000000) (Some 3) "Four";
    commit_call (t0 + 4000000) (Some 4) "Five" ].

Definition rename_row (seq : Z) (name : string) : event_row :=
  {| ev_project_id := project_A;
     ev_actor_id := alice;
     ev_seq := seq;
     ev_type := "project.rename";
     ev_payload := {[ "name" := BStr name ]} |}.

(** The aggregate at [head_seq = 5]: five renames in the log and the
    projection at the fifth. *)
Definition db5 : database :=
  {| auth_users := {[alice]};
     projects := {[project_A := {| owner_id := alice |}]};
     project_members := ∅;
     project_events := [rename_row 1 "One"; rename_row 2 "Two"; rename_row 3 "Three";
                        rename_row 4 "Four"; rename_row 5 "Five"];
     project_projections :=
       {[project_A := {| head_seq := 5;
                         snapshot := {[ "name" := BStr "Five" ]};
                         pr_updated_at := t0 + 4000000 |}]};
     ai_usage := [];
     rate_limits := ∅ |}.

Definition w5 : world :=
  {| db := db5; sessions := {["alice-token" := alice]}; console := [] |}.

(** A ledger row of [alice] written at [t0]. *)
Definition usage (project : option uuid) (cost : Q) (status : usage_status)
  : ai_usage_row :=
  {| au_user_id := alice;
     au_project_id := project;
     au_provider := "openai";
     au_model := "gpt-4";
     au_tokens_in := 0;
     au_tokens_out := 0;
     au_cost_usd := cost;
     au_status := status;
     au_created_at := t0 |}.

Definition world_with_ledger (ledger : list ai_usage_row) : world :=
  {| db := with_ai_usage (λ _, ledger) db0;
     sessions := sessions w0;
     console := [] |}.

(** Exactly $10.00 of [ok] spend today. *)
Definition ledger_at_cap : list ai_usage_row :=
  [usage None 4.00 StatusOk; usage None 6.00 StatusOk].

(** $9.00 of [ok] spend and $5.00 of [failed] spend today. *)
Definition ledger_9_ok_5_failed : list ai_usage_row :=
  [usage None 9.00 StatusOk; usage None 5.00 StatusFailed].

(** $9.99 of [ok] spend today. *)
Definition ledger_9_99 : list ai_usage_row := [usage None 9.99 StatusOk].

(** $50.00 of [ok] spend today, on [project_A]. *)
Definition ledger_over_both_caps : list ai_usage_row :=
  [usage (Some project_A) 50.00 StatusOk].


(** A prompt sent by [alice], for a project or for none. *)
Definition ai_call (project : option uuid) (model : string) : request :=
  let fields : gmap string jsval :=
    <["prompt" := JStr "Create a hero section"]> (<["model" := JStr model]> ∅) in
  {| method := "POST";
     authorization := Some "Bearer alice-token";
     body := Some (JObj match project with
                        | Some p => <["project_id" := JStr p]> fields
                        | None => fields
                        end) |}.


(** Both cost RPCs fail. *)
Definition cost_backend_down : faults :=
  {| rate_limit_rpc_down := false;
     members_select_down := false;
     projects_select_down := false;
     projection_select_down := false;
     apply_rpc_down := false;
     user_cost_rpc_down := true;
     project_cost_rpc_down := true;
     usage_insert_down := false |}.

End Examples.

(** ** Replaying the log *)
Module Replay.
Import Js Reducer.

(** A rename event that carries [name]: an object whose [type] is the
    rename tag and whose [payload] is an object with that [name]. *)
Definition is_rename_of (event : jsval) (name : string) : Prop :=
  prop event "type" = JStr "project.rename"
  ∧ ∃ payload, prop event "payload" = JObj payload
               ∧ payload !! "name" = Some (JStr name).

(** A name the reducer accepts. *)
Definition valid_name (name : string) : Prop :=
  (1 ≤ String.length name ≤ 200)%nat.

End Replay.

(** ** The log and its replay by the reducer *)
Module LogReplay.
Import Js Reducer Sql ProjectEvents.

(** A JSONB scalar and the JavaScript value a client reads it as.  Numbers
    are left out: a JSONB number is a decimal of any precision, the client's
    number a binary64 value. *)
Inductive same_scalar : jsonb_scalar → jsval → Prop :=
  | same_null : same_scalar BNull JNull
  | same_bool b : same_scalar (BBool b) (JBool b)
  | same_str s : same_scalar (BStr s) (JStr s).

Definition same_json (q : jsonb_object) (s : gmap string jsval) : Prop :=
  ∀ k, option_Forall2 same_scalar (q !! k) (s !! k).

(** A row of the log and the event object [{ type, payload }] a client
    holds for it. *)
Definition same_event (row : event_row) (event : jsval) : Prop :=
  prop event "type" = JStr (ev_type row)
  ∧ ∃ payload, prop event "payload" = JObj payload
               ∧ same_json (ev_payload row) payload.

(** The events of a project, in log order. *)
Definition events_of (p : uuid) (log : list event_row) : list event_row :=
  filter (λ e, ev_project_id e = p) log.

(** The snapshot of a project: that of its projection row, the empty object
    while there is none. *)
Definition snapshot_of (d : database) (p : uuid) : jsonb_object :=
  match project_projections d !! p with
  | Some row => snapshot row
  | None => ∅
  end.

(** The projection of a project is what the reducer computes from its log:
    the log can be read as event objects, and [applyEvents] on any such
    reading, from the initial snapshot, succeeds with the snapshot of the
    projection. *)
Definition projection_replays_log (d : database) (p : uuid) : Prop :=
  (∃ events, Forall2 same_event (events_of p (project_events d)) events)
  ∧ ∀ events, Forall2 same_event (events_of p (project_events d)) events →
      ∃ s, applyEvents events createInitialSnapshot = Ok s
           ∧ same_json (snapshot_of d p) s.

End LogReplay.

(** ** Cases of the commit endpoint *)
Module MutateCases.
Import Js Sql Runtime Mutate.

(** The tables [apply_project_event] does not write. *)
Definition same_outside_log (d d' : database) : Prop :=
  auth_users d' = auth_users d
  ∧ projects d' = projects d
  ∧ project_members d' = project_members d
  ∧ ai_usage d' = ai_usage d
  ∧ rate_limits d' = rate_limits d.

(** A statement that writes none of them. *)
Definition keeps_outside_log {A} (m : stmt A) : Prop :=
  ∀ d d' a, m d = Done d' a → same_outside_log d d'.


(** A response without the idempotency key it echoes. *)
Definition without_key (r : response) : response :=
  match r with
  | Committed p applied _ => Committed p applied None
  | other => other
  end.

(** A value [z.string().optional()] accepts for a key of a JSON body. *)
Definition optional_string (v : option jsval) : Prop :=
  v = None ∨ ∃ s, v = Some (JStr s).

(** [bob], who is not [alice]. *)
Definition bob : uuid := "44444444-4444-4444-8444-444444444444".

(** The database of the example with [bob] added as a member of
    [project_A] in the given role, and his session. *)
Definition world_with_member (r : role) : world :=
  {| db := {| auth_users := {[Examples.alice; bob]};
              projects := {[Examples.project_A := {| owner_id := Examples.alice |}]};
              project_members := {[(Examples.project_A, bob) := r]};
              project_events := [];
              project_projections := ∅;
              ai_usage := [];
              rate_limits := ∅ |};
     sessions := {["alice-token" := Examples.alice; "bob-token" := bob]};
     console := [] |}.

(** The rename request of the example sent by [bob]. *)
Definition bob_commit_request (name : string) : request :=
  {| method := "POST";
     authorization := Some "Bearer bob-token";
     body := body (Examples.commit_request None name) |}.

End MutateCases.

(** ** Cases of the AI endpoint *)
Module AiProxyCases.
Import Js Sql Runtime AiProxy.

(** The responses of a metered call: the budget has been checked. *)
Definition metered (r : response) : bool :=
  match r with
  | BudgetExceeded _ | ProviderFailed _ | Success _ _ _ _ => true
  | _ => false
  end.

(** The world with the ledger cut down to the rows created at or after an
    instant. *)
Definition ledger_since (t : timestamptz) (w : world) : world :=
  with_db (with_ai_usage (filter (λ r, t ≤ au_created_at r)) (db w)) w.

End AiProxyCases.

(** ** A counter at the maximum *)
Module MoreExamples.
Import Js Sql Runtime Examples.

(** The world after thirty requests of [alice] at [t0]: her counter is at
    the maximum. *)
Definition w30 : world :=
  fst (RateLimit.checkRateLimit_each (replicate 30 t0) alice w0).

End MoreExamples.

(* ===================================================================== *)
(** * Part II.  Properties                                                *)
(* ===================================================================== *)

(** ** The reducer *)
Section ReducerFacts.
Import Js Reducer.

Example applyEvent_rename_Foo :
  applyEvent ∅ (rename_event (JStr "Foo")) = Ok (<["name" := JStr "Foo"]> ∅).
Proof. reflexivity. Qed.

Lemma a_repeat_length n : String.length (a_repeat n) = n.
Proof. induction n as [|n IH]; simpl; congruence. Qed.

(** An event that passes the two guards of [applyEvent] and carries the
    rename tag reaches [applyRenameEvent]. *)
Lemma applyEvent_rename snapshot event :
  prop event "type" = JStr "project.rename" →
  applyEvent snapshot event = applyRenameEvent snapshot event.
Proof.
  intros Hty. unfold applyEvent.
  destruct event; simpl in Hty; try discriminate.
  simpl. rewrite Hty. reflexivity.
Qed.

(** What [applyRenameEvent] does with a payload object, by the value of
    its [name]. *)
Lemma applyRenameEvent_payload snapshot event payload :
  prop event "type" = JStr "project.rename" →
  prop event "payload" = JObj payload →
  applyRenameEvent snapshot event =
    match prop (JObj payload) "name" with
    | JStr name =>
        if (String.length name =? 0)%nat then
          Throw (Error "Invalid project.rename payload: name cannot be empty")
        else if (200 <? String.length name)%nat then
          Throw (Error "Invalid project.rename payload: name exceeds maximum length of 200")
        else Ok (<["name" := JStr name]> snapshot)
    | _ => Throw (Error "Invalid project.rename payload: name must be a string")
    end.
Proof.
  intros Hty Hpl. unfold applyRenameEvent, isProjectRenameEvent.
  rewrite Hty, Hpl. reflexivity.
Qed.

Lemma InvalidPayload_intro reason :
  InvalidPayload (Error ("Invalid project.rename payload: " +:+ reason)).
Proof. exists reason. reflexivity. Qed.

(** C7.  The reducer's validation of a rename payload accepts exactly the
    non-empty string names of at most 200 characters.  For every snapshot and
    every rename event with a payload object: a valid name gives the snapshot
    with [name] replaced, any other name fails with an invalid-payload error;
    in particular a name of length 200 succeeds, a name of length 201 fails,
    the empty string fails and a name that is not a string fails. *)
Theorem rename_payload_validation
    (snapshot : ProjectSnapshot) (event : jsval) (payload : gmap string jsval) :
  prop event "type" = JStr "project.rename" →
  prop event "payload" = JObj payload →
  let name := prop (JObj payload) "name" in
  (valid_rename_name name → applyEvent snapshot event = Ok (<["name" := name]> snapshot))
  ∧ (¬ valid_rename_name name →
     ∃ e, applyEvent snapshot event = Throw e ∧ InvalidPayload e)
  ∧ (∀ n, name = JStr n → String.length n = 200%nat →
     applyEvent snapshot event = Ok (<["name" := JStr n]> snapshot))
  ∧ (∀ n, name = JStr n → String.length n = 201%nat →
     ∃ e, applyEvent snapshot event = Throw e ∧ InvalidPayload e)
  ∧ (name = JStr "" → ∃ e, applyEvent snapshot event = Throw e ∧ InvalidPayload e)
  ∧ (typeof name ≠ TString → ∃ e, applyEvent snapshot event = Throw e ∧ InvalidPayload e).
Proof.
  intros Hty Hpl name.
  rewrite (applyEvent_rename _ _ Hty), (applyRenameEvent_payload _ _ _ Hty Hpl).
  fold name.
  assert (Hvalid : valid_rename_name name →
            match name with
            | JStr n =>
                if (String.length n =? 0)%nat then
                  Throw (Error "Invalid project.rename payload: name cannot be empty")
                else if (200 <? String.length n)%nat then
                  Throw (Error "Invalid project.rename payload: name exceeds maximum length of 200")
                else Ok (<["name" := JStr n]> snapshot)
            | _ => Throw (Error "Invalid project.rename payload: name must be a string")
            end = Ok (<["name" := name]> snapshot)).
  { intros (n & -> & Hlo & Hhi).
    destruct (Nat.eqb_spec (String.length n) 0); [lia|].
    destruct (Nat.ltb_spec 200 (String.length n)); [lia|]. reflexivity. }
  assert (Hinvalid : ¬ valid_rename_name name →
            ∃ e, match name with
                 | JStr n =>
                     if (String.length n =? 0)%nat then
                       Throw (Error "Invalid project.rename payload: name cannot be empty")
                     else if (200 <? String.length n)%nat then
                       Throw (Error "Invalid project.rename payload: name exceeds maximum length of 200")
                     else Ok (<["name" := JStr n]> snapshot)
                 | _ => Throw (Error "Invalid project.rename payload: name must be a string")
                 end = Throw e ∧ InvalidPayload e).
  { intros Hnot.
    destruct name as [| |b|x|n|o];
      try (eexists; split; [reflexivity | apply InvalidPayload_intro]).
    destruct (Nat.eqb_spec (String.length n) 0);
      [eexists; split; [reflexivity | apply InvalidPayload_intro]|].
    destruct (Nat.ltb_spec 200 (String.length n));
      [eexists; split; [reflexivity | apply InvalidPayload_intro]|].
    exfalso. apply Hnot. exists n. split; [reflexivity | lia]. }
  split; [exact Hvalid|]. split; [exact Hinvalid|].
  repeat split.
  - intros n Hn Hlen. rewrite <- Hn. apply Hvalid. exists n. split; [exact Hn | lia].
  - intros n Hn Hlen. apply Hinvalid. intros (m & Hm & ?). rewrite Hn in Hm.
    injection Hm as <-. lia.
  - intros Hn. apply Hinvalid. intros (m & Hm & ?). rewrite Hn in Hm.
    injection Hm as <-. simpl in *. lia.
  - intros Hne. apply Hinvalid. intros (m & Hm & ?). rewrite Hm in Hne.
    apply Hne. reflexivity.
Qed.

(** The name of length 200 of the boundary test is accepted. *)
Lemma rename_payload_validation_witness :
  applyEvent ∅ (rename_event (JStr (a_repeat 200)))
  = Ok (<["name" := JStr (a_repeat 200)]> ∅).
Proof.
  refine (proj1 (rename_payload_validation ∅ (rename_event (JStr (a_repeat 200)))
                   (<["name" := JStr (a_repeat 200)]> ∅) eq_refl eq_refl) _).
  exists (a_repeat 200). split; [reflexivity|].
  rewrite a_repeat_length. lia.
Defined.

Lemma not_valid_event_type t : t ∉ VALID_EVENT_TYPES ↔ t ≠ "project.rename".
Proof.
  unfold VALID_EVENT_TYPES. rewrite not_elem_of_cons.
  split; [tauto | intros Hne; split; [exact Hne | apply not_elem_of_nil]].
Qed.

(** Whatever its type, an event that does not carry the rename tag is never
    applied: [applyEvent] throws. *)
Lemma applyEvent_other_type_throws snapshot event :
  prop event "type" ≠ JStr "project.rename" →
  ∃ e, applyEvent snapshot event = Throw e.
Proof.
  intros Hty. unfold applyEvent.
  destruct (negb (truthy event) || negb (bool_decide (typeof event = TObject)));
    [eauto|].
  cbv zeta.
  destruct (negb (truthy (prop event "type"))
            || negb (bool_decide (typeof (prop event "type") = TString))); [eauto|].
  destruct (prop event "type") as [| |b|x|t|o]; eauto.
  destruct (String.eqb_spec t "project.rename") as [->|Hne]; [congruence | eauto].
Qed.

(** A non-empty type string outside the vocabulary reaches the [default]
    branch of the [switch]. *)
Lemma applyEvent_unknown_type snapshot event t :
  prop event "type" = JStr t → t ≠ "" → t ≠ "project.rename" →
  applyEvent snapshot event = Throw (Error ("Unknown event type: " +:+ t)).
Proof.
  intros Hty Hne Hnr. unfold applyEvent.
  destruct event; simpl in Hty; try discriminate.
  simpl. rewrite Hty. simpl.
  destruct (String.eqb_spec t "") as [->|_]; [congruence|]. simpl.
  destruct (String.eqb_spec t "project.rename") as [->|_]; [congruence|].
  reflexivity.
Qed.

End ReducerFacts.

(** ** The atomic append and reduce step *)
Section ProjectEventsFacts.
Import Js Sql ProjectEvents.

(** [snapshot] is the one name that is both a column of
    [project_projections] and a variable of [apply_project_event]. *)
Lemma apply_project_event_name_clash :
  filter (λ c, c ∈ apply_project_event_variables) project_projections_columns
  = ["snapshot"].
Proof. vm_compute. reflexivity. Qed.

Lemma resolve_snapshot vc :
  resolve vc apply_project_event_variables project_projections_columns "snapshot"
  = match vc with
    | ConflictError => raise (AmbiguousColumn "snapshot")
    | UseVariable => ret VariableRef
    | UseColumn => ret ColumnRef
    end.
Proof. by destruct vc. Qed.

(** Under [variable_conflict = error] the first [SELECT] is rejected, whatever
    the arguments and the database: nothing is read and nothing is written. *)
Lemma apply_project_event_ambiguous now p a t payload db :
  apply_project_event ConflictError now p a t payload db
  = (db, inl (AmbiguousColumn "snapshot")).
Proof.
  unfold apply_project_event, transaction, apply_project_event_body.
  unfold mbind, stmt_bind, bind. by rewrite resolve_snapshot.
Qed.

(** With a type other than ['project.rename'] the body of
    [apply_project_event] always ends in an exception. *)
Lemma apply_project_event_body_unknown_type vc now p a t payload db :
  t ≠ "project.rename" →
  ∃ db' e, apply_project_event_body vc now p a t payload db = Raised db' e.
Proof.
  intros Hne. unfold apply_project_event_body, mbind, stmt_bind, bind.
  rewrite resolve_snapshot.
  assert (Hcase : ∀ (v : Z * option jsonb_object) d,
            ∃ db' e,
              match bigint_add v.1 1 d with
              | Done d1 next =>
                  match (if String.eqb t "project.rename"
                         then ret (jsonb_set_text v.2 "name" (jsonb_get_text payload "name"))
                         else raise (RaiseException ("Unknown event type: " +:+ t))) d1
                  with
                  | Done d2 new =>
                      match insert_event {| ev_project_id := p; ev_actor_id := a;
                                            ev_seq := next; ev_type := t;
                                            ev_payload := payload |} d2 with
                      | Done d3 _ =>
                          match update_projection p next new now d3 with
                          | Done d4 _ => ret (next, new) d4
                          | Raised d4 e => Raised d4 e
                          end
                      | Raised d3 e => Raised d3 e
                      end
                  | Raised d2 e => Raised d2 e
                  end
              | Raised d1 e => Raised d1 e
              end = Raised db' e).
  { intros v d. unfold bigint_add.
    destruct ((v.1 + 1 <=? BIGINT_MAX) && (- BIGINT_MAX - 1 <=? v.1 + 1));
      unfold ret, raise; [|eauto].
    destruct (String.eqb_spec t "project.rename") as [->|_]; [congruence | eauto]. }
  destruct vc; unfold raise, ret, read; [eauto|..];
    (destruct (project_projections db !! p) as [row|] eqn:Hrow;
     [ unfold mret, stmt_ret, ret; apply (Hcase (_, _))
     | unfold insert_projection; rewrite Hrow;
       rewrite bool_decide_eq_false_2 by (intros [? ?]; discriminate);
       destruct (bool_decide (is_Some (projects db !! p))); [|eauto];
       unfold mret, stmt_ret, ret; apply (Hcase (_, _)) ]).
Qed.

Lemma seqs_of_app p log e :
  seqs_of p (log ++ [e]) =
    seqs_of p log ++ (if bool_decide (ev_project_id e = p) then [ev_seq e] else []).
Proof.
  unfold seqs_of. rewrite filter_app, fmap_app. f_equal.
  rewrite filter_cons, filter_nil.
  destruct (decide (ev_project_id e = p)) as [Heq|Hne].
  - rewrite bool_decide_eq_true_2 by exact Heq. reflexivity.
  - rewrite bool_decide_eq_false_2 by exact Hne. reflexivity.
Qed.

Lemma seq_taken_spec p s log : seq_taken p s log = true ↔ s ∈ seqs_of p log.
Proof.
  unfold seq_taken, seqs_of. rewrite existsb_exists, list_elem_of_fmap.
  split.
  - intros (e & Hin & Hc). apply andb_true_iff in Hc as [Hp Hs].
    apply bool_decide_eq_true in Hp. apply Z.eqb_eq in Hs.
    exists e. split; [congruence|]. apply list_elem_of_filter.
    split; [exact Hp | by apply list_elem_of_In].
  - intros (e & -> & Hin). apply list_elem_of_filter in Hin as [Hp Hin].
    exists e. split; [by apply list_elem_of_In|].
    apply andb_true_iff. split; [by apply bool_decide_eq_true | apply Z.eqb_refl].
Qed.

Lemma next_seq_free d p :
  log_matches_projection d p → seq_taken p (head_of d p + 1) (project_events d) = false.
Proof.
  intros [Hpos Hlog]. apply not_true_is_false. rewrite seq_taken_spec, Hlog.
  rewrite elem_of_seqZ. lia.
Qed.

Lemma apply_project_event_body_done vc now p a t payload db db' s snap :
  apply_project_event_body vc now p a t payload db = Done db' (s, snap) →
  s = head_of db p + 1
  ∧ t = "project.rename"
  ∧ (∃ sn, snap = Some sn
           ∧ project_projections db'
             = <[p := {| head_seq := s; snapshot := sn; pr_updated_at := now |}]>
                 (project_projections db))
  ∧ project_events db'
    = project_events db ++ [{| ev_project_id := p; ev_actor_id := a; ev_seq := s;
                               ev_type := t; ev_payload := payload |}].
Proof.
  unfold apply_project_event_body, head_of, mbind, stmt_bind, bind.
  rewrite resolve_snapshot.
  assert (Htail : ∀ (h : Z) (cur : option jsonb_object) d,
    match project_projections d !! p with
    | Some r => head_seq r = h
    | None => False
    end →
    match bigint_add h 1 d with
    | Done d1 next =>
        match (if String.eqb t "project.rename"
               then ret (jsonb_set_text cur "name" (jsonb_get_text payload "name"))
               else raise (RaiseException ("Unknown event type: " +:+ t))) d1
        with
        | Done d2 new =>
            match insert_event {| ev_project_id := p; ev_actor_id := a;
                                  ev_seq := next; ev_type := t;
                                  ev_payload := payload |} d2 with
            | Done d3 _ =>
                match update_projection p next new now d3 with
                | Done d4 _ => ret (next, new) d4
                | Raised d4 e => Raised d4 e
                end
            | Raised d3 e => Raised d3 e
            end
        | Raised d2 e => Raised d2 e
        end
    | Raised d1 e => Raised d1 e
    end = Done db' (s, snap) →
    s = h + 1
    ∧ t = "project.rename"
    ∧ (∃ sn, snap = Some sn
             ∧ project_projections db'
               = <[p := {| head_seq := s; snapshot := sn; pr_updated_at := now |}]>
                   (project_projections d))
    ∧ project_events db'
      = project_events d ++ [{| ev_project_id := p; ev_actor_id := a; ev_seq := s;
                                ev_type := t; ev_payload := payload |}]).
  { intros h cur d Hrow. unfold bigint_add.
    destruct ((h + 1 <=? BIGINT_MAX) && _); unfold ret, raise; [|discriminate].
    destruct (String.eqb_spec t "project.rename") as [->|_]; [|discriminate].
    unfold insert_event. cbn [ev_project_id ev_seq ev_actor_id].
    destruct (seq_taken p (h + 1) (project_events d)); [discriminate|].
    destruct (negb (bool_decide (is_Some (projects d !! p)))); [discriminate|].
    destruct (negb (bool_decide (a ∈ auth_users d))); [discriminate|].
    unfold update_projection.
    destruct (jsonb_set_text cur "name" (jsonb_get_text payload "name")) as [sn|];
      unfold raise, write; [|discriminate].
    intros [= <- <- <-]. cbn [project_projections project_events with_project_events
                              with_project_projections].
    split; [reflexivity|]. split; [reflexivity|]. split; [|reflexivity].
    exists sn. split; [reflexivity|].
    apply map_eq. intros k. destruct (decide (p = k)) as [->|Hne].
    - rewrite lookup_alter_eq, lookup_insert_eq.
      by destruct (project_projections d !! k).
    - by rewrite lookup_alter_ne, lookup_insert_ne. }
  assert (Hfresh : ∀ d, project_projections d !! p = None →
    match insert_projection p {| head_seq := 0; snapshot := ∅; pr_updated_at := now |} d
    with
    | Done d1 _ =>
        project_projections d1
        = <[p := {| head_seq := 0; snapshot := ∅; pr_updated_at := now |}]>
            (project_projections d)
        ∧ project_events d1 = project_events d
    | Raised _ _ => True
    end).
  { intros d Hnone. unfold insert_projection. rewrite Hnone.
    rewrite bool_decide_eq_false_2 by (intros [? ?]; discriminate).
    by destruct (bool_decide (is_Some (projects d !! p))). }
  destruct vc; unfold raise, read, mret, stmt_ret, ret; [discriminate|..].
  - destruct (project_projections db !! p) as [row|] eqn:Hrow.
    + apply Htail. by rewrite Hrow.
    + specialize (Hfresh db Hrow).
      destruct (insert_projection _ _ db) as [d1 []|]; [|discriminate].
      destruct Hfresh as [Hp He]. intros Hrun.
      apply Htail in Hrun; [|by rewrite Hp, lookup_insert_eq].
      destruct Hrun as (-> & -> & (sn & -> & Hproj) & Hev).
      rewrite Hproj, Hev, Hp, He, insert_insert_eq. eauto 10.
  - destruct (project_projections db !! p) as [row|] eqn:Hrow.
    + apply Htail. by rewrite Hrow.
    + specialize (Hfresh db Hrow).
      destruct (insert_projection _ _ db) as [d1 []|]; [|discriminate].
      destruct Hfresh as [Hp He]. intros Hrun.
      apply Htail in Hrun; [|by rewrite Hp, lookup_insert_eq].
      destruct Hrun as (-> & -> & (sn & -> & Hproj) & Hev).
      rewrite Hproj, Hev, Hp, He, insert_insert_eq. eauto 10.
Qed.

Lemma apply_project_event_inr vc now p a t payload db db' s snap :
  apply_project_event vc now p a t payload db = (db', inr (s, snap)) →
  apply_project_event_body vc now p a t payload db = Done db' (s, snap).
Proof.
  unfold apply_project_event, transaction.
  destruct (apply_project_event_body _ _ _ _ _ _ _) as [d [s' snap']|d e]; [|discriminate].
  by intros [= <- <- <-].
Qed.

Lemma apply_project_event_inl vc now p a t payload db db' e :
  apply_project_event vc now p a t payload db = (db', inl e) → db' = db.
Proof.
  unfold apply_project_event, transaction.
  destruct (apply_project_event_body _ _ _ _ _ _ _); [discriminate|].
  by intros [= <- _].
Qed.

(** With the name read as the column, a rename of an existing project by an
    existing user goes through when the next sequence number is free. *)
Lemma apply_project_event_body_succeeds now p a payload db name :
  jsonb_get_text payload "name" = Some name →
  is_Some (projects db !! p) →
  a ∈ auth_users db →
  0 ≤ head_of db p < BIGINT_MAX →
  seq_taken p (head_of db p + 1) (project_events db) = false →
  ∃ db',
    apply_project_event_body UseColumn now p a "project.rename" payload db
    = Done db' (head_of db p + 1,
                Some (<["name" := BStr name]>
                        (match project_projections db !! p with
                         | Some r => snapshot r
                         | None => ∅
                         end))).
Proof.
  intros Hname Hproj Ha Hrange Hfree.
  unfold apply_project_event_body, mbind, stmt_bind, bind.
  rewrite resolve_snapshot. unfold read, mret, stmt_ret, ret.
  unfold head_of in *.
  destruct (project_projections db !! p) as [row|] eqn:Hrow.
  - unfold bigint_add.
    replace ((head_seq row + 1 <=? BIGINT_MAX) && (- BIGINT_MAX - 1 <=? head_seq row + 1))
      with true by (symmetry; apply andb_true_iff; unfold BIGINT_MAX in *; lia).
    unfold ret. simpl. unfold insert_event. simpl.
    rewrite Hfree, !bool_decide_eq_true_2 by done. simpl.
    rewrite Hname. simpl. unfold write. eauto.
  - unfold insert_projection. rewrite Hrow.
    rewrite bool_decide_eq_false_2 by (intros [? ?]; discriminate).
    rewrite bool_decide_eq_true_2 by done.
    unfold bigint_add. simpl. unfold insert_event. simpl.
    rewrite Hfree, !bool_decide_eq_true_2 by done. simpl.
    rewrite Hname. simpl. unfold write. eauto.
Qed.

Lemma nearest_double_safe n : 0 ≤ n ≤ MAX_SAFE_INTEGER → nearest_double n = n.
Proof.
  intros Hn. unfold nearest_double, MAX_SAFE_INTEGER in *.
  rewrite Z.abs_eq by lia.
  destruct (Z.leb_spec n (2 ^ 53)); [reflexivity | lia].
Qed.

Lemma log_matches_step d d' p s :
  log_matches_projection d p →
  s = head_of d p + 1 →
  head_of d' p = s →
  seqs_of p (project_events d') = seqs_of p (project_events d) ++ [s] →
  log_matches_projection d' p.
Proof.
  intros [Hpos Hlog] -> Hhead Hseqs. split; [lia|].
  rewrite Hseqs, Hlog, Hhead.
  rewrite (seqZ_app 1 (head_of d p) 1) by lia.
  f_equal. unfold seqZ. simpl. f_equal. lia.
Qed.

End ProjectEventsFacts.

(** ** The rate limiter touches nothing but its table *)
Section RateLimitFrame.
Import Js Sql Runtime.

Lemma check_rate_limit_frame now key win mx db db' res :
  RateLimitSql.check_rate_limit now key win mx db = (db', res) →
  ∃ t, db' = with_rate_limits (λ _, t) db.
Proof.
  unfold RateLimitSql.check_rate_limit, transaction, RateLimitSql.check_rate_limit_body.
  unfold mbind, stmt_bind, bind, RateLimitSql.window_start_at.
  destruct (win =? 0).
  { unfold raise. intros [= <- <-]. exists (rate_limits db). by destruct db. }
  unfold ret, read.
  destruct (RateLimitSql.select_count _ _ _) as [c|].
  - destruct (mx <=? c).
    + unfold mret, stmt_ret, ret. intros [= <- <-]. exists (rate_limits db). by destruct db.
    + unfold RateLimitSql.increment_count, mbind, stmt_bind, bind, integer_add.
      destruct (is_integer (c + 1)); unfold ret, raise, write, mret, stmt_ret, ret.
      * intros [= <- <-]. eexists. reflexivity.
      * intros [= <- <-]. exists (rate_limits db). by destruct db.
  - unfold RateLimitSql.upsert_window, write, mret, stmt_ret, ret.
    intros [= <- <-]. eexists. reflexivity.
Qed.

Lemma checkRateLimit_frame f now u w w1 rl :
  RateLimit.checkRateLimit f now u w = (w1, rl) →
  sessions w1 = sessions w ∧ ∃ t, db w1 = with_rate_limits (λ _, t) (db w).
Proof.
  unfold RateLimit.checkRateLimit.
  destruct (rate_limit_rpc_down f).
  { intros [= <- <-]. split; [done|]. exists (rate_limits (db w)). simpl. by destruct (db w). }
  destruct (RateLimitSql.check_rate_limit _ _ _ _ _) as [db' [e|[|]]] eqn:Hc.
  - intros [= <- <-]. split; [done|]. exists (rate_limits (db w)). simpl. by destruct (db w).
  - intros [= <- <-]. split; [done|]. simpl. eapply check_rate_limit_frame, Hc.
  - intros [= <- <-]. split; [done|]. simpl. eapply check_rate_limit_frame, Hc.
Qed.

End RateLimitFrame.

(** ** The commit endpoint *)
Section MutateFacts.
Import Js Sql Runtime ProjectEvents Mutate.
Context `{Platform}.

Lemma serve_effect f now req w w' resp :
  serve f now req w = (w', resp) → commit_effect now (db w) (db w') resp.
Proof.
  unfold serve.
  destruct (String.eqb (method req) "OPTIONS"); [by intros [= <- <-]|].
  destruct (negb (String.eqb (method req) "POST")); [by intros [= <- <-]|].
  destruct (Auth.verifyAuth w req) as [userId authError].
  destruct (bool_decide (is_Some authError) || String.eqb userId ""); [by intros [= <- <-]|].
  destruct (RateLimit.checkRateLimit f now userId w) as [w1 rl] eqn:Hrl.
  apply checkRateLimit_frame in Hrl as [_ [t Hdb]].
  assert (Hp : project_projections (db w1) = project_projections (db w)) by (by rewrite Hdb).
  assert (He : project_events (db w1) = project_events (db w)) by (by rewrite Hdb).
  assert (Hh : ∀ p, head_of (db w1) p = head_of (db w) p)
    by (intros p; unfold head_of; by rewrite Hp).
  destruct (negb (RateLimit.allowed rl)); [by intros [= <- <-]|].
  destruct (body req) as [json|]; [|by intros [= <- <-]].
  destruct (RequestSchema json) as [r|]; [|by intros [= <- <-]].
  cbv zeta.
  destruct (negb _ && negb _); [by intros [= <- <-]|].
  destruct (bool_decide _ && negb _); [by intros [= <- <-]|].
  destruct (baseSeq r) as [expected|].
  - destruct (projection_select_down f); [by intros [= <- <-]|].
    destruct (bool_decide _); [by intros [= <- <-]|].
    destruct (apply_rpc_down f); [by intros [= <- <-]|].
    destruct (apply_project_event _ _ _ _ _ _ _) as [db' [e|[s snap]]] eqn:Hap.
    + by intros [= <- <-].
    + intros [= <- <-]. simpl.
      apply apply_project_event_inr, apply_project_event_body_done in Hap
        as (-> & Ht & (sn & -> & Hproj) & Hev).
      rewrite Hh. split; [done|].
      exists sn. eexists _, _, _. rewrite Hproj, Hev, Hp, He, !Hh.
      split; [reflexivity|]. split; reflexivity.
  - destruct (apply_rpc_down f); [by intros [= <- <-]|].
    destruct (apply_project_event _ _ _ _ _ _ _) as [db' [e|[s snap]]] eqn:Hap.
    + by intros [= <- <-].
    + intros [= <- <-]. simpl.
      apply apply_project_event_inr, apply_project_event_body_done in Hap
        as (-> & Ht & (sn & -> & Hproj) & Hev).
      rewrite Hh. split; [done|].
      exists sn. eexists _, _, _. rewrite Hproj, Hev, Hp, He, !Hh.
      split; [reflexivity|]. split; reflexivity.
Qed.

Lemma commit_effect_project now d d' resp p :
  commit_effect now d d' resp →
  match committed_seqs p [resp] with
  | [] => head_of d' p = head_of d p
          ∧ seqs_of p (project_events d') = seqs_of p (project_events d)
  | s :: _ => committed_seqs p [resp] = [s]
              ∧ s = head_of d p + 1
              ∧ head_of d' p = s
              ∧ seqs_of p (project_events d') = seqs_of p (project_events d) ++ [s]
  end.
Proof.
  unfold commit_effect, committed_seqs, head_of.
  destruct resp as [| | | | | | | | |p' [s snap] k|]; simpl;
    try (by intros [-> ->]).
  intros (-> & sn & a & t & payload & -> & -> & ->).
  rewrite seqs_of_app. simpl.
  destruct (decide (p' = p)) as [->|Hne].
  - rewrite !bool_decide_eq_true_2 by done. simpl.
    rewrite lookup_insert_eq. done.
  - rewrite !bool_decide_eq_false_2 by done. simpl.
    rewrite lookup_insert_ne by done. by rewrite app_nil_r.
Qed.

Lemma committed_seqs_cons p r rs :
  committed_seqs p (r :: rs) = committed_seqs p [r] ++ committed_seqs p rs.
Proof. unfold committed_seqs. simpl. by destruct (match r with Committed _ _ _ => _ | _ => _ end). Qed.

Lemma run_committed_seqs calls : ∀ w w' rs p,
  run calls w = (w', rs) →
  committed_seqs p rs
    = seqZ (head_of (db w) p + 1) (Z.of_nat (length (committed_seqs p rs)))
  ∧ head_of (db w') p = head_of (db w) p + Z.of_nat (length (committed_seqs p rs))
  ∧ seqs_of p (project_events (db w'))
    = seqs_of p (project_events (db w)) ++ committed_seqs p rs.
Proof.
  induction calls as [|c calls IH]; intros w w' rs p; simpl.
  - intros [= <- <-]. simpl. rewrite app_nil_r. split; [done|]. split; [lia | done].
  - destruct (serve _ _ _ w) as [w1 r] eqn:Hserve.
    destruct (run calls w1) as [w2 rs'] eqn:Hrun.
    intros [= <- <-].
    apply serve_effect, (commit_effect_project _ _ _ _ p) in Hserve.
    destruct (IH _ _ _ p Hrun) as (Hseqs & Hhead & Hlog).
    rewrite committed_seqs_cons.
    destruct (committed_seqs p [r]) as [|s l].
    + destruct Hserve as [Hh Hs]. simpl. rewrite <- Hh, <- Hs. done.
    + destruct Hserve as ([= ->] & Hs & Hh & Hl). simpl.
      rewrite Hhead, Hh, Hlog, Hl, <- app_assoc. simpl.
      split; [|split; [lia | done]].
      rewrite (seqZ_cons (head_of (db w) p + 1)) by lia.
      rewrite Hs at 1. f_equal.
      etrans; [exact Hseqs|]. rewrite Hh, Hs. f_equal; lia.
Qed.

Lemma run_preserves_log calls w w' rs p :
  run calls w = (w', rs) →
  log_matches_projection (db w) p → log_matches_projection (db w') p.
Proof.
  intros Hrun [Hpos Hlog].
  destruct (run_committed_seqs calls w w' rs p Hrun) as (Hseqs & Hhead & Hl).
  split; [lia|].
  rewrite Hl, Hlog, Hhead, Hseqs at 1.
  rewrite seqZ_app by lia. f_equal. f_equal. lia.
Qed.


(** Past authentication, rate limiting and validation, with the backend up,
    the handler is at the membership check. *)
Lemma serve_admitted now req w userId r w1 :
  admitted no_faults now req w userId r w1 →
  may_edit (db w1) userId (projectId r) →
  serve no_faults now req w =
    let currentSeq := nearest_double (head_of (db w1) (projectId r)) in
    match baseSeq r with
    | Some expected =>
        if bool_decide (currentSeq ≠ expected) then (w1, Conflict expected currentSeq)
        else
          match apply_project_event plpgsql_variable_conflict now (projectId r) userId
                  (type (proposal_of r))
                  {[ "name" := BStr (payload_name (proposal_of r)) ]} (db w1) with
          | (_, inl e) => (console_error "Failed to apply event:" w1, ApplyFailed (Some e))
          | (db', inr applied) =>
              (with_db db' w1,
               Committed (projectId r) applied (key_or_undefined (idempotencyKey r)))
          end
    | None =>
        match apply_project_event plpgsql_variable_conflict now (projectId r) userId
                (type (proposal_of r))
                {[ "name" := BStr (payload_name (proposal_of r)) ]} (db w1) with
        | (_, inl e) => (console_error "Failed to apply event:" w1, ApplyFailed (Some e))
        | (db', inr applied) =>
            (with_db db' w1,
             Committed (projectId r) applied (key_or_undefined (idempotencyKey r)))
        end
    end.
Proof.
  intros (Hm & Hauth & Hne & (rl & Hrl & Hall) & json & Hbody & Hparse) Hedit.
  unfold serve.
  replace (String.eqb (method req) "OPTIONS") with false by (by rewrite Hm).
  replace (negb (String.eqb (method req) "POST")) with false by (by rewrite Hm).
  rewrite Hauth.
  replace (bool_decide (is_Some None) || String.eqb userId "") with false
    by (symmetry; apply orb_false_iff; split;
        [apply bool_decide_eq_false_2; intros [? ?]; discriminate
        | by apply String.eqb_neq]).
  rewrite Hrl, Hall, Hbody, Hparse. cbv zeta.
  change (members_select_down no_faults) with false.
  change (projects_select_down no_faults) with false.
  change (projection_select_down no_faults) with false.
  change (apply_rpc_down no_faults) with false.
  cbv iota. unfold head_of.
  destruct Hedit as [(row & Hrow & Hown)|Hmem].
  - rewrite Hrow, Hown, String.eqb_refl. simpl.
    rewrite andb_false_r.
    destruct (baseSeq r) as [b|]; [|reflexivity].
    destruct (project_projections (db w1) !! projectId r); by destruct (bool_decide _).
  - rewrite Hmem. simpl. rewrite andb_false_r. simpl.
    destruct (baseSeq r) as [b|]; [|reflexivity].
    destruct (project_projections (db w1) !! projectId r); by destruct (bool_decide _).
Qed.

(** A request that passed validation carries a rename. *)
Lemma admitted_proposal_type f now req w userId r w1 :
  admitted f now req w userId r w1 → type (proposal_of r) = "project.rename".
Proof.
  intros (_ & _ & _ & _ & json & _ & Hparse).
  unfold RequestSchema in Hparse.
  destruct json; try discriminate.
  destruct (prop _ "projectId"); try discriminate.
  destruct (zod_uuid _); [|discriminate].
  destruct (baseSeqSchema _); [|discriminate]. simpl in Hparse.
  destruct (ProposalSchema _) as [pr|] eqn:Hpr; [|discriminate].
  simpl in Hparse. destruct (optionalStringSchema _); [|discriminate].
  injection Hparse as <-. simpl.
  unfold ProposalSchema in Hpr.
  repeat (match type of Hpr with
          | match ?x with _ => _ end = _ => destruct x eqn:?; try discriminate
          end).
  injection Hpr as <-. simpl.
  match goal with
  | Hc : (_ && _ && _) = true |- _ =>
      apply andb_true_iff in Hc as [Hc _]; apply andb_true_iff in Hc as [Hc _];
      by apply String.eqb_eq in Hc
  end.
Qed.

(** The concurrency check of the handler, for an editor of a project at
    [head_seq = n]: a [base_seq] other than [n] is answered [Conflict]
    reporting [n]; with [base_seq = n] or none the handler calls
    [apply_project_event] and answers by its result. *)
Lemma serve_concurrency_check now req w userId r w1 n :
  admitted no_faults now req w userId r w1 →
  may_edit (db w1) userId (projectId r) →
  head_of (db w1) (projectId r) = n →
  0 ≤ n ≤ MAX_SAFE_INTEGER →
  (∀ b, baseSeq r = Some b → b ≠ n →
        serve no_faults now req w = (w1, Conflict b n))
  ∧ (baseSeq r = Some n ∨ baseSeq r = None →
     serve no_faults now req w =
       match apply_project_event plpgsql_variable_conflict now (projectId r) userId
               "project.rename"
               {[ "name" := BStr (payload_name (proposal_of r)) ]} (db w1) with
       | (_, inl e) => (console_error "Failed to apply event:" w1, ApplyFailed (Some e))
       | (db', inr applied) =>
           (with_db db' w1,
            Committed (projectId r) applied (key_or_undefined (idempotencyKey r)))
       end).
Proof.
  intros Hadm Hedit Hhead Hn.
  pose proof (serve_admitted now req w userId r w1 Hadm Hedit) as Hserve.
  cbv zeta in Hserve.
  rewrite Hhead, (nearest_double_safe n), (admitted_proposal_type _ _ _ _ _ _ _ Hadm)
    in Hserve by lia.
  split.
  - intros b Hb Hne. rewrite Hserve, Hb.
    by rewrite bool_decide_eq_true_2 by congruence.
  - intros [Hb|Hb]; rewrite Hserve, Hb; [|reflexivity].
    by rewrite bool_decide_eq_false_2 by (intros Hc; by apply Hc).
Qed.

(** The commit protocol.  In a database that reads the name [snapshot] of
    [apply_project_event] as the column ([plpgsql.variable_conflict =
    use_column]), take a request that passes authentication, rate limiting
    and validation, sent by an owner or editor of an existing project whose
    projection is at [head_seq = n], with the log numbered [1..n], the backend
    up and [n] a safe integer.  If it carries [base_seq = b] with [b ≠ n] it
    is answered [Conflict] (409) reporting [current = n], and nothing is
    committed.  If it carries [base_seq = n], or none, it succeeds: one event
    is appended with [seq = n + 1], the projection moves to [n + 1] and the
    log is numbered [1..n + 1].  And whatever the setting, the world and the
    backend failures, over any sequence of requests the sequence numbers
    that [apply_project_event] returns to the successful commits against one
    project are consecutive from [head_seq + 1] on; they are the sequence
    numbers of the events appended to the log of the project, [head_seq]
    moves up by their number, and a log numbered without gap or duplicate
    stays so. *)
Theorem commit_optimistic_concurrency
    (now : timestamptz) (req : request) (w w1 : world) (userId : string)
    (r : mutate_request) (n : Z) :
  (plpgsql_variable_conflict = UseColumn →
   admitted no_faults now req w userId r w1 →
   may_edit (db w1) userId (projectId r) →
   is_Some (projects (db w1) !! projectId r) →
   userId ∈ auth_users (db w1) →
   log_matches_projection (db w1) (projectId r) →
   head_of (db w1) (projectId r) = n →
   n ≤ MAX_SAFE_INTEGER →
   (∀ b, baseSeq r = Some b → b ≠ n →
         serve no_faults now req w = (w1, Conflict b n)
         ∧ status (Conflict b n) = 409)
   ∧ (baseSeq r = Some n ∨ baseSeq r = None →
      ∃ w2 snap e,
        serve no_faults now req w
        = (w2, Committed (projectId r) (n + 1, Some snap)
                         (key_or_undefined (idempotencyKey r)))
        ∧ project_events (db w2) = project_events (db w1) ++ [e]
        ∧ ev_project_id e = projectId r
        ∧ ev_seq e = n + 1
        ∧ head_of (db w2) (projectId r) = n + 1
        ∧ log_matches_projection (db w2) (projectId r)))
  ∧ (∀ calls w0 w' rs p,
       run calls w0 = (w', rs) →
       committed_seqs p rs
       = seqZ (head_of (db w0) p + 1) (Z.of_nat (length (committed_seqs p rs)))
       ∧ seqs_of p (project_events (db w'))
         = seqs_of p (project_events (db w0)) ++ committed_seqs p rs
       ∧ head_of (db w') p
         = head_of (db w0) p + Z.of_nat (length (committed_seqs p rs))
       ∧ (log_matches_projection (db w0) p → log_matches_projection (db w') p)).
Proof.
  split.
  - intros Hvc Hadm Hedit Hproj Hactor Hlog Hhead Hsafe.
    assert (Hn : 0 ≤ n) by (destruct Hlog as [? _]; lia).
    destruct (serve_concurrency_check now req w userId r w1 n Hadm Hedit Hhead)
      as [Hconflict Hcall]; [lia|].
    split.
    + intros b Hb Hne. split; [by apply Hconflict | reflexivity].
    + intros Hb. rewrite (Hcall Hb), Hvc.
      destruct (apply_project_event_body_succeeds now (projectId r) userId
                  {[ "name" := BStr (payload_name (proposal_of r)) ]} (db w1)
                  (payload_name (proposal_of r))) as [db' Hbody].
      * unfold jsonb_get_text. by rewrite lookup_singleton_eq.
      * exact Hproj.
      * exact Hactor.
      * rewrite Hhead. unfold BIGINT_MAX, MAX_SAFE_INTEGER in *. lia.
      * by apply next_seq_free.
      * rewrite Hhead in Hbody.
        pose proof (apply_project_event_body_done _ _ _ _ _ _ _ _ _ _ Hbody)
          as (_ & _ & (sn & [= <-] & Hprojs) & Hev).
        unfold apply_project_event, transaction. rewrite Hbody.
        eexists _, _, _. split; [reflexivity|]. simpl.
        assert (Hh2 : head_of db' (projectId r) = n + 1)
          by (unfold head_of; by rewrite Hprojs, lookup_insert_eq).
        split; [exact Hev|]. split; [reflexivity|]. split; [reflexivity|].
        split; [exact Hh2|].
        apply (log_matches_step (db w1) _ _ (n + 1));
          [exact Hlog | by rewrite Hhead | exact Hh2 |].
        rewrite Hev, seqs_of_app. simpl. by rewrite bool_decide_eq_true_2.
  - intros calls w0 w' rs p Hrun.
    destruct (run_committed_seqs calls w0 w' rs p Hrun) as (Hseqs & Hhead & Hl).
    split_and!; [exact Hseqs | exact Hl | exact Hhead |].
    apply (run_preserves_log calls w0 w' rs p Hrun).
Qed.

(** C1 holds of the concurrency check and fails at the commit.  In a
    database with PostgreSQL's default [plpgsql.variable_conflict = error],
    for a request that passes authentication, rate limiting and validation,
    sent by an owner or editor of a project at [head_seq = n]: a [base_seq]
    other than [n] is answered [Conflict] (409) reporting [current = n], as
    the claim says; with [base_seq = n], or none, the commit does not
    succeed: [apply_project_event] is rejected at its first [SELECT],
    where [snapshot] names both the column of [project_projections] and the
    output column of [RETURNS TABLE], the handler answers 500, and the log and
    the projections stay as they were. *)
Theorem commit_rejected_as_ambiguous
    (now : timestamptz) (req : request) (w w1 : world) (userId : string)
    (r : mutate_request) (n : Z) :
  plpgsql_variable_conflict = ConflictError →
  admitted no_faults now req w userId r w1 →
  may_edit (db w1) userId (projectId r) →
  head_of (db w1) (projectId r) = n →
  0 ≤ n ≤ MAX_SAFE_INTEGER →
  (∀ b, baseSeq r = Some b → b ≠ n →
        serve no_faults now req w = (w1, Conflict b n)
        ∧ status (Conflict b n) = 409)
  ∧ (baseSeq r = Some n ∨ baseSeq r = None →
     ∃ w2,
       serve no_faults now req w
       = (w2, ApplyFailed (Some (AmbiguousColumn "snapshot")))
       ∧ status (ApplyFailed (Some (AmbiguousColumn "snapshot"))) = 500
       ∧ project_events (db w2) = project_events (db w1)
       ∧ project_projections (db w2) = project_projections (db w1)
       ∧ head_of (db w2) (projectId r) = n).
Proof.
  intros Hvc Hadm Hedit Hhead Hn.
  destruct (serve_concurrency_check now req w userId r w1 n Hadm Hedit Hhead Hn)
    as [Hconflict Hcall].
  split.
  - intros b Hb Hne. split; [by apply Hconflict | reflexivity].
  - intros Hb. rewrite (Hcall Hb), Hvc, apply_project_event_ambiguous.
    eexists. split; [reflexivity|]. by rewrite <- Hhead.
Qed.

End MutateFacts.

Section MutateExamples.
Import Js Sql Runtime ProjectEvents Mutate Examples.
#[local] Existing Instance Reference.platform_use_column.

(** Five renames committed in a row from the empty log take the aggregate
    to [head_seq = 5]. *)
Example five_commits_reach_head_5 :
  committed_seqs project_A (snd (run five_commits w0)) = [1; 2; 3; 4; 5]
  ∧ project_events (db (fst (run five_commits w0))) = project_events db5
  ∧ project_projections (db (fst (run five_commits w0))) = project_projections db5.
Proof. split_and!; vm_compute; reflexivity. Qed.

(** The example of the specification: with the aggregate at [head_seq = 5],
    a commit submitted with [base_seq = 5] succeeds and advances to 6. *)
Lemma commit_optimistic_concurrency_witness :
  ∃ w2 snap e,
    serve no_faults (t0 + 5000000) (commit_request (Some 5) "Six") w5
    = (w2, Committed project_A (6, Some snap) None)
    ∧ project_events (db w2)
      = project_events
          (db (fst (RateLimit.checkRateLimit no_faults (t0 + 5000000) alice w5))) ++ [e]
    ∧ ev_project_id e = project_A
    ∧ ev_seq e = 6
    ∧ head_of (db w2) project_A = 6
    ∧ log_matches_projection (db w2) project_A.
Proof.
  refine (proj2 (proj1 (commit_optimistic_concurrency (t0 + 5000000)
                   (commit_request (Some 5) "Six") w5
                   (fst (RateLimit.checkRateLimit no_faults (t0 + 5000000) alice w5))
                   alice
                   {| projectId := project_A;
                      baseSeq := Some 5;
                      proposal_of := {| type := "project.rename"; payload_name := "Six" |};
                      idempotencyKey := None |}
                   5) eq_refl _ _ _ _ _ _ _) (or_introl eq_refl)).
  - split_and!.
    + reflexivity.
    + vm_compute. reflexivity.
    + discriminate.
    + eexists. split; [apply surjective_pairing | vm_compute; reflexivity].
    + exists (default JNull (body (commit_request (Some 5) "Six"))).
      split; vm_compute; reflexivity.
  - left. exists {| owner_id := alice |}. split; vm_compute; reflexivity.
  - exists {| owner_id := alice |}. vm_compute. reflexivity.
  - vm_compute. reflexivity.
  - split; vm_compute; [discriminate | reflexivity].
  - vm_compute. reflexivity.
  - vm_compute. discriminate.
Defined.

(** With [base_seq = 4] the commit fails [Conflict] and reports
    [current = 5]; with [base_seq = 5], and with none, it succeeds and
    advances the aggregate to 6. *)
Example commit_at_head_advances_to_6 :
  snd (serve no_faults (t0 + 5000000) (commit_request (Some 4) "Six") w5) = Conflict 4 5
  ∧ snd (serve no_faults (t0 + 5000000) (commit_request (Some 5) "Six") w5)
    = Committed project_A (6, Some {[ "name" := BStr "Six" ]}) None
  ∧ head_of (db (fst (serve no_faults (t0 + 5000000) (commit_request (Some 5) "Six") w5)))
            project_A = 6
  ∧ snd (serve no_faults (t0 + 5000000) (commit_request None "Six") w5)
    = Committed project_A (6, Some {[ "name" := BStr "Six" ]}) None
  ∧ head_of (db (fst (serve no_faults (t0 + 5000000) (commit_request None "Six") w5)))
            project_A = 6.
Proof. split_and!; vm_compute; reflexivity. Qed.

End MutateExamples.

Section MutateDefaultExamples.
Import Js Sql Runtime ProjectEvents Mutate Examples.
#[local] Existing Instance Reference.platform.

(** With the aggregate at [head_seq = 5], a commit submitted with
    [base_seq = 5] is answered 500 and the aggregate stays at 5. *)
Lemma commit_rejected_as_ambiguous_witness :
  ∃ w2,
    serve no_faults (t0 + 5000000) (commit_request (Some 5) "Six") w5
    = (w2, ApplyFailed (Some (AmbiguousColumn "snapshot")))
    ∧ status (ApplyFailed (Some (AmbiguousColumn "snapshot"))) = 500
    ∧ project_events (db w2)
      = project_events
          (db (fst (RateLimit.checkRateLimit no_faults (t0 + 5000000) alice w5)))
    ∧ project_projections (db w2)
      = project_projections
          (db (fst (RateLimit.checkRateLimit no_faults (t0 + 5000000) alice w5)))
    ∧ head_of (db w2) project_A = 5.
Proof.
  refine (proj2 (commit_rejected_as_ambiguous (t0 + 5000000)
                   (commit_request (Some 5) "Six") w5
                   (fst (RateLimit.checkRateLimit no_faults (t0 + 5000000) alice w5))
                   alice
                   {| projectId := project_A;
                      baseSeq := Some 5;
                      proposal_of := {| type := "project.rename"; payload_name := "Six" |};
                      idempotencyKey := None |}
                   5 eq_refl _ _ _ _) (or_introl eq_refl)).
  - split_and!.
    + reflexivity.
    + vm_compute. reflexivity.
    + discriminate.
    + eexists. split; [apply surjective_pairing | vm_compute; reflexivity].
    + exists (default JNull (body (commit_request (Some 5) "Six"))).
      split; vm_compute; reflexivity.
  - left. exists {| owner_id := alice |}. split; vm_compute; reflexivity.
  - vm_compute. reflexivity.
  - split; vm_compute; discriminate.
Defined.

(** The three requests of the specification's example, and the first commit
    to a new project: the conflict is reported, no commit goes through. *)
Example commit_at_head_is_answered_500 :
  snd (serve no_faults (t0 + 5000000) (commit_request (Some 4) "Six") w5) = Conflict 4 5
  ∧ snd (serve no_faults (t0 + 5000000) (commit_request (Some 5) "Six") w5)
    = ApplyFailed (Some (AmbiguousColumn "snapshot"))
  ∧ snd (serve no_faults (t0 + 5000000) (commit_request None "Six") w5)
    = ApplyFailed (Some (AmbiguousColumn "snapshot"))
  ∧ head_of (db (fst (serve no_faults (t0 + 5000000) (commit_request None "Six") w5)))
            project_A = 5
  ∧ snd (serve no_faults t0 (commit_request None "One") w0)
    = ApplyFailed (Some (AmbiguousColumn "snapshot"))
  ∧ project_events (db (fst (serve no_faults t0 (commit_request None "One") w0))) = [].
Proof. split_and!; vm_compute; reflexivity. Qed.

End MutateDefaultExamples.

Section UnknownEventType.
Import Js Reducer Sql ProjectEvents.

(** The first guard of [applyEvent]: an event that is not an object. *)
Lemma applyEvent_not_an_object snapshot event :
  (∀ o, event ≠ JObj o) →
  applyEvent snapshot event = Throw (Error "Invalid event: must be an object").
Proof.
  intros Hno. unfold applyEvent.
  destruct event as [| |b|x|str|o]; try reflexivity.
  - by destruct b.
  - cbn [typeof]. by rewrite orb_true_r.
  - cbn [typeof]. by rewrite orb_true_r.
  - by destruct (Hno o).
Qed.

(** The second guard: an object whose [type] is empty or not a string. *)
Lemma applyEvent_no_type_string snapshot o :
  prop (JObj o) "type" = JStr "" ∨ (∀ s, prop (JObj o) "type" ≠ JStr s) →
  applyEvent snapshot (JObj o) = Throw (Error "Invalid event: must have a type string").
Proof.
  intros Hty. unfold applyEvent. cbn [truthy typeof negb orb].
  rewrite bool_decide_eq_true_2 by reflexivity. cbn [negb].
  destruct Hty as [->|Hns]; [reflexivity|].
  destruct (prop (JObj o) "type") as [| |b|x|str|o'] eqn:Ht; try reflexivity.
  - by destruct b.
  - cbn [typeof]. by rewrite orb_true_r.
  - by destruct (Hns str).
Qed.

(** What [apply_project_event] raises for a type outside the vocabulary
    when it gets as far as the [CASE]. *)
Lemma apply_project_event_body_at_the_case vc now p a t payload db :
  t ≠ "project.rename" →
  vc ≠ ConflictError →
  reaches_the_case db p →
  ∃ db', apply_project_event_body vc now p a t payload db
         = Raised db' (RaiseException ("Unknown event type: " +:+ t)).
Proof.
  intros Ht Hvc Hreach.
  apply String.eqb_neq in Ht.
  unfold apply_project_event_body, mbind, stmt_bind, bind.
  rewrite resolve_snapshot, Ht.
  unfold reaches_the_case in Hreach.
  assert (Hadd : ∀ h d, - BIGINT_MAX - 1 ≤ h + 1 ≤ BIGINT_MAX →
                        bigint_add h 1 d = Done d (h + 1)).
  { intros h d Hh. unfold bigint_add.
    replace ((h + 1 <=? BIGINT_MAX) && _) with true; [reflexivity|].
    symmetry. apply andb_true_iff. split; apply Z.leb_le; lia. }
  destruct vc; [done|..]; unfold ret, read, raise;
    (destruct (project_projections db !! p) as [row|] eqn:Hrow;
     [ rewrite (Hadd _ _ Hreach); eauto
     | unfold insert_projection; rewrite Hrow;
       rewrite bool_decide_eq_false_2 by (by intros [? ?]);
       rewrite bool_decide_eq_true_2 by exact Hreach;
       rewrite Hadd by (unfold BIGINT_MAX; lia); eauto ]).
Qed.

(** C6 (as amended).  An event whose type is not the rename tag is never
    applied: [applyEvent] throws.  When the type is a non-empty string the
    exception is the unknown-event-type error naming it; when the event is
    an object whose type is the empty string or not a string it is ['Invalid
    event: must have a type string']; when the event is not an object it is
    ['Invalid event: must be an object'].  On the database side,
    [apply_project_event] with a type outside the vocabulary aborts its
    transaction, whatever the [plpgsql.variable_conflict] setting: an error
    comes back and the database is the one it started from, so no event row
    is inserted and no projection changes; and when the call gets as far as
    the [CASE] (the first [SELECT] is accepted, and the project has a
    projection whose [head_seq] can be incremented or exists without one)
    the error is the exception ['Unknown event type: '] followed by the
    type. *)
Theorem unknown_event_type_rejected
    (snapshot : ProjectSnapshot) (event : jsval)
    (vc : variable_conflict) (now : timestamptz) (db : database) (p a : uuid)
    (t : string) (payload : jsonb_object) :
  prop event "type" ≠ JStr "project.rename" →
  t ∉ VALID_EVENT_TYPES →
  (∃ e, applyEvent snapshot event = Throw e
        ∧ (∀ s, prop event "type" = JStr s → s ≠ "" →
                e = Error ("Unknown event type: " +:+ s) ∧ UnknownEventType e)
        ∧ (∀ o, event = JObj o →
                prop event "type" = JStr "" ∨ (∀ s, prop event "type" ≠ JStr s) →
                e = Error "Invalid event: must have a type string")
        ∧ ((∀ o, event ≠ JObj o) → e = Error "Invalid event: must be an object"))
  ∧ (∃ e, apply_project_event vc now p a t payload db = (db, inl e)
          ∧ (vc ≠ ConflictError → reaches_the_case db p →
             e = RaiseException ("Unknown event type: " +:+ t))).
Proof.
  intros Hne Ht. split.
  - destruct (applyEvent_other_type_throws snapshot event Hne) as [e He].
    exists e. split; [exact He|]. split_and!.
    + intros s Hs Hs0.
      rewrite (applyEvent_unknown_type snapshot event s Hs Hs0) in He by congruence.
      injection He as <-. split; [reflexivity | exists s; reflexivity].
    + intros o -> Hty. rewrite (applyEvent_no_type_string snapshot o Hty) in He.
      by injection He as <-.
    + intros Hno. rewrite (applyEvent_not_an_object snapshot event Hno) in He.
      by injection He as <-.
  - apply not_valid_event_type in Ht.
    destruct (apply_project_event_body_unknown_type vc now p a t payload db Ht)
      as (db' & e & Hbody).
    exists e. split.
    + unfold apply_project_event, transaction. by rewrite Hbody.
    + intros Hvc Hreach.
      destruct (apply_project_event_body_at_the_case vc now p a t payload db
                  Ht Hvc Hreach) as [db'' Hcase].
      rewrite Hcase in Hbody. by injection Hbody as _ <-.
Qed.

(** The spec's example, [{ type: 'bogus' }], and a commit of the type
    ['bogus'] to the project of the example in a database that accepts the
    first [SELECT]. *)
Lemma unknown_event_type_rejected_witness :
  applyEvent ∅ (event_of (JStr "bogus") (JObj ∅))
  = Throw (Error "Unknown event type: bogus")
  ∧ apply_project_event UseColumn Examples.t0 Examples.project_A Examples.alice
                        "bogus" ∅ Examples.db0
    = (Examples.db0, inl (RaiseException "Unknown event type: bogus")).
Proof.
  destruct (unknown_event_type_rejected ∅ (event_of (JStr "bogus") (JObj ∅))
              UseColumn Examples.t0 Examples.db0 Examples.project_A Examples.alice
              "bogus" ∅)
    as [(e & He & Hunknown & _) (e' & Hsql & Hcase)].
  - discriminate.
  - apply not_valid_event_type. discriminate.
  - split.
    + rewrite He. f_equal. apply (Hunknown "bogus"); [reflexivity | discriminate].
    + rewrite Hsql. f_equal. f_equal. apply Hcase; [discriminate|].
      exists {| owner_id := Examples.alice |}. vm_compute. reflexivity.
Defined.

(** With [snapshot] read as the output variable, which is [NULL], a rename
    of an aggregate that has a projection computes a [NULL] snapshot and is
    refused by the [NOT NULL] column. *)
Example apply_project_event_use_variable :
  apply_project_event UseVariable (Examples.t0 + 5000000) Examples.project_A Examples.alice
                      "project.rename" {[ "name" := BStr "Six" ]} Examples.db5
  = (Examples.db5, inl (NotNullViolation "snapshot")).
Proof. vm_compute. reflexivity. Qed.

(** The type ['bogus'] where the call does not get as far as the [CASE]:
    under the default setting it is refused at the first [SELECT], and for a
    project that does not exist at the insert of the projection; the
    database stays as it was. *)
Example apply_project_event_bogus :
  apply_project_event ConflictError Examples.t0 Examples.project_A Examples.alice "bogus" ∅
                      Examples.db0
  = (Examples.db0, inl (AmbiguousColumn "snapshot"))
  ∧ apply_project_event UseColumn 0 "p" "a" "bogus" ∅ empty_database
    = (empty_database, inl (ForeignKeyViolation "project_projections_project_id_fkey")).
Proof. split; vm_compute; reflexivity. Qed.

(** The two guards of [applyEvent] on [null] and on an event without a
    type. *)
Example applyEvent_guards :
  applyEvent ∅ JNull = Throw (Error "Invalid event: must be an object")
  ∧ applyEvent ∅ (JObj ∅) = Throw (Error "Invalid event: must have a type string")
  ∧ applyEvent ∅ (event_of (JNum 1) (JObj ∅))
    = Throw (Error "Invalid event: must have a type string").
Proof. split_and!; reflexivity. Qed.

(** C6 as stated fails for the empty type string: it is outside the
    vocabulary, and [applyEvent] refuses it with the invalid-event error of
    the guard, which is not the unknown-event-type error. *)
Lemma unknown_event_type_empty_counterexample :
  ("" ∉ VALID_EVENT_TYPES)
  ∧ applyEvent ∅ (event_of (JStr "") (JObj ∅))
    = Throw (Error "Invalid event: must have a type string")
  ∧ ¬ UnknownEventType (Error "Invalid event: must have a type string").
Proof.
  split; [apply not_valid_event_type; discriminate|].
  split; [reflexivity|].
  intros [t Ht]. discriminate Ht.
Qed.

End UnknownEventType.

(** ** The budget guard *)
Section BudgetFacts.
Import Js Sql Runtime AiUsageSql AiProxy.
Context `{Platform}.

Lemma sum_cost_app l1 l2 : (sum_cost (l1 ++ l2) == sum_cost l1 + sum_cost l2)%Q.
Proof.
  unfold sum_cost. induction l1 as [|r l1 IH]; simpl.
  - ring.
  - rewrite IH. ring.
Qed.

(** A cap is reached by a truthy spend exactly when the spend is at or above
    the (positive) limit. *)
Lemma cap_reached_iff data limit :
  (0 < limit)%Q →
  cost_truthy data && cost_reached data limit = true ↔ ¬ under_cap data limit.
Proof.
  intros Hpos. unfold under_cap. destruct data as [c|]; simpl.
  - rewrite andb_true_iff, negb_true_iff, Qle_bool_iff. split.
    + intros [_ Hle] Hlt. specialize (Hlt c eq_refl). by apply Qle_not_lt in Hle.
    + intros Hnot. destruct (Qlt_le_dec c limit) as [Hlt|Hle].
      * exfalso. apply Hnot. by intros ? [= <-].
      * split; [|exact Hle]. apply not_true_is_false. intros Heq.
        apply Qeq_bool_iff in Heq. rewrite Heq in Hle. by apply Qle_not_lt in Hle.
  - split; [discriminate|]. intros Hnot. exfalso. apply Hnot. intros ? [=].
Qed.

Lemma USER_DAILY_BUDGET_pos : (0 < USER_DAILY_BUDGET)%Q.
Proof. reflexivity. Qed.

Lemma PROJECT_DAILY_BUDGET_pos : (0 < PROJECT_DAILY_BUDGET)%Q.
Proof. reflexivity. Qed.

(** The decision of [checkBudget], case by case. *)
Lemma budget_decision_cases userCost projectId projectCost :
  (¬ under_cap userCost USER_DAILY_BUDGET
   ∧ budget_decision userCost projectId projectCost
     = budget_denied "User daily budget exceeded")
  ∨ (under_cap userCost USER_DAILY_BUDGET
     ∧ (∃ id, projectId = Some id ∧ id ≠ ""
              ∧ ¬ under_cap projectCost PROJECT_DAILY_BUDGET)
     ∧ budget_decision userCost projectId projectCost
       = budget_denied "Project daily budget exceeded")
  ∨ (under_cap userCost USER_DAILY_BUDGET
     ∧ (∀ id, projectId = Some id → id ≠ "" →
              under_cap projectCost PROJECT_DAILY_BUDGET)
     ∧ budget_decision userCost projectId projectCost = budget_allowed).
Proof.
  unfold budget_decision.
  destruct (cost_truthy userCost && cost_reached userCost USER_DAILY_BUDGET) eqn:Hu.
  { left. split; [|reflexivity]. by apply (cap_reached_iff _ _ USER_DAILY_BUDGET_pos). }
  assert (Huc : under_cap userCost USER_DAILY_BUDGET).
  { destruct (cap_reached_iff userCost _ USER_DAILY_BUDGET_pos) as [_ Hback].
    intros c Hc. destruct (Qlt_le_dec c USER_DAILY_BUDGET) as [|Hle]; [done|].
    rewrite Hback in Hu; [discriminate|].
    intros Hall. specialize (Hall c Hc). by apply Qle_not_lt in Hle. }
  right. destruct projectId as [id|].
  - destruct (String.eqb_spec id "") as [->|Hne]; simpl.
    + right. split; [done|]. split; [|reflexivity]. by intros ? [= <-].
    + destruct (cost_truthy projectCost && cost_reached projectCost PROJECT_DAILY_BUDGET)
        eqn:Hp.
      * left. split; [done|]. split; [|reflexivity].
        exists id. split; [done|]. split; [done|].
        by apply (cap_reached_iff _ _ PROJECT_DAILY_BUDGET_pos).
      * right. split; [done|]. split; [|reflexivity].
        intros ? [= <-] _ c Hc.
        destruct (Qlt_le_dec c PROJECT_DAILY_BUDGET) as [|Hle]; [done|].
        destruct (cap_reached_iff projectCost _ PROJECT_DAILY_BUDGET_pos) as [_ Hback].
        rewrite Hback in Hp; [discriminate|].
        intros Hall. specialize (Hall c Hc). by apply Qle_not_lt in Hle.
  - right. split; [done|]. split; [|reflexivity]. intros ? [=].
Qed.



(** The spend of a user is the sum over the rows that count for it. *)
Lemma user_spend_record now u w row :
  (user_spend now u (record row w)
   == user_spend now u w
      + (if bool_decide (au_user_id row = u ∧ au_status row = StatusOk
                         ∧ since_ok (Some (today now)) row = true)
         then au_cost_usd row else 0))%Q.
Proof.
  unfold user_spend, get_user_ai_cost, record. simpl.
  rewrite filter_app, sum_cost_app, filter_cons, filter_nil.
  case_bool_decide as Hc.
  - rewrite decide_True by exact Hc. simpl. ring.
  - rewrite decide_False by exact Hc. simpl. ring.
Qed.

Lemma project_spend_record now id w row :
  (project_spend now id (record row w)
   == project_spend now id w
      + (if bool_decide (au_project_id row = Some id ∧ au_status row = StatusOk
                         ∧ since_ok (Some (today now)) row = true)
         then au_cost_usd row else 0))%Q.
Proof.
  unfold project_spend, get_project_ai_cost, record. simpl.
  rewrite filter_app, sum_cost_app, filter_cons, filter_nil.
  case_bool_decide as Hc.
  - rewrite decide_True by exact Hc. simpl. ring.
  - rewrite decide_False by exact Hc. simpl. ring.
Qed.

Lemma cost_truthy_proper c c' :
  (c == c')%Q → cost_truthy (Some c) = cost_truthy (Some c').
Proof.
  intros Heq. simpl. f_equal. apply Bool.eq_iff_eq_true.
  rewrite !Qeq_bool_iff. by rewrite Heq.
Qed.

Lemma cost_reached_proper c c' limit :
  (c == c')%Q → cost_reached (Some c) limit = cost_reached (Some c') limit.
Proof.
  intros Heq. simpl. apply Bool.eq_iff_eq_true.
  rewrite !Qle_bool_iff. by rewrite Heq.
Qed.

(** The decision depends on the spends only through their values. *)
Lemma budget_decision_proper cu cu' id cp cp' :
  (cu == cu')%Q → (cp == cp')%Q →
  budget_decision (Some cu) (Some id) (Some cp)
  = budget_decision (Some cu') (Some id) (Some cp').
Proof.
  intros Hu Hp. unfold budget_decision.
  by rewrite (cost_truthy_proper _ _ Hu), (cost_reached_proper _ _ _ Hu),
             (cost_truthy_proper _ _ Hp), (cost_reached_proper _ _ _ Hp).
Qed.

Lemma checkBudget_up now u pid w :
  checkBudget no_faults now u pid w
  = budget_decision (Some (user_spend now u w)) pid
      (match pid with Some id => Some (project_spend now id w) | None => None end).
Proof. reflexivity. Qed.

Lemma checkBudget_user_cap now u pid w :
  (USER_DAILY_BUDGET <= user_spend now u w)%Q →
  checkBudget no_faults now u pid w = budget_denied "User daily budget exceeded".
Proof.
  intros Hle. rewrite checkBudget_up.
  destruct (budget_decision_cases (Some (user_spend now u w)) pid
              (match pid with Some id => Some (project_spend now id w) | None => None end))
    as [[_ ->]|[(Hu & _)|(Hu & _)]]; [reflexivity| |];
    specialize (Hu _ eq_refl); by apply Qle_not_lt in Hle.
Qed.

Lemma checkBudget_under_caps now u pid w :
  (user_spend now u w < USER_DAILY_BUDGET)%Q →
  (∀ id, pid = Some id → (project_spend now id w < PROJECT_DAILY_BUDGET)%Q) →
  checkBudget no_faults now u pid w = budget_allowed.
Proof.
  intros Hu Hp. rewrite checkBudget_up.
  destruct (budget_decision_cases (Some (user_spend now u w)) pid
              (match pid with Some id => Some (project_spend now id w) | None => None end))
    as [[Hnot _]|[(_ & (id & -> & _ & Hnot) & _)|(_ & _ & ->)]]; [| |reflexivity];
    exfalso; apply Hnot; intros c [= <-]; [exact Hu | by apply Hp].
Qed.

(** C2 (as amended).  The user cap bites at the cap, not above it: with the
    cost lookup working, a principal whose prior [ok] spend of the day is at
    or above $10.00, and so one whose spend is exactly $10.00, is denied the
    next call; a principal below the cap is let through by the user check. *)
Theorem user_budget_boundary (now : timestamptz) (u : string) (w : world) (spent : Q) :
  (user_spend now u w == spent)%Q →
  ((spent == USER_DAILY_BUDGET)%Q →
     ∀ pid, checkBudget no_faults now u pid w
            = budget_denied "User daily budget exceeded")
  ∧ ((USER_DAILY_BUDGET <= spent)%Q →
     ∀ pid, checkBudget no_faults now u pid w
            = budget_denied "User daily budget exceeded")
  ∧ ((spent < USER_DAILY_BUDGET)%Q →
     checkBudget no_faults now u None w = budget_allowed).
Proof.
  intros Hspent. split; [|split].
  - intros Heq pid. apply checkBudget_user_cap. rewrite Hspent, Heq. apply Qle_refl.
  - intros Hle pid. apply checkBudget_user_cap. by rewrite Hspent.
  - intros Hlt. apply checkBudget_under_caps; [by rewrite Hspent | intros ? [=]].
Qed.

(** C3.  The budget check looks at the spend recorded before the call and at
    nothing else.  Its answer is determined by the prior spend of the user
    and of the project; a call is allowed whenever both are below their caps;
    once the call is recorded with its cost the spend has grown by exactly
    that cost, so it exceeds the cap by less than the cost of this one call,
    and if it has reached the cap the following call is denied. *)
Theorem budget_checks_prior_spend
    (now : timestamptz) (u : string) (pid : option uuid) (w : world)
    (row : ai_usage_row) :
  au_user_id row = u →
  au_status row = StatusOk →
  today now ≤ au_created_at row →
  (∀ w2, (user_spend now u w2 == user_spend now u w)%Q →
         (∀ id, pid = Some id → (project_spend now id w2 == project_spend now id w)%Q) →
         checkBudget no_faults now u pid w2 = checkBudget no_faults now u pid w)
  ∧ ((user_spend now u w < USER_DAILY_BUDGET)%Q →
     (∀ id, pid = Some id → (project_spend now id w < PROJECT_DAILY_BUDGET)%Q) →
     checkBudget no_faults now u pid w = budget_allowed)
  ∧ (user_spend now u (record row w) == user_spend now u w + au_cost_usd row)%Q
  ∧ ((user_spend now u w < USER_DAILY_BUDGET)%Q →
     (user_spend now u (record row w) < USER_DAILY_BUDGET + au_cost_usd row)%Q)
  ∧ ((USER_DAILY_BUDGET <= user_spend now u (record row w))%Q →
     checkBudget no_faults now u pid (record row w)
     = budget_denied "User daily budget exceeded").
Proof.
  intros Hu Hok Hsince.
  assert (Hgrow :
    (user_spend now u (record row w) == user_spend now u w + au_cost_usd row)%Q).
  { rewrite user_spend_record. rewrite bool_decide_eq_true_2; [reflexivity|].
    split; [done|]. split; [done|]. simpl. by apply Z.leb_le. }
  split; [|split; [|split; [|split]]].
  - intros w2 Huser Hproj. rewrite !checkBudget_up.
    destruct pid as [id|].
    + apply budget_decision_proper; [exact Huser | by apply Hproj].
    + unfold budget_decision.
      by rewrite (cost_truthy_proper _ _ Huser),
                 (cost_reached_proper _ _ USER_DAILY_BUDGET Huser).
  - apply checkBudget_under_caps.
  - exact Hgrow.
  - intros Hlt. rewrite Hgrow. by apply Qplus_lt_l.
  - apply checkBudget_user_cap.
Qed.

(** Rows with status [failed] are not selected by the cost functions. *)
Lemma get_user_ai_cost_ok_rows u since d :
  get_user_ai_cost u since d
  = get_user_ai_cost u since (with_ai_usage (filter (λ r, au_status r = StatusOk)) d).
Proof.
  unfold get_user_ai_cost. simpl. f_equal.
  rewrite list_filter_filter. apply list_filter_iff. intros r. tauto.
Qed.

Lemma get_project_ai_cost_ok_rows id since d :
  get_project_ai_cost id since d
  = get_project_ai_cost id since (with_ai_usage (filter (λ r, au_status r = StatusOk)) d).
Proof.
  unfold get_project_ai_cost. simpl. f_equal.
  rewrite list_filter_filter. apply list_filter_iff. intros r. tauto.
Qed.

(** C5.  Only rows with status [ok] count toward the caps.  The user and
    project spends are those of the ledger with its [failed] rows removed;
    writing a [failed] row changes neither; so the budget check answers the
    same with and without the failed rows.  *)
Theorem failed_spend_excluded
    (f : faults) (now : timestamptz) (u : string) (pid : option uuid)
    (since : option timestamptz) (w : world) (row : ai_usage_row) :
  au_status row = StatusFailed →
  get_user_ai_cost u since (db w) = get_user_ai_cost u since (db (without_failed w))
  ∧ (∀ id, get_project_ai_cost id since (db w)
           = get_project_ai_cost id since (db (without_failed w)))
  ∧ get_user_ai_cost u since (db (record row w)) = get_user_ai_cost u since (db w)
  ∧ (∀ id, get_project_ai_cost id since (db (record row w))
           = get_project_ai_cost id since (db w))
  ∧ checkBudget f now u pid w = checkBudget f now u pid (without_failed w)
  ∧ checkBudget f now u pid (record row w) = checkBudget f now u pid w.
Proof.
  intros Hfailed.
  assert (Huser : ∀ s, get_user_ai_cost u s (db (record row w))
                       = get_user_ai_cost u s (db w)).
  { intros s. unfold get_user_ai_cost, record. simpl.
    rewrite filter_app, filter_cons, filter_nil, decide_False, app_nil_r; [done|].
    rewrite Hfailed. intros (_ & [=] & _). }
  assert (Hproj : ∀ id s, get_project_ai_cost id s (db (record row w))
                          = get_project_ai_cost id s (db w)).
  { intros id s. unfold get_project_ai_cost, record. simpl.
    rewrite filter_app, filter_cons, filter_nil, decide_False, app_nil_r; [done|].
    rewrite Hfailed. intros (_ & [=] & _). }
  assert (Huser' : ∀ s, get_user_ai_cost u s (db w)
                        = get_user_ai_cost u s (db (without_failed w)))
    by (intros s; apply get_user_ai_cost_ok_rows).
  assert (Hproj' : ∀ id s, get_project_ai_cost id s (db w)
                           = get_project_ai_cost id s (db (without_failed w)))
    by (intros id s; apply get_project_ai_cost_ok_rows).
  split; [apply Huser'|].
  split; [intros id; apply Hproj'|].
  split; [apply Huser|]. split; [intros id; apply Hproj|].
  split.
  - unfold checkBudget, user_spend, project_spend.
    rewrite <- Huser'.
    destruct pid as [id|]; [|reflexivity].
    by rewrite <- Hproj'.
  - unfold checkBudget, user_spend, project_spend. rewrite Huser.
    destruct pid as [id|]; [|reflexivity]. by rewrite Hproj.
Qed.

(** C10.  The budget guard fails open.  A cost RPC that errors gives no
    data, and no data, like a spend of zero, is falsy in the denial condition:
    the user check then passes whatever the project data, and the project
    check passes whatever the user data.  With both RPCs down the call is
    allowed whatever the ledger holds. *)
Theorem budget_fails_open
    (f : faults) (now : timestamptz) (u : string) (pid : option uuid) (w : world) :
  user_cost_rpc_down f = true →
  project_cost_rpc_down f = true →
  checkBudget f now u pid w = budget_allowed
  ∧ (∀ f', user_cost_rpc_down f' = true →
           reason (checkBudget f' now u pid w) ≠ Some "User daily budget exceeded")
  ∧ (∀ f', project_cost_rpc_down f' = true →
           reason (checkBudget f' now u pid w) ≠ Some "Project daily budget exceeded")
  ∧ (∀ userCost projectCost,
       cost_truthy userCost = false →
       budget_decision userCost pid projectCost = budget_decision None pid projectCost)
  ∧ (∀ userCost projectCost,
       cost_truthy projectCost = false →
       budget_decision userCost pid projectCost = budget_decision userCost pid None)
  ∧ cost_truthy None = false
  ∧ (∀ c, (c == 0)%Q → cost_truthy (Some c) = false)
  ∧ budget_decision None pid None = budget_allowed.
Proof.
  intros Hu Hp.
  assert (Hnone : budget_decision None pid None = budget_allowed).
  { unfold budget_decision. simpl. destruct pid; [|reflexivity].
    by rewrite andb_false_r. }
  split; [|split; [|split; [|split; [|split; [|split; [|split]]]]]].
  - unfold checkBudget. rewrite Hu. destruct pid as [id|]; [|exact Hnone].
    rewrite Hp. exact Hnone.
  - intros f' Hf. unfold checkBudget. rewrite Hf. unfold budget_decision. simpl.
    destruct pid as [id|]; [|discriminate].
    by destruct (negb _ && _ && _).
  - intros f' Hf. unfold checkBudget, budget_decision.
    destruct (cost_truthy _ && cost_reached _ USER_DAILY_BUDGET); [discriminate|].
    destruct pid as [id|]; [|discriminate].
    rewrite Hf. simpl. by rewrite andb_false_r.
  - intros uc pc Hfalse. unfold budget_decision. by rewrite Hfalse.
  - intros uc pc Hfalse. unfold budget_decision.
    destruct (cost_truthy uc && _); [reflexivity|].
    destruct pid; [|reflexivity]. rewrite Hfalse. simpl. by rewrite !andb_false_r.
  - reflexivity.
  - intros c Hc. simpl. apply negb_false_iff. by apply Qeq_bool_iff.
  - exact Hnone.
Qed.

End BudgetFacts.

Section BudgetExamples.
Import Js Sql Runtime AiUsageSql AiProxy Examples.
#[local] Existing Instance Reference.platform.

(** A principal with $9.99 of prior spend is below the cap and let through. *)
Lemma user_budget_boundary_witness :
  checkBudget no_faults t0 alice None (world_with_ledger ledger_9_99) = budget_allowed.
Proof.
  refine (proj2 (proj2 (user_budget_boundary t0 alice (world_with_ledger ledger_9_99)
                          9.99 _)) _).
  - vm_compute. reflexivity.
  - reflexivity.
Defined.

(** C2 as stated fails: with exactly $10.00 of prior [ok] spend today the
    budget check denies the next call. *)
Lemma user_budget_at_cap_counterexample :
  (user_spend t0 alice (world_with_ledger ledger_at_cap) == 10.00)%Q
  ∧ checkBudget no_faults t0 alice None (world_with_ledger ledger_at_cap)
    = budget_denied "User daily budget exceeded".
Proof. split; vm_compute; reflexivity. Qed.

(** The example of the specification: with $9.99 spent, a call costing $0.02
    is allowed, takes the spend to $10.01, one call's cost at most over the
    cap, and the following call is denied. *)
Lemma budget_checks_prior_spend_witness :
  checkBudget no_faults t0 alice None (world_with_ledger ledger_9_99) = budget_allowed
  ∧ (user_spend t0 alice (record (usage None 0.02 StatusOk) (world_with_ledger ledger_9_99))
     < USER_DAILY_BUDGET + 0.02)%Q
  ∧ checkBudget no_faults t0 alice None
      (record (usage None 0.02 StatusOk) (world_with_ledger ledger_9_99))
    = budget_denied "User daily budget exceeded".
Proof.
  pose proof (budget_checks_prior_spend t0 alice None (world_with_ledger ledger_9_99)
                (usage None 0.02 StatusOk) eq_refl eq_refl)
    as Hthm.
  destruct Hthm as (_ & Hallow & _ & Hbound & Hnext).
  - vm_compute. discriminate.
  - split; [|split].
    + apply Hallow; [reflexivity | intros ? [=]].
    + apply Hbound. reflexivity.
    + apply Hnext. vm_compute. discriminate.
Defined.

(** The example of the specification: $9.00 of [ok] and $5.00 of [failed]
    spend leave the principal free to call. *)
Lemma failed_spend_excluded_witness :
  checkBudget no_faults t0 alice None (world_with_ledger ledger_9_ok_5_failed)
  = checkBudget no_faults t0 alice None
      (without_failed (world_with_ledger ledger_9_ok_5_failed))
  ∧ checkBudget no_faults t0 alice None (world_with_ledger ledger_9_ok_5_failed)
    = budget_allowed.
Proof.
  split; [|reflexivity].
  exact (proj1 (proj2 (proj2 (proj2 (proj2
           (failed_spend_excluded no_faults t0 alice None None
              (world_with_ledger ledger_9_ok_5_failed)
              (usage None 5.00 StatusFailed) eq_refl)))))).
Defined.

(** With $50.00 spent today on one project, far over both caps, the call is
    denied while the cost RPCs work and allowed when they fail. *)
Lemma budget_fails_open_witness :
  checkBudget cost_backend_down t0 alice (Some project_A)
    (world_with_ledger ledger_over_both_caps) = budget_allowed.
Proof.
  exact (proj1 (budget_fails_open cost_backend_down t0 alice (Some project_A)
                  (world_with_ledger ledger_over_both_caps) eq_refl eq_refl)).
Defined.

Example budget_denied_when_backend_up :
  checkBudget no_faults t0 alice (Some project_A)
    (world_with_ledger ledger_over_both_caps)
  = budget_denied "User daily budget exceeded".
Proof. vm_compute. reflexivity. Qed.

End BudgetExamples.

(** ** The cost of a call *)
Section CostFacts.
Import Js AiProxy.

(** A model of the price table is priced with its own entry. *)
Lemma calculateCost_own model p tokensIn tokensOut :
  own_pricing COST_PER_1K_TOKENS model = Some p →
  calculateCost model tokensIn tokensOut
  = (tokensIn / 1000 * input p + tokensOut / 1000 * output p)%float.
Proof.
  intros Hown. unfold calculateCost, cost_entry. by rewrite Hown.
Qed.

(** A model for which the table lookup gives [undefined] is priced with the
    entry of ['gpt-4']. *)
Lemma calculateCost_fallback model tokensIn tokensOut :
  cost_entry model = Undefined →
  calculateCost model tokensIn tokensOut = calculateCost "gpt-4" tokensIn tokensOut.
Proof.
  intros Hundef. unfold calculateCost. by rewrite Hundef.
Qed.

(** The cost formula on the price table: for each of the six models of the
    table the cost is [(tokens_in / 1000) * price_in + (tokens_out / 1000) *
    price_out] with the prices of the table; [cost("gpt-4", 1000, 500)] is
    [0.06]; and a model name whose lookup gives [undefined] is priced as
    ['gpt-4']. *)
Theorem calculateCost_price_table (model : string) (p : pricing) (tokensIn tokensOut : float) :
  (model, p) ∈ COST_PER_1K_TOKENS →
  calculateCost model tokensIn tokensOut
  = (tokensIn / 1000 * input p + tokensOut / 1000 * output p)%float
  ∧ calculateCost "gpt-4" 1000 500 = 0.06%float
  ∧ (∀ other, cost_entry other = Undefined →
       calculateCost other tokensIn tokensOut
       = (tokensIn / 1000 * 0.03 + tokensOut / 1000 * 0.06)%float).
Proof.
  intros Hin. split; [|split].
  - apply calculateCost_own.
    unfold COST_PER_1K_TOKENS in Hin.
    repeat (apply elem_of_cons in Hin as [[= -> ->]|Hin]; [reflexivity|]).
    by apply elem_of_nil in Hin.
  - reflexivity.
  - intros other Hundef. rewrite (calculateCost_fallback _ _ _ Hundef).
    by apply (calculateCost_own "gpt-4" {| input := 0.03; output := 0.06 |}).
Qed.

Lemma calculateCost_price_table_witness :
  calculateCost "claude-3-opus" 1000 500
  = (1000 / 1000 * 0.015 + 500 / 1000 * 0.075)%float.
Proof.
  refine (proj1 (calculateCost_price_table "claude-3-opus"
                   {| input := 0.015; output := 0.075 |} 1000 500 _)).
  unfold COST_PER_1K_TOKENS. do 3 apply list_elem_of_further. apply list_elem_of_here.
Defined.

(** C8 fails on names that the price table inherits: ['constructor'] is not
    a model of the table, yet the lookup [COST_PER_1K_TOKENS['constructor']]
    finds the inherited property, the fallback to ['gpt-4'] is not taken and
    the cost is [NaN], not the 0.06 of ['gpt-4'] pricing. *)
Lemma calculateCost_inherited_key_is_nan :
  own_pricing COST_PER_1K_TOKENS "constructor" = None
  ∧ cost_entry "constructor" = Inherited
  ∧ PrimFloat.is_nan (calculateCost "constructor" 1000 500) = true
  ∧ calculateCost "gpt-4" 1000 500 = 0.06%float.
Proof. repeat split; reflexivity. Qed.

End CostFacts.

(** ** The usage ledger *)
Section LedgerFacts.
Import Js Sql Runtime AiUsageSql AiProxy.
Context `{Platform}.



(** Past validation the handler checks the budget, calls the provider and
    records. *)
Lemma serve_metered f now req w userId r w1 :
  admitted f now req w userId r w1 →
  serve f now req w =
    let budget := checkBudget f now userId (project_id r) w1 in
    if negb (allowed budget) then
      (recordAIUsage f now userId (project_id r) (provider r) (model r) 0 0 0
                     StatusFailed w1,
       BudgetExceeded (default "Budget exceeded" (reason budget)))
    else
      match ai_provider (provider r) (model r) (prompt r) with
      | Throw err =>
          (recordAIUsage f now userId (project_id r) (provider r) (model r) 0 0 0
                         StatusFailed w1,
           ProviderFailed (exn_message err))
      | Ok aiResult =>
          (recordAIUsage f now userId (project_id r) (provider r) (model r)
                         (tokensIn aiResult) (tokensOut aiResult)
                         (calculateCost (model r) (tokensIn aiResult) (tokensOut aiResult))
                         StatusOk w1,
           Success (result aiResult) (tokensIn aiResult) (tokensOut aiResult)
                   (calculateCost (model r) (tokensIn aiResult) (tokensOut aiResult)))
      end.
Proof.
  intros (Hm & Hauth & Hne & (rl & Hrl & Hall) & json & Hbody & Hparse).
  unfold serve.
  replace (String.eqb (method req) "OPTIONS") with false by (by rewrite Hm).
  replace (negb (String.eqb (method req) "POST")) with false by (by rewrite Hm).
  rewrite Hauth.
  replace (bool_decide (is_Some None) || String.eqb userId "") with false
    by (symmetry; apply orb_false_iff; split;
        [apply bool_decide_eq_false_2; intros [? ?]; discriminate
        | by apply String.eqb_neq]).
  rewrite Hrl, Hall, Hbody, Hparse. reflexivity.
Qed.


End LedgerFacts.

Section LedgerExamples.
Import Js Sql Runtime AiUsageSql AiProxy Examples.
#[local] Existing Instance Reference.platform.



End LedgerExamples.

(** ** The rate limiter *)
Section RateLimitFacts.
Import Js Sql Runtime RateLimitSql RateLimit.

Lemma with_db_same (w : world) : with_db (db w) w = w.
Proof. by destruct w. Qed.

(** A request whose window starts after the stored one (or that finds no
    row) opens the window: it is allowed and the counter is set to 1. *)
Lemma checkRateLimit_new_window now u w :
  (∀ row, rate_limits (db w) !! rate_key u = Some row →
          window_start row < window_start_of now RATE_LIMIT_WINDOW) →
  ∃ w', checkRateLimit no_faults now u w = (w', rate_allowed)
        ∧ rate_limits (db w') !! rate_key u
          = Some {| window_start := window_start_of now RATE_LIMIT_WINDOW;
                    count := 1;
                    rl_updated_at := now |}.
Proof.
  intros Hold. unfold rate_key in *. unfold checkRateLimit.
  cbn [rate_limit_rpc_down no_faults].
  unfold check_rate_limit, transaction, check_rate_limit_body.
  unfold mbind, stmt_bind, bind, window_start_at.
  change (RATE_LIMIT_WINDOW =? 0) with false. cbv iota.
  cbv zeta. unfold ret, read, select_count.
  destruct (rate_limits (db w) !! ("ai_proxy:" +:+ u)) as [row|] eqn:Hrow.
  - specialize (Hold row eq_refl).
    destruct (Z.eqb_spec (window_start row) (window_start_of now RATE_LIMIT_WINDOW));
      [lia|].
    unfold upsert_window, write, mret, stmt_ret, ret.
    eexists. split; [reflexivity|].
    cbn [db with_db rate_limits with_rate_limits]. rewrite Hrow.
    destruct (Z.ltb_spec (window_start row)
                (window_start_of now RATE_LIMIT_WINDOW)); [|lia].
    by rewrite lookup_insert_eq.
  - unfold upsert_window, write, mret, stmt_ret, ret.
    eexists. split; [reflexivity|].
    cbn [db with_db rate_limits with_rate_limits]. rewrite Hrow.
    by rewrite lookup_insert_eq.
Qed.

(** A request in the stored window is counted while the counter is below
    the maximum, and denied with the window length as retry-after hint once
    the counter has reached it. *)
Lemma checkRateLimit_in_window now u w c upd :
  rate_limits (db w) !! rate_key u
  = Some {| window_start := window_start_of now RATE_LIMIT_WINDOW;
            count := c;
            rl_updated_at := upd |} →
  1 ≤ c →
  (c < RATE_LIMIT_MAX_REQUESTS →
     ∃ w', checkRateLimit no_faults now u w = (w', rate_allowed)
           ∧ rate_limits (db w') !! rate_key u
             = Some {| window_start := window_start_of now RATE_LIMIT_WINDOW;
                       count := c + 1;
                       rl_updated_at := now |})
  ∧ (RATE_LIMIT_MAX_REQUESTS ≤ c →
     checkRateLimit no_faults now u w = (w, rate_denied)).
Proof.
  intros Hrow Hc. unfold rate_key in *. unfold checkRateLimit.
  cbn [rate_limit_rpc_down no_faults].
  unfold check_rate_limit, transaction, check_rate_limit_body.
  unfold mbind, stmt_bind, bind, window_start_at.
  change (RATE_LIMIT_WINDOW =? 0) with false. cbv iota.
  cbv zeta. unfold ret, read, select_count.
  rewrite Hrow. cbn [window_start count]. rewrite Z.eqb_refl.
  split.
  - intros Hlt. destruct (Z.leb_spec RATE_LIMIT_MAX_REQUESTS c); [lia|].
    unfold increment_count, mbind, stmt_bind, bind, integer_add.
    replace (is_integer (c + 1)) with true
      by (symmetry; unfold is_integer, INTEGER_MAX, RATE_LIMIT_MAX_REQUESTS in *;
          apply andb_true_iff; lia).
    unfold ret, write, mret, stmt_ret, ret.
    eexists. split; [reflexivity|].
    cbn [db with_db rate_limits with_rate_limits]. by rewrite lookup_insert_eq.
  - intros Hge. destruct (Z.leb_spec RATE_LIMIT_MAX_REQUESTS c); [|lia].
    unfold mret, stmt_ret, ret. by rewrite with_db_same.
Qed.

(** From a window with counter [c], further requests of the same window are
    allowed until the counter is at the maximum and denied from then on. *)
Lemma checkRateLimit_each_in_window u ws times : ∀ w c upd,
  Forall (λ t, window_start_of t RATE_LIMIT_WINDOW = ws) times →
  rate_limits (db w) !! rate_key u
  = Some {| window_start := ws; count := c; rl_updated_at := upd |} →
  1 ≤ c ≤ RATE_LIMIT_MAX_REQUESTS →
  ∃ w' upd',
    checkRateLimit_each times u w
    = (w', replicate (Nat.min (length times) (Z.to_nat (RATE_LIMIT_MAX_REQUESTS - c)))
                     rate_allowed
           ++ replicate (length times - Z.to_nat (RATE_LIMIT_MAX_REQUESTS - c))
                        rate_denied)
    ∧ rate_limits (db w') !! rate_key u
      = Some {| window_start := ws;
                count := Z.min RATE_LIMIT_MAX_REQUESTS (c + Z.of_nat (length times));
                rl_updated_at := upd' |}.
Proof.
  assert (Hmax : RATE_LIMIT_MAX_REQUESTS = 30) by reflexivity.
  induction times as [|t times IH]; intros w c upd Hall Hrow Hc.
  - exists w, upd. simpl. split; [reflexivity|].
    rewrite Hrow. do 2 f_equal. simpl length. lia.
  - apply Forall_cons in Hall as [Ht Hall]. subst ws.
    destruct (checkRateLimit_in_window t u w c upd Hrow ltac:(lia)) as [Hlt Hge].
    destruct (Z.lt_ge_cases c RATE_LIMIT_MAX_REQUESTS) as [Hc'|Hc'].
    + destruct (Hlt Hc') as (w1 & Hcall & Hrow1).
      destruct (IH w1 (c + 1) t Hall Hrow1 ltac:(lia)) as (w' & upd' & Hrun & Hrow').
      exists w', upd'. simpl. rewrite Hcall, Hrun. split.
      * f_equal.
        replace (Z.to_nat (RATE_LIMIT_MAX_REQUESTS - c))
          with (S (Z.to_nat (RATE_LIMIT_MAX_REQUESTS - (c + 1)))) by lia.
        reflexivity.
      * rewrite Hrow'. do 2 f_equal. simpl length. lia.
    + rewrite (Hge Hc') in *.
      destruct (IH w c upd Hall Hrow Hc) as (w' & upd' & Hrun & Hrow').
      exists w', upd'. simpl. rewrite (Hge Hc'), Hrun.
      replace (Z.to_nat (RATE_LIMIT_MAX_REQUESTS - c)) with 0%nat in * by lia.
      split.
      * f_equal. by rewrite Nat.min_0_r, !Nat.sub_0_r.
      * rewrite Hrow'. do 2 f_equal. simpl length. lia.
Qed.

(** The counter of one window start.  [check_rate_limit] keys the counter of
    a principal by the [window_start] it computes for a request.  When the
    stored window of the principal is older (or there is none), 31 requests
    that get the same window start are answered: requests 1 to 30 allowed,
    the 31st denied with a retry-after hint of 60 seconds, the window length;
    the first request with a later window start is allowed again and resets
    the counter to 1. *)
Theorem rate_limit_counts_per_window_start
    (u : string) (w : world) (ws ws' : timestamptz)
    (times : list timestamptz) (next : timestamptz) :
  (∀ row, rate_limits (db w) !! rate_key u = Some row → window_start row < ws) →
  Forall (λ t, window_start_of t RATE_LIMIT_WINDOW = ws) times →
  length times = 31%nat →
  window_start_of next RATE_LIMIT_WINDOW = ws' →
  ws < ws' →
  ∃ w1 w2,
    checkRateLimit_each times u w = (w1, replicate 30 rate_allowed ++ [rate_denied])
    ∧ retryAfter rate_denied = Some 60
    ∧ checkRateLimit no_faults next u w1 = (w2, rate_allowed)
    ∧ rate_limits (db w2) !! rate_key u
      = Some {| window_start := ws'; count := 1; rl_updated_at := next |}.
Proof.
  intros Hold Hall Hlen Hnext Hlater.
  destruct times as [|t times]; [discriminate|].
  apply Forall_cons in Hall as [Ht Hall].
  destruct (checkRateLimit_new_window t u w) as (w0 & Hfirst & Hrow0);
    [by rewrite Ht|].
  rewrite Ht in Hrow0.
  destruct (checkRateLimit_each_in_window u ws times w0 1 t Hall Hrow0)
    as (w1 & upd & Hrun & Hrow1); [unfold RATE_LIMIT_MAX_REQUESTS; lia|].
  injection Hlen as Hlen. rewrite Hlen in Hrun, Hrow1.
  destruct (checkRateLimit_new_window next u w1) as (w2 & Hcall & Hrow2).
  { intros row. rewrite Hrow1. intros [= <-]. simpl. lia. }
  exists w1, w2. split; [|split; [reflexivity|split; [exact Hcall|]]].
  - simpl. rewrite Hfirst, Hrun. reflexivity.
  - by rewrite Hrow2, Hnext.
Qed.

End RateLimitFacts.

Section RateLimitExamples.
Import Js Sql Runtime RateLimitSql RateLimit Examples.

(** Thirty requests at 22:13:20.0, a 31st at 22:13:20.4 and one in the next
    minute. *)
Lemma rate_limit_counts_per_window_start_witness :
  ∃ w1 w2,
    checkRateLimit_each (replicate 30 t0 ++ [t0 + 400000]) alice w0
    = (w1, replicate 30 rate_allowed ++ [rate_denied])
    ∧ retryAfter rate_denied = Some 60
    ∧ checkRateLimit no_faults (t0 + 60000000) alice w1 = (w2, rate_allowed)
    ∧ rate_limits (db w2) !! rate_key alice
      = Some {| window_start := t0 + 40000000; count := 1;
                rl_updated_at := t0 + 60000000 |}.
Proof.
  apply (rate_limit_counts_per_window_start alice w0 (t0 - 20000000) (t0 + 40000000)
           (replicate 30 t0 ++ [t0 + 400000]) (t0 + 60000000)).
  - assert (Hnone : rate_limits (db w0) !! rate_key alice = None)
      by (vm_compute; reflexivity).
    intros row Hrow. rewrite Hnone in Hrow. discriminate.
  - repeat (constructor; [vm_compute; reflexivity|]). constructor.
  - reflexivity.
  - vm_compute. reflexivity.
  - vm_compute. reflexivity.
Defined.

(** C9 fails for a 31st request in the second half of a second: the window
    start is not the floor of the clock minute.  Of 31 requests of one
    principal within the same minute, thirty at 22:13:20.0 and one at
    22:13:20.6, all are allowed: for the last one the seconds cast rounds 20.6
    to 21, [check_rate_limit] computes a window start one second before the
    minute, finds no counter for that window and lets the request through,
    and the counter of the minute stays at 30. *)
Lemma window_start_rounds_seconds :
  clock_window <$> (replicate 30 t0 ++ [t0 + 600000]) = replicate 31 (clock_window t0)
  ∧ window_start_of t0 RATE_LIMIT_WINDOW = t0 - 20000000
  ∧ window_start_of (t0 + 600000) RATE_LIMIT_WINDOW = t0 - 21000000
  ∧ snd (checkRateLimit_each (replicate 30 t0 ++ [t0 + 600000]) alice w0)
    = replicate 31 rate_allowed
  ∧ count <$> (rate_limits
                 (db (fst (checkRateLimit_each (replicate 30 t0 ++ [t0 + 600000])
                             alice w0)))
                 !! rate_key alice) = Some 30.
Proof.
  split_and!; vm_compute; reflexivity.
Qed.

End RateLimitExamples.

(** ** Replaying events *)
Section ReplayFacts.
Import Js Reducer Replay.

Lemma applyEvent_is_rename snapshot event name :
  is_rename_of event name → valid_name name →
  applyEvent snapshot event = Ok (<["name" := JStr name]> snapshot).
Proof.
  intros (Hty & payload & Hpl & Hname) [Hlo Hhi].
  rewrite (applyEvent_rename _ _ Hty), (applyRenameEvent_payload _ _ _ Hty Hpl).
  simpl. rewrite Hname. simpl.
  destruct (Nat.eqb_spec (String.length name) 0); [lia|].
  destruct (Nat.ltb_spec 200 (String.length name)); [lia|]. reflexivity.
Qed.

Lemma applyEvents_cat (xs ys : list jsval) (s : ProjectSnapshot) :
  applyEvents (xs ++ ys) s
  = match applyEvents xs s with
    | Ok s' => applyEvents ys s'
    | Throw e => Throw e
    end.
Proof.
  revert s. induction xs as [|x xs IH]; intros s; simpl; [reflexivity|].
  destruct (applyEvent s x); [apply IH | reflexivity].
Qed.

(** Replaying a log in two batches: the replay of [xs ++ ys] is the replay
    of [ys] from the snapshot the replay of [xs] gives, and an event that is
    refused ends the replay with its error, whatever follows it. *)
Theorem applyEvents_app (xs ys : list jsval) (s : ProjectSnapshot) :
  applyEvents (xs ++ ys) s
  = match applyEvents xs s with
    | Ok s' => applyEvents ys s'
    | Throw e => Throw e
    end
  ∧ ∀ s' bad e,
      applyEvents xs s = Ok s' → applyEvent s' bad = Throw e →
      applyEvents (xs ++ bad :: ys) s = Throw e.
Proof.
  split; [apply applyEvents_cat|].
  intros s' bad e Hxs Hbad. rewrite applyEvents_cat, Hxs. simpl. by rewrite Hbad.
Qed.

(** The last rename wins.  Replaying rename events with valid names from a
    snapshot gives that snapshot with [name] set to the last name, every
    other field as it was; replaying no event gives the snapshot back. *)
Theorem applyEvents_last_rename_wins
    (events : list jsval) (names : list string) (s : ProjectSnapshot) :
  Forall2 is_rename_of events names →
  Forall valid_name names →
  applyEvents events s
  = Ok (match last names with
        | Some name => <["name" := JStr name]> s
        | None => s
        end).
Proof.
  intros Hev. revert s.
  induction Hev as [|e n events names He Hev IH]; intros s Hvalid; [reflexivity|].
  apply Forall_cons in Hvalid as [Hn Hvalid].
  simpl applyEvents. rewrite (applyEvent_is_rename _ _ _ He Hn), (IH _ Hvalid).
  rewrite last_cons. f_equal.
  destruct (last names) as [m|]; [|reflexivity].
  apply insert_insert_eq.
Qed.

Lemma applyEvents_last_rename_wins_witness :
  applyEvents [rename_event (JStr "One"); rename_event (JStr "Two")]
              {[ "theme" := JStr "dark" ]}
  = Ok (<["name" := JStr "Two"]> {[ "theme" := JStr "dark" ]}).
Proof.
  apply (applyEvents_last_rename_wins
           [rename_event (JStr "One"); rename_event (JStr "Two")] ["One"; "Two"]).
  - repeat constructor; eexists; (split; [reflexivity|]); reflexivity.
  - repeat constructor; simpl; lia.
Defined.

Lemma applyEvent_ok_inv (s s' : ProjectSnapshot) (event : jsval) :
  applyEvent s event = Ok s' →
  ∃ name, is_rename_of event name ∧ valid_name name
          ∧ s' = <["name" := JStr name]> s.
Proof.
  intros Hok.
  assert (Hty : prop event "type" = JStr "project.rename").
  { destruct (prop event "type") as [| |b|x|t|o] eqn:Ht;
      try (destruct (applyEvent_other_type_throws s event) as [e He];
           [rewrite Ht; discriminate | congruence]).
    destruct (String.eqb_spec t "project.rename") as [->|Hne]; [reflexivity|].
    destruct (applyEvent_other_type_throws s event) as [e He];
      [rewrite Ht; congruence | congruence]. }
  rewrite (applyEvent_rename _ _ Hty) in Hok.
  unfold applyRenameEvent, isProjectRenameEvent in Hok. rewrite Hty in Hok.
  simpl in Hok.
  destruct (prop event "payload") as [| |b|x|str|payload] eqn:Hpl;
    try discriminate.
  simpl in Hok.
  destruct (payload !! "name") as [[| |b|x|name|o]|] eqn:Hname; try discriminate.
  simpl in Hok.
  destruct (Nat.eqb_spec (String.length name) 0); [discriminate|].
  destruct (Nat.ltb_spec 200 (String.length name)); [discriminate|].
  injection Hok as <-. exists name.
  split; [split; [exact Hty | eauto]|]. split; [unfold valid_name; lia | reflexivity].
Qed.

(** [applyEvent] succeeds on rename events with a valid name and on nothing
    else, and a successful application changes no field but [name]. *)
Theorem applyEvent_ok_iff (s s' : ProjectSnapshot) (event : jsval) :
  applyEvent s event = Ok s'
  ↔ ∃ name, is_rename_of event name ∧ valid_name name
            ∧ s' = <["name" := JStr name]> s.
Proof.
  split; [apply applyEvent_ok_inv|].
  intros (name & He & Hn & ->). by apply applyEvent_is_rename.
Qed.

(** Applying an event a second time changes nothing. *)
Theorem applyEvent_idempotent (s s' : ProjectSnapshot) (event : jsval) :
  applyEvent s event = Ok s' → applyEvent s' event = Ok s'.
Proof.
  intros Hok. apply applyEvent_ok_inv in Hok as (name & He & Hn & ->).
  rewrite (applyEvent_is_rename _ _ _ He Hn). f_equal. apply insert_insert_eq.
Qed.

Lemma applyEvent_idempotent_witness :
  applyEvent (<["name" := JStr "One"]> ∅) (rename_event (JStr "One"))
  = Ok (<["name" := JStr "One"]> ∅).
Proof. apply (applyEvent_idempotent ∅). reflexivity. Defined.

End ReplayFacts.

(** ** The projection is the replay of the log *)
Section LogReplayFacts.
Import Js Reducer Sql Runtime ProjectEvents Mutate Replay LogReplay.
Context `{Platform}.

Lemma same_json_insert q s k x :
  same_json q s → same_json (<[k := BStr x]> q) (<[k := JStr x]> s).
Proof.
  intros Hsame k'. destruct (decide (k = k')) as [->|Hne].
  - rewrite !lookup_insert_eq. constructor. constructor.
  - rewrite !lookup_insert_ne by done. apply Hsame.
Qed.

Lemma same_json_empty : same_json ∅ ∅.
Proof. intros k. rewrite !lookup_empty. constructor. Qed.

(** What the schema lets through as a proposal. *)
Lemma RequestSchema_proposal json r :
  RequestSchema json = Some r →
  type (proposal_of r) = "project.rename" ∧ valid_name (payload_name (proposal_of r)).
Proof.
  intros Hparse. unfold RequestSchema in Hparse.
  destruct json; try discriminate.
  destruct (prop _ "projectId"); try discriminate.
  destruct (zod_uuid _); [|discriminate].
  destruct (baseSeqSchema _); [|discriminate]. simpl in Hparse.
  destruct (ProposalSchema _) as [pr|] eqn:Hpr; [|discriminate].
  simpl in Hparse. destruct (optionalStringSchema _); [|discriminate].
  injection Hparse as <-. simpl.
  unfold ProposalSchema in Hpr.
  repeat (match type of Hpr with
          | match ?x with _ => _ end = _ => destruct x eqn:?; try discriminate
          end).
  injection Hpr as <-. simpl.
  match goal with
  | Hc : (_ && _ && _) = true |- _ =>
      apply andb_true_iff in Hc as [Hc Hhi]; apply andb_true_iff in Hc as [Hc Hlo];
      apply String.eqb_eq in Hc; apply Nat.leb_le in Hlo, Hhi
  end.
  split; [done | split; lia].
Qed.

(** The snapshot a rename writes: the current one with [name] set. *)
Lemma apply_project_event_done_snapshot vc now p a name db db' s snap :
  apply_project_event_body vc now p a "project.rename" {[ "name" := BStr name ]} db
  = Done db' (s, snap) →
  snap = Some (<["name" := BStr name]> (snapshot_of db p)).
Proof.
  unfold apply_project_event_body, snapshot_of, mbind, stmt_bind, bind.
  rewrite resolve_snapshot.
  assert (Hget : jsonb_get_text ({[ "name" := BStr name ]} : jsonb_object) "name"
                 = Some name)
    by (unfold jsonb_get_text; by rewrite lookup_singleton_eq).
  assert (Htail : ∀ (h : Z) (cur : option jsonb_object) d,
    match bigint_add h 1 d with
    | Done d1 next =>
        match ret (jsonb_set_text cur "name" (Some name)) d1 with
        | Done d2 new =>
            match insert_event {| ev_project_id := p; ev_actor_id := a;
                                  ev_seq := next; ev_type := "project.rename";
                                  ev_payload := {[ "name" := BStr name ]} |} d2 with
            | Done d3 _ =>
                match update_projection p next new now d3 with
                | Done d4 _ => ret (next, new) d4
                | Raised d4 e => Raised d4 e
                end
            | Raised d3 e => Raised d3 e
            end
        | Raised d2 e => Raised d2 e
        end
    | Raised d1 e => Raised d1 e
    end = Done db' (s, snap) →
    ∃ o, cur = Some o ∧ snap = Some (<["name" := BStr name]> o)).
  { intros h cur d. unfold bigint_add.
    destruct ((h + 1 <=? BIGINT_MAX) && _); unfold ret, raise; [|discriminate].
    destruct (insert_event _ _) as [d3 []|]; [|discriminate].
    unfold update_projection.
    destruct cur as [o|]; simpl; unfold raise, write; [|discriminate].
    intros [= <- <- <-]. eauto. }
  rewrite Hget. change (String.eqb "project.rename" "project.rename") with true.
  cbv iota.
  destruct vc; unfold raise, read, mret, stmt_ret, ret; [discriminate|..].
  - destruct (project_projections db !! p) as [row|] eqn:Hrow.
    + intros Hrun. apply Htail in Hrun as (o & [=] & _).
    + destruct (insert_projection _ _ db) as [d1 []|]; [|discriminate].
      intros Hrun. by apply Htail in Hrun as (o & [= <-] & ->).
  - destruct (project_projections db !! p) as [row|] eqn:Hrow.
    + intros Hrun. by apply Htail in Hrun as (o & [= <-] & ->).
    + destruct (insert_projection _ _ db) as [d1 []|]; [|discriminate].
      intros Hrun. by apply Htail in Hrun as (o & [= <-] & ->).
Qed.

(** What a committed response goes with: one rename event of a valid name
    appended for the project, and its projection moved to the snapshot with
    that name. *)
Lemma serve_committed f now req w w' p s snap k :
  serve f now req w = (w', Committed p (s, snap) k) →
  ∃ a name,
    valid_name name
    ∧ project_events (db w')
      = project_events (db w)
          ++ [{| ev_project_id := p; ev_actor_id := a; ev_seq := s;
                 ev_type := "project.rename";
                 ev_payload := {[ "name" := BStr name ]} |}]
    ∧ project_projections (db w')
      = <[p := {| head_seq := s;
                  snapshot := <["name" := BStr name]> (snapshot_of (db w) p);
                  pr_updated_at := now |}]> (project_projections (db w)).
Proof.
  unfold serve.
  destruct (String.eqb (method req) "OPTIONS"); [discriminate|].
  destruct (negb (String.eqb (method req) "POST")); [discriminate|].
  destruct (Auth.verifyAuth w req) as [userId authError].
  destruct (bool_decide (is_Some authError) || String.eqb userId ""); [discriminate|].
  destruct (RateLimit.checkRateLimit f now userId w) as [w1 rl] eqn:Hrl.
  apply checkRateLimit_frame in Hrl as [_ [t Hdb]].
  assert (Hp : project_projections (db w1) = project_projections (db w)) by (by rewrite Hdb).
  assert (He : project_events (db w1) = project_events (db w)) by (by rewrite Hdb).
  assert (Hs : snapshot_of (db w1) p = snapshot_of (db w) p)
    by (unfold snapshot_of; by rewrite Hp).
  destruct (negb (RateLimit.allowed rl)); [discriminate|].
  destruct (body req) as [json|]; [|discriminate].
  destruct (RequestSchema json) as [r|] eqn:Hparse; [|discriminate].
  apply RequestSchema_proposal in Hparse as [Hty Hname]. rewrite Hty.
  cbv zeta.
  destruct (negb _ && negb _); [discriminate|].
  destruct (bool_decide _ && negb _); [discriminate|].
  assert (Hcommit :
    match apply_project_event plpgsql_variable_conflict now (projectId r) userId
            "project.rename" {[ "name" := BStr (payload_name (proposal_of r)) ]}
            (db w1) with
    | (_, inl e) => (console_error "Failed to apply event:" w1, ApplyFailed (Some e))
    | (db', inr applied) =>
        (with_db db' w1,
         Committed (projectId r) applied (key_or_undefined (idempotencyKey r)))
    end = (w', Committed p (s, snap) k) →
    ∃ a name,
      valid_name name
      ∧ project_events (db w')
        = project_events (db w)
            ++ [{| ev_project_id := p; ev_actor_id := a; ev_seq := s;
                   ev_type := "project.rename";
                   ev_payload := {[ "name" := BStr name ]} |}]
      ∧ project_projections (db w')
        = <[p := {| head_seq := s;
                    snapshot := <["name" := BStr name]> (snapshot_of (db w) p);
                    pr_updated_at := now |}]> (project_projections (db w))).
  { destruct (apply_project_event _ _ _ _ _ _ _) as [db' [e|[s0 snap0]]] eqn:Hap;
      [discriminate|].
    intros [= <- <- <- <- <-]. simpl.
    apply apply_project_event_inr in Hap.
    pose proof (apply_project_event_done_snapshot _ _ _ _ _ _ _ _ _ Hap) as ->.
    apply apply_project_event_body_done in Hap
      as (_ & _ & (sn & [= <-] & Hproj) & Hev).
    exists userId, (payload_name (proposal_of r)).
    split; [exact Hname|]. by rewrite Hev, Hproj, He, Hp, Hs. }
  destruct (baseSeq r) as [expected|].
  - destruct (projection_select_down f); [discriminate|].
    destruct (bool_decide _); [discriminate|].
    destruct (apply_rpc_down f); [discriminate | exact Hcommit].
  - destruct (apply_rpc_down f); [discriminate | exact Hcommit].
Qed.

Lemma events_of_app p log row :
  events_of p (log ++ [row])
  = events_of p log ++ (if bool_decide (ev_project_id row = p) then [row] else []).
Proof.
  unfold events_of. rewrite filter_app, filter_cons, filter_nil.
  destruct (decide (ev_project_id row = p)) as [Heq|Hne].
  - by rewrite bool_decide_eq_true_2.
  - by rewrite bool_decide_eq_false_2.
Qed.

(** One request keeps the projection of every project the replay of its
    log. *)
Lemma serve_keeps_replay f now req w w' resp p :
  serve f now req w = (w', resp) →
  projection_replays_log (db w) p → projection_replays_log (db w') p.
Proof.
  intros Hserve Hinv.
  destruct resp as [| | | | | | | | |p' [s snap] k|];
    try (apply serve_effect in Hserve as [Hp He];
         unfold projection_replays_log, snapshot_of in *; by rewrite Hp, He).
  apply serve_committed in Hserve as (a & name & Hname & Hev & Hproj).
  unfold projection_replays_log. rewrite Hev, events_of_app. cbn [ev_project_id].
  destruct (decide (p' = p)) as [->|Hne].
  - rewrite bool_decide_eq_true_2 by done.
    assert (Hsnap : snapshot_of (db w') p
                    = <["name" := BStr name]> (snapshot_of (db w) p))
      by (unfold snapshot_of at 1; by rewrite Hproj, lookup_insert_eq).
    destruct Hinv as [(events & Hevents) Hall]. split.
    + exists (events ++ [rename_event (JStr name)]).
      apply Forall2_app; [exact Hevents|]. constructor; [|constructor].
      split; [reflexivity|]. eexists. split; [reflexivity|].
      intros k'. cbn [ev_payload]. destruct (decide (k' = "name")) as [->|Hk].
      * rewrite lookup_singleton_eq, lookup_insert_eq. constructor. constructor.
      * rewrite lookup_singleton_ne, lookup_insert_ne, lookup_empty by done.
        constructor.
    + intros events' Hevents'.
      apply Forall2_app_inv_l in Hevents' as (es & last & Hes & Hlast & ->).
      apply Forall2_cons_inv_l in Hlast as (e & rest & (Hty & payload & Hpl & Hsame)
                                            & Hrest & ->).
      apply Forall2_nil_inv_l in Hrest as ->.
      destruct (Hall es Hes) as (s0 & Hreplay & Hsnap0).
      assert (He : is_rename_of e name).
      { split; [exact Hty|]. exists payload. split; [exact Hpl|].
        specialize (Hsame "name"). cbn [ev_payload] in Hsame.
        rewrite lookup_singleton_eq in Hsame.
        inversion Hsame as [x y Hxy Hx Hy|]; subst. by inversion Hxy. }
      exists (<["name" := JStr name]> s0). split.
      * rewrite (applyEvents_cat es [e] createInitialSnapshot), Hreplay.
        simpl. by rewrite (applyEvent_is_rename _ _ _ He Hname).
      * rewrite Hsnap. by apply same_json_insert.
  - rewrite bool_decide_eq_false_2 by done. rewrite app_nil_r.
    assert (Hsnap : snapshot_of (db w') p = snapshot_of (db w) p)
      by (unfold snapshot_of; by rewrite Hproj, lookup_insert_ne).
    by rewrite Hsnap.
Qed.

Lemma run_keeps_replay calls : ∀ w w' rs p,
  run calls w = (w', rs) →
  projection_replays_log (db w) p → projection_replays_log (db w') p.
Proof.
  induction calls as [|c calls IH]; intros w w' rs p; simpl.
  - by intros [= <- <-].
  - destruct (serve _ _ _ w) as [w1 r] eqn:Hserve.
    destruct (run calls w1) as [w2 rs'] eqn:Hrun.
    intros [= <- <-] Hinv.
    eapply IH; [exact Hrun|]. eapply serve_keeps_replay; [exact Hserve | exact Hinv].
Qed.

Lemma no_events_replays d p :
  project_events d = [] → project_projections d !! p = None →
  projection_replays_log d p.
Proof.
  intros He Hp. unfold projection_replays_log, snapshot_of, events_of.
  rewrite He, Hp. split; [exists []; constructor|].
  intros events Hev. apply Forall2_nil_inv_l in Hev as ->.
  exists ∅. split; [reflexivity | apply same_json_empty].
Qed.

(** The projection stays the replay of the log.  Over any sequence of
    requests to the commit endpoint, whatever the backend failures and the
    database setting: when the snapshot of a project's projection is what
    [applyEvents] computes from the project's log before the requests, it is
    so after them; in particular it is so after any requests to a database
    that had no events and no projection of the project. *)
Theorem projection_stays_replay_of_log
    (calls : list call) (w w' : world) (rs : list response) (p : uuid) :
  run calls w = (w', rs) →
  (projection_replays_log (db w) p → projection_replays_log (db w') p)
  ∧ (project_events (db w) = [] → project_projections (db w) !! p = None →
     projection_replays_log (db w') p).
Proof.
  intros Hrun. split.
  - apply (run_keeps_replay calls w w' rs p Hrun).
  - intros He Hp. apply (run_keeps_replay calls w w' rs p Hrun).
    by apply no_events_replays.
Qed.

End LogReplayFacts.

Section LogReplayExamples.
Import Js Reducer Sql Runtime ProjectEvents Mutate Replay LogReplay Examples.
#[local] Existing Instance Reference.platform_use_column.

(** After the five renames of the example the projection of the aggregate
    is the replay of its five events. *)
Lemma projection_stays_replay_of_log_witness :
  projection_replays_log (db (fst (run five_commits w0))) project_A.
Proof.
  apply (projection_stays_replay_of_log five_commits w0 _ (snd (run five_commits w0))).
  - apply surjective_pairing.
  - reflexivity.
  - reflexivity.
Defined.

End LogReplayExamples.

(** ** What the commit endpoint leaves alone *)
Section MutateFrame.
Import Js Sql Runtime ProjectEvents Mutate MutateCases.
Context `{Platform}.

Lemma same_outside_log_refl d : same_outside_log d d.
Proof. by repeat split. Qed.

Lemma same_outside_log_trans d1 d2 d3 :
  same_outside_log d1 d2 → same_outside_log d2 d3 → same_outside_log d1 d3.
Proof.
  intros (? & ? & ? & ? & ?) (? & ? & ? & ? & ?). repeat split; congruence.
Qed.

Lemma keeps_bind {A B} (m : stmt A) (k : A → stmt B) :
  keeps_outside_log m → (∀ a, keeps_outside_log (k a)) →
  keeps_outside_log (bind m k).
Proof.
  intros Hm Hk d d' b. unfold bind.
  destruct (m d) as [d1 a|] eqn:Hmd; [|discriminate].
  intros Hkd. eapply same_outside_log_trans; [by eapply Hm | by eapply Hk].
Qed.

Lemma keeps_ret {A} (a : A) : keeps_outside_log (ret a).
Proof. intros d d' a'. unfold ret. intros [= <- _]. apply same_outside_log_refl. Qed.

Lemma keeps_raise {A} e : keeps_outside_log (@raise A e).
Proof. intros d d' a. discriminate. Qed.

Lemma keeps_read {A} (f : database → A) : keeps_outside_log (read f).
Proof. intros d d' a. unfold read. intros [= <- _]. apply same_outside_log_refl. Qed.

Lemma apply_project_event_body_keeps vc now p a t payload :
  keeps_outside_log (apply_project_event_body vc now p a t payload).
Proof.
  unfold apply_project_event_body, mbind, stmt_bind, mret, stmt_ret.
  apply keeps_bind.
  { unfold resolve. repeat case_match; auto using keeps_ret, keeps_raise. }
  intros ref. apply keeps_bind; [apply keeps_read|].
  intros row. apply keeps_bind.
  { destruct row as [r|]; [apply keeps_ret|].
    apply keeps_bind; [|intros; apply keeps_ret].
    intros d d' u. unfold insert_projection.
    repeat case_match; try discriminate. by intros [= <- _]. }
  intros [h cur]. apply keeps_bind.
  { unfold bigint_add. case_match; auto using keeps_ret, keeps_raise. }
  intros next. apply keeps_bind.
  { case_match; auto using keeps_ret, keeps_raise. }
  intros new. apply keeps_bind.
  { intros d d' u. unfold insert_event.
    repeat case_match; try discriminate. by intros [= <- _]. }
  intros _. apply keeps_bind; [|intros; apply keeps_ret].
  intros d d' u. unfold update_projection.
  destruct new; [|discriminate]. unfold write. by intros [= <- _].
Qed.

Lemma apply_project_event_keeps vc now p a t payload d d' res :
  apply_project_event vc now p a t payload d = (d', res) → same_outside_log d d'.
Proof.
  unfold apply_project_event, transaction.
  destruct (apply_project_event_body _ _ _ _ _ _ _) as [d1 r|d1 e] eqn:Hbody.
  - intros [= <- _]. by eapply apply_project_event_body_keeps.
  - intros [= <- _]. apply same_outside_log_refl.
Qed.

(** The commit endpoint writes the event log and the projections on a
    commit and nothing else.  Whatever the request, the backend failures and
    the database setting: users, projects, memberships, sessions and the AI
    usage ledger are as they were after the request, and unless the response
    is a commit (status 200 to a [POST]) so are the event log and the
    projections. *)
Theorem mutate_writes_only_on_commit
    (f : faults) (now : timestamptz) (req : request) (w : world) :
  let w' := fst (serve f now req w) in
  let resp := snd (serve f now req w) in
  sessions w' = sessions w
  ∧ auth_users (db w') = auth_users (db w)
  ∧ projects (db w') = projects (db w)
  ∧ project_members (db w') = project_members (db w)
  ∧ ai_usage (db w') = ai_usage (db w)
  ∧ ((status resp ≠ 200 ∨ method req ≠ "POST") →
     project_events (db w') = project_events (db w)
     ∧ project_projections (db w') = project_projections (db w)).
Proof.
  cbv zeta.
  destruct (serve f now req w) as [w' resp] eqn:Hserve. cbn [fst snd].
  pose proof (serve_effect _ _ _ _ _ _ Hserve) as Heffect.
  assert (Hlog : (status resp ≠ 200 ∨ method req ≠ "POST") →
            project_events (db w') = project_events (db w)
            ∧ project_projections (db w') = project_projections (db w)).
  { intros Hfail. destruct resp as [| | | | | | | | |p [s snap] k|];
      try (destruct Heffect as [Hp He]; by rewrite Hp, He).
    destruct Hfail as [Hst|Hm]; [by destruct Hst|].
    exfalso. revert Hserve. unfold serve.
    destruct (String.eqb (method req) "OPTIONS"); [discriminate|].
    destruct (String.eqb_spec (method req) "POST"); [done | discriminate]. }
  revert Hserve. unfold serve.
  destruct (String.eqb (method req) "OPTIONS"); [by intros [= <- <-]|].
  destruct (negb (String.eqb (method req) "POST")); [by intros [= <- <-]|].
  destruct (Auth.verifyAuth w req) as [userId authError].
  destruct (bool_decide (is_Some authError) || String.eqb userId ""); [by intros [= <- <-]|].
  destruct (RateLimit.checkRateLimit f now userId w) as [w1 rl] eqn:Hrl.
  apply checkRateLimit_frame in Hrl as [Hsess [t Hdb]].
  assert (Hframe : sessions w1 = sessions w
                   ∧ auth_users (db w1) = auth_users (db w)
                   ∧ projects (db w1) = projects (db w)
                   ∧ project_members (db w1) = project_members (db w)
                   ∧ ai_usage (db w1) = ai_usage (db w))
    by (rewrite Hdb; done).
  clear Hdb Hsess.
  destruct (negb (RateLimit.allowed rl)); [intros [= <- <-]; tauto|].
  destruct (body req) as [json|]; [|intros [= <- <-]; tauto].
  destruct (RequestSchema json) as [r|]; [|intros [= <- <-]; tauto].
  cbv zeta.
  destruct (negb _ && negb _); [intros [= <- <-]; tauto|].
  destruct (bool_decide _ && negb _); [intros [= <- <-]; tauto|].
  assert (Hcommit : ∀ w2 resp2,
    match apply_project_event plpgsql_variable_conflict now (projectId r) userId
            (type (proposal_of r)) {[ "name" := BStr (payload_name (proposal_of r)) ]}
            (db w1) with
    | (_, inl e) => (console_error "Failed to apply event:" w1, ApplyFailed (Some e))
    | (db', inr applied) =>
        (with_db db' w1,
         Committed (projectId r) applied (key_or_undefined (idempotencyKey r)))
    end = (w2, resp2) →
    sessions w2 = sessions w
    ∧ auth_users (db w2) = auth_users (db w)
    ∧ projects (db w2) = projects (db w)
    ∧ project_members (db w2) = project_members (db w)
    ∧ ai_usage (db w2) = ai_usage (db w)).
  { intros w2 resp2.
    destruct (apply_project_event _ _ _ _ _ _ _) as [db' [e|applied]] eqn:Hap.
    - intros [= <- _]. exact Hframe.
    - intros [= <- _]. apply apply_project_event_keeps in Hap as (? & ? & ? & ? & ?).
      destruct Hframe as (? & ? & ? & ? & ?). simpl. repeat split; congruence. }
  destruct (baseSeq r) as [expected|].
  - destruct (projection_select_down f); [intros [= <- <-]; tauto|].
    destruct (bool_decide _); [intros [= <- <-]; tauto|].
    destruct (apply_rpc_down f); [intros [= <- <-]; tauto|].
    intros Hc. pose proof (Hcommit _ _ Hc). tauto.
  - destruct (apply_rpc_down f); [intros [= <- <-]; tauto|].
    intros Hc. pose proof (Hcommit _ _ Hc). tauto.
Qed.

End MutateFrame.

(** ** Who may commit *)
Section MutateAuthorization.
Import Js Sql Runtime ProjectEvents Mutate MutateCases.
Context `{Platform}.

(** Only the owner of a project and its editors get past the membership
    check.  For a request that passes authentication, rate limiting and
    validation, with the backend up: a user who is neither the owner of the
    project nor one of its editors is answered 403 and the world stays as the
    rate limiter left it, a viewer with the message for viewers, anyone else
    (also a member whose role is ['owner'] without being the owner of the
    project) as not a member; the owner and the editors are never answered
    403. *)
Theorem mutate_forbidden_unless_editor
    (now : timestamptz) (req : request) (w w1 : world) (userId : string)
    (r : mutate_request) :
  admitted no_faults now req w userId r w1 →
  (¬ may_edit (db w1) userId (projectId r) →
   serve no_faults now req w
   = (w1, Forbidden (if bool_decide (project_members (db w1) !! (projectId r, userId)
                                     = Some Viewer)
                     then "Forbidden: Viewers cannot modify projects"
                     else "Forbidden: Not a project member")))
  ∧ (may_edit (db w1) userId (projectId r) →
     status (snd (serve no_faults now req w)) ≠ 403).
Proof.
  intros Hadm. split.
  - intros Hnot.
    destruct Hadm as (Hm & Hauth & Hne & (rl & Hrl & Hall) & json & Hbody & Hparse).
    unfold serve.
    replace (String.eqb (method req) "OPTIONS") with false by (by rewrite Hm).
    replace (negb (String.eqb (method req) "POST")) with false by (by rewrite Hm).
    rewrite Hauth.
    replace (bool_decide (is_Some None) || String.eqb userId "") with false
      by (symmetry; apply orb_false_iff; split;
          [apply bool_decide_eq_false_2; intros [? ?]; discriminate
          | by apply String.eqb_neq]).
    rewrite Hrl, Hall, Hbody, Hparse. cbv zeta.
    change (members_select_down no_faults) with false.
    change (projects_select_down no_faults) with false.
    cbv iota.
    assert (Hown : match projects (db w1) !! projectId r with
                   | Some p => String.eqb (owner_id p) userId
                   | None => false
                   end = false).
    { destruct (projects (db w1) !! projectId r) as [row|] eqn:Hrow; [|reflexivity].
      apply String.eqb_neq. intros Heq. apply Hnot. left. eauto. }
    rewrite Hown.
    destruct (project_members (db w1) !! (projectId r, userId)) as [[| |]|] eqn:Hmem;
      simpl; try reflexivity.
    exfalso. apply Hnot. by right.
  - intros Hedit. rewrite (serve_admitted now req w userId r w1 Hadm Hedit).
    cbv zeta. destruct (baseSeq r) as [b|].
    + destruct (bool_decide _); [simpl; lia|].
      destruct (apply_project_event _ _ _ _ _ _ _) as [d [e|a]]; simpl; lia.
    + destruct (apply_project_event _ _ _ _ _ _ _) as [d [e|a]]; simpl; lia.
Qed.

End MutateAuthorization.

Section MutateAuthorizationExamples.
Import Js Sql Runtime ProjectEvents Mutate MutateCases Examples.
#[local] Existing Instance Reference.platform_use_column.

(** [bob], a viewer of [project_A], is refused. *)
Lemma mutate_forbidden_unless_editor_witness :
  serve no_faults t0 (bob_commit_request "Mine") (world_with_member Viewer)
  = (fst (RateLimit.checkRateLimit no_faults t0 bob (world_with_member Viewer)),
     Forbidden "Forbidden: Viewers cannot modify projects").
Proof.
  refine (proj1 (mutate_forbidden_unless_editor t0 (bob_commit_request "Mine")
                   (world_with_member Viewer)
                   (fst (RateLimit.checkRateLimit no_faults t0 bob
                           (world_with_member Viewer)))
                   bob
                   {| projectId := project_A;
                      baseSeq := None;
                      proposal_of := {| type := "project.rename"; payload_name := "Mine" |};
                      idempotencyKey := None |} _) _).
  - split_and!.
    + reflexivity.
    + vm_compute. reflexivity.
    + discriminate.
    + eexists. split; [apply surjective_pairing | vm_compute; reflexivity].
    + exists (default JNull (body (bob_commit_request "Mine"))).
      split; vm_compute; reflexivity.
  - intros [(row & Hrow & Hown)|Hmem].
    + vm_compute in Hrow. injection Hrow as <-. discriminate Hown.
    + vm_compute in Hmem. discriminate Hmem.
Defined.

(** A member with role ['owner'] who does not own the project is refused as
    not a member; an editor commits. *)
Example member_roles_at_the_commit_endpoint :
  snd (serve no_faults t0 (bob_commit_request "Mine") (world_with_member Owner))
  = Forbidden "Forbidden: Not a project member"
  ∧ snd (serve no_faults t0 (bob_commit_request "Mine") (world_with_member Editor))
    = Committed project_A (1, Some {[ "name" := BStr "Mine" ]}) None.
Proof. split; vm_compute; reflexivity. Qed.

End MutateAuthorizationExamples.


(** ** The idempotency key *)
Section IdempotencyKey.
Import Js Sql Runtime ProjectEvents Mutate MutateCases.
Context `{Platform}.

Lemma RequestSchema_up_to_key o1 o2 :
  (∀ k, k ≠ "idempotencyKey" → o1 !! k = o2 !! k) →
  optional_string (o1 !! "idempotencyKey") →
  optional_string (o2 !! "idempotencyKey") →
  match RequestSchema (JObj o1), RequestSchema (JObj o2) with
  | Some r1, Some r2 =>
      projectId r1 = projectId r2 ∧ baseSeq r1 = baseSeq r2
      ∧ proposal_of r1 = proposal_of r2
  | None, None => True
  | _, _ => False
  end.
Proof.
  intros Hsame Hk1 Hk2. unfold RequestSchema, prop.
  rewrite <- (Hsame "projectId"), <- (Hsame "baseSeq"), <- (Hsame "proposal")
    by discriminate.
  destruct (default JUndefined (o1 !! "projectId")); try exact I.
  destruct (zod_uuid s); [|exact I].
  destruct (baseSeqSchema _) as [b|]; [|exact I]. simpl.
  destruct (ProposalSchema _) as [p|]; [|exact I]. simpl.
  destruct Hk1 as [->|[s1 ->]], Hk2 as [->|[s2 ->]]; simpl; done.
Qed.

(** The idempotency key is echoed and nothing else.  Two requests that
    differ in nothing but their [idempotencyKey] (a string, or none) leave the
    same world and get the same response, up to the key in the response of a
    commit: the key decides neither whether an event is committed nor
    which. *)
Theorem idempotency_key_is_only_echoed
    (f : faults) (now : timestamptz) (meth : string) (auth : option string)
    (o1 o2 : gmap string jsval) (w : world) :
  (∀ k, k ≠ "idempotencyKey" → o1 !! k = o2 !! k) →
  optional_string (o1 !! "idempotencyKey") →
  optional_string (o2 !! "idempotencyKey") →
  let req1 := {| method := meth; authorization := auth; body := Some (JObj o1) |} in
  let req2 := {| method := meth; authorization := auth; body := Some (JObj o2) |} in
  fst (serve f now req1 w) = fst (serve f now req2 w)
  ∧ without_key (snd (serve f now req1 w)) = without_key (snd (serve f now req2 w)).
Proof.
  intros Hsame Hk1 Hk2 req1 req2.
  pose proof (RequestSchema_up_to_key o1 o2 Hsame Hk1 Hk2) as Hparse.
  unfold serve, req1, req2. cbn [method body].
  destruct (String.eqb meth "OPTIONS"); [done|].
  destruct (negb (String.eqb meth "POST")); [done|].
  change (Auth.verifyAuth w {| method := meth; authorization := auth;
                               body := Some (JObj o2) |})
    with (Auth.verifyAuth w {| method := meth; authorization := auth;
                               body := Some (JObj o1) |}).
  destruct (Auth.verifyAuth w _) as [userId authError].
  destruct (bool_decide (is_Some authError) || String.eqb userId ""); [done|].
  destruct (RateLimit.checkRateLimit f now userId w) as [w1 rl].
  destruct (negb (RateLimit.allowed rl)); [done|].
  destruct (RequestSchema (JObj o1)) as [[p1 b1 pr1 k1]|],
           (RequestSchema (JObj o2)) as [[p2 b2 pr2 k2]|]; try done.
  cbn [projectId baseSeq proposal_of idempotencyKey] in *.
  destruct Hparse as (-> & -> & ->).
  cbv zeta.
  destruct (negb _ && negb _); [done|].
  destruct (bool_decide _ && negb _); [done|].
  destruct b2 as [expected|].
  - destruct (projection_select_down f); [done|].
    destruct (bool_decide _); [done|].
    destruct (apply_rpc_down f); [done|].
    by destruct (apply_project_event _ _ _ _ _ _ _) as [d [e|a]].
  - destruct (apply_rpc_down f); [done|].
    by destruct (apply_project_event _ _ _ _ _ _ _) as [d [e|a]].
Qed.

End IdempotencyKey.

Section IdempotencyKeyExamples.
Import Js Sql Runtime ProjectEvents Mutate MutateCases Examples.
#[local] Existing Instance Reference.platform_use_column.

(** The rename of the example, without a key and with the key ['k-1']. *)
Lemma idempotency_key_is_only_echoed_witness :
  fst (serve no_faults t0 (commit_request None "One") w0)
  = fst (serve no_faults t0
           {| method := "POST"; authorization := Some "Bearer alice-token";
              body := Some (JObj (<["idempotencyKey" := JStr "k-1"]>
                                    (<["projectId" := JStr project_A]>
                                       (<["proposal" := Reducer.rename_event (JStr "One")]>
                                          ∅)))) |} w0).
Proof.
  refine (proj1 (idempotency_key_is_only_echoed no_faults t0 "POST"
                   (Some "Bearer alice-token")
                   (<["projectId" := JStr project_A]>
                      (<["proposal" := Reducer.rename_event (JStr "One")]> ∅))
                   (<["idempotencyKey" := JStr "k-1"]>
                      (<["projectId" := JStr project_A]>
                         (<["proposal" := Reducer.rename_event (JStr "One")]> ∅)))
                   w0 _ _ _)).
  - intros k Hk. symmetry. apply lookup_insert_ne. congruence.
  - left. reflexivity.
  - right. exists "k-1". reflexivity.
Defined.

(** Sent twice with the same key, the rename is committed twice. *)
Example same_key_commits_twice :
  let req := {| method := "POST"; authorization := Some "Bearer alice-token";
                body := Some (JObj (<["idempotencyKey" := JStr "k-1"]>
                                      (<["projectId" := JStr project_A]>
                                         (<["proposal" := Reducer.rename_event (JStr "One")]>
                                            ∅)))) |} in
  snd (run [ {| call_faults := no_faults; call_now := t0; call_request := req |};
             {| call_faults := no_faults; call_now := t0 + 1000000;
                call_request := req |} ] w0)
  = [ Committed project_A (1, Some {[ "name" := BStr "One" ]}) (Some "k-1");
      Committed project_A (2, Some {[ "name" := BStr "One" ]}) (Some "k-1") ].
Proof. vm_compute. reflexivity. Qed.

End IdempotencyKeyExamples.


(** ** What the AI endpoint writes *)
Section AiProxyFrame.
Import Js Sql Runtime AiUsageSql AiProxy AiProxyCases.
Context `{Platform}.

Lemma recordAIUsage_frame f now u pid pv m tin tout cost st w :
  let w' := recordAIUsage f now u pid pv m tin tout cost st w in
  sessions w' = sessions w
  ∧ auth_users (db w') = auth_users (db w)
  ∧ projects (db w') = projects (db w)
  ∧ project_members (db w') = project_members (db w)
  ∧ project_events (db w') = project_events (db w)
  ∧ project_projections (db w') = project_projections (db w)
  ∧ rate_limits (db w') = rate_limits (db w)
  ∧ ∃ rows, ai_usage (db w') = ai_usage (db w) ++ rows
            ∧ (length rows ≤ 1)%nat
            ∧ Forall (λ row, au_user_id row = u ∧ au_status row = st
                             ∧ au_created_at row = now) rows.
Proof.
  cbv zeta. unfold recordAIUsage.
  assert (Hfailed : ∀ w0 : world,
    ∃ rows, ai_usage (db (console_error "Failed to record AI usage:" w0))
            = ai_usage (db w0) ++ rows
            ∧ (length rows ≤ 1)%nat
            ∧ Forall (λ row, au_user_id row = u ∧ au_status row = st
                             ∧ au_created_at row = now) rows).
  { intros w0. exists []. simpl. rewrite app_nil_r. split; [done|]. split; [lia|constructor]. }
  destruct (usage_insert_down f); [by repeat split|].
  destruct (usage_row _ _ _ _ _ _ _ _ _) as [row|] eqn:Hrow; [|by repeat split].
  unfold transaction, insert_ai_usage.
  repeat (match goal with
          | |- context [if ?c then _ else _] => destruct c; [by repeat split|]
          end).
  simpl. repeat split; try done.
  exists [row]. split; [done|]. split; [simpl; lia|].
  constructor; [|constructor].
  unfold usage_row in Hrow.
  destruct (integer_value tin); [|discriminate].
  destruct (integer_value tout); [|discriminate].
  destruct (numeric_of_number cost); [|discriminate].
  injection Hrow as <-. done.
Qed.

(** The AI endpoint writes the usage ledger and nothing else, and only
    appends to it.  Whatever the request and the backend failures: users,
    projects, memberships, sessions, the event log and the projections are
    as they were after the request; the ledger is the old ledger followed by
    at most one new row; a response that is not the answer to a metered call
    (a preflight, 405, 401, 429 or 400) leaves no row; and a row that is
    written is stamped with the instant of the request and has status [ok]
    exactly when the response is the 200 of a served call. *)
Theorem ai_proxy_appends_to_the_ledger_only
    (f : faults) (now : timestamptz) (req : request) (w : world) :
  let w' := fst (serve f now req w) in
  let resp := snd (serve f now req w) in
  sessions w' = sessions w
  ∧ auth_users (db w') = auth_users (db w)
  ∧ projects (db w') = projects (db w)
  ∧ project_members (db w') = project_members (db w)
  ∧ project_events (db w') = project_events (db w)
  ∧ project_projections (db w') = project_projections (db w)
  ∧ ∃ rows, ai_usage (db w') = ai_usage (db w) ++ rows
            ∧ (length rows ≤ 1)%nat
            ∧ (metered resp = false → rows = [])
            ∧ Forall (λ row, au_created_at row = now
                             ∧ (au_status row = StatusOk ↔ status resp = 200)) rows.
Proof.
  cbv zeta. unfold serve.
  assert (Hnone : ∀ (w0 : world) resp,
            metered resp = false →
            ∃ rows, ai_usage (db w0) = ai_usage (db w0) ++ rows
                    ∧ (length rows ≤ 1)%nat
                    ∧ (metered resp = false → rows = [])
                    ∧ Forall (λ row, au_created_at row = now
                                     ∧ (au_status row = StatusOk ↔ status resp = 200))
                             rows).
  { intros w0 resp _. exists []. rewrite app_nil_r. repeat split; [simpl; lia | constructor]. }
  destruct (String.eqb (method req) "OPTIONS"); [by repeat split; try apply Hnone|].
  destruct (negb (String.eqb (method req) "POST")); [by repeat split; try apply Hnone|].
  destruct (Auth.verifyAuth w req) as [userId authError].
  destruct (bool_decide (is_Some authError) || String.eqb userId "");
    [by repeat split; try apply Hnone|].
  destruct (RateLimit.checkRateLimit f now userId w) as [w1 rl] eqn:Hrl.
  apply checkRateLimit_frame in Hrl as [Hsess [t Hdb]].
  assert (Hframe : sessions w1 = sessions w
                   ∧ auth_users (db w1) = auth_users (db w)
                   ∧ projects (db w1) = projects (db w)
                   ∧ project_members (db w1) = project_members (db w)
                   ∧ project_events (db w1) = project_events (db w)
                   ∧ project_projections (db w1) = project_projections (db w)
                   ∧ ai_usage (db w1) = ai_usage (db w))
    by (rewrite Hdb; done).
  clear Hdb Hsess. destruct Hframe as (Hs & Hu & Hp & Hm & He & Hj & Hl).
  assert (Hquiet : ∀ resp, metered resp = false →
            sessions w1 = sessions w
            ∧ auth_users (db w1) = auth_users (db w)
            ∧ projects (db w1) = projects (db w)
            ∧ project_members (db w1) = project_members (db w)
            ∧ project_events (db w1) = project_events (db w)
            ∧ project_projections (db w1) = project_projections (db w)
            ∧ ∃ rows, ai_usage (db w1) = ai_usage (db w) ++ rows
                      ∧ (length rows ≤ 1)%nat
                      ∧ (metered resp = false → rows = [])
                      ∧ Forall (λ row, au_created_at row = now
                                       ∧ (au_status row = StatusOk ↔ status resp = 200))
                               rows).
  { intros resp Hresp. repeat split; try done.
    rewrite Hl. by apply Hnone. }
  destruct (negb (RateLimit.allowed rl)); [by apply Hquiet|].
  destruct (body req) as [json|]; [|by apply Hquiet].
  destruct (RequestSchema json) as [r|]; [|by apply Hquiet].
  assert (Hrecorded : ∀ tin tout cost st resp,
            (st = StatusOk ↔ status resp = 200) →
            let w' := recordAIUsage f now userId (project_id r) (provider r) (model r)
                                    tin tout cost st w1 in
            sessions w' = sessions w
            ∧ auth_users (db w') = auth_users (db w)
            ∧ projects (db w') = projects (db w)
            ∧ project_members (db w') = project_members (db w)
            ∧ project_events (db w') = project_events (db w)
            ∧ project_projections (db w') = project_projections (db w)
            ∧ ∃ rows, ai_usage (db w') = ai_usage (db w) ++ rows
                      ∧ (length rows ≤ 1)%nat
                      ∧ (true = false → rows = [])
                      ∧ Forall (λ row, au_created_at row = now
                                       ∧ (au_status row = StatusOk ↔ status resp = 200))
                               rows).
  { intros tin tout cost st resp Hst.
    destruct (recordAIUsage_frame f now userId (project_id r) (provider r) (model r)
                tin tout cost st w1)
      as (Hs' & Hu' & Hp' & Hm' & He' & Hj' & _ & rows & Hrows & Hlen & Hall).
    cbv zeta. repeat split; try congruence.
    exists rows. split; [congruence|]. split; [exact Hlen|]. split; [discriminate|].
    eapply Forall_impl; [exact Hall|]. intros row (_ & -> & ->). done. }
  destruct (negb (allowed (checkBudget f now userId (project_id r) w1))).
  - cbn [fst snd]. apply (Hrecorded 0 0 0 StatusFailed (BudgetExceeded _))%float.
    split; [discriminate | simpl; lia].
  - destruct (ai_provider (provider r) (model r) (prompt r)) as [res|err]; cbn [fst snd].
    + apply (Hrecorded _ _ _ StatusOk (Success _ _ _ _)). done.
    + apply (Hrecorded 0 0 0 StatusFailed (ProviderFailed _))%float.
      split; [discriminate | simpl; lia].
Qed.

End AiProxyFrame.


(** ** The day of the budget *)
Section BudgetDay.
Import Js Sql Runtime AiUsageSql AiProxy AiProxyCases.
Context `{Platform}.

Lemma since_ok_iff t r : since_ok (Some t) r = true ↔ t ≤ au_created_at r.
Proof. apply Z.leb_le. Qed.

(** The budget is a budget of the day.  The budget check reads the rows of
    the ledger created at or after the local midnight before the request and
    no others: it answers the same on the ledger cut down to those rows; and
    when every row of the ledger is older than that midnight it lets the call
    through, whatever was spent before. *)
Theorem budget_counts_the_current_day
    (f : faults) (now : timestamptz) (u : string) (pid : option uuid) (w : world) :
  checkBudget f now u pid w = checkBudget f now u pid (ledger_since (today now) w)
  ∧ ((∀ row, row ∈ ai_usage (db w) → au_created_at row < today now) →
     checkBudget f now u pid w = budget_allowed).
Proof.
  assert (Huser : user_spend now u w = user_spend now u (ledger_since (today now) w)).
  { unfold user_spend, get_user_ai_cost, ledger_since.
    cbn [db with_db ai_usage with_ai_usage]. f_equal.
    rewrite list_filter_filter. apply list_filter_iff. intros r.
    rewrite since_ok_iff. tauto. }
  assert (Hproj : ∀ id, project_spend now id w
                        = project_spend now id (ledger_since (today now) w)).
  { intros id. unfold project_spend, get_project_ai_cost, ledger_since.
    cbn [db with_db ai_usage with_ai_usage]. f_equal.
    rewrite list_filter_filter. apply list_filter_iff. intros r.
    rewrite since_ok_iff. tauto. }
  split.
  - unfold checkBudget. rewrite Huser. destruct pid as [id|]; [|reflexivity].
    by rewrite Hproj.
  - intros Hold.
    assert (Hnone : filter (λ r, today now ≤ au_created_at r) (ai_usage (db w)) = []).
    { induction (ai_usage (db w)) as [|r l IH]; [reflexivity|].
      rewrite filter_cons, decide_False.
      - apply IH. intros row Hin. apply Hold. by apply list_elem_of_further.
      - specialize (Hold r (list_elem_of_here _ _)). lia. }
    unfold checkBudget. rewrite Huser.
    assert (Hu0 : user_spend now u (ledger_since (today now) w) = 0%Q).
    { unfold user_spend, get_user_ai_cost, ledger_since.
      cbn [db with_db ai_usage with_ai_usage]. by rewrite Hnone. }
    rewrite Hu0.
    destruct pid as [id|].
    + rewrite Hproj.
      assert (Hp0 : project_spend now id (ledger_since (today now) w) = 0%Q).
      { unfold project_spend, get_project_ai_cost, ledger_since.
        cbn [db with_db ai_usage with_ai_usage]. by rewrite Hnone. }
      rewrite Hp0. unfold budget_decision.
      destruct (user_cost_rpc_down f), (project_cost_rpc_down f); simpl;
        by destruct (negb (String.eqb id "")).
    + unfold budget_decision. by destruct (user_cost_rpc_down f).
Qed.

End BudgetDay.


(** ** A call priced at [NaN] *)
Section UnpricedCall.
Import Js Sql Runtime AiUsageSql AiProxy AiProxyCases.
Context `{Platform}.

Lemma is_nan_Prim2SF x : Prim2SF x = S754_nan → PrimFloat.is_nan x = true.
Proof. intros Hx. unfold PrimFloat.is_nan. by rewrite FloatAxioms.eqb_spec, Hx. Qed.

Lemma is_nan_inv x : PrimFloat.is_nan x = true → Prim2SF x = S754_nan.
Proof.
  unfold PrimFloat.is_nan. rewrite FloatAxioms.eqb_spec.
  destruct (Prim2SF x) as [s|s| |s m e]; try reflexivity.
  - destruct s; discriminate.
  - destruct s; discriminate.
  - unfold SFeqb, SFcompare.
    destruct s; rewrite Z.compare_refl, Pos.compare_refl; discriminate.
Qed.

Lemma mul_nan x : Prim2SF (x * nan) = S754_nan.
Proof.
  rewrite mul_spec. change (Prim2SF nan) with S754_nan.
  unfold SF64mul, SFmul. by destruct (Prim2SF x).
Qed.

Lemma add_nan x y : Prim2SF x = S754_nan → Prim2SF (x + y) = S754_nan.
Proof. intros Hx. by rewrite add_spec, Hx. Qed.

(** Whatever the token counts, the cost of a model name that the price table
    inherits is [NaN]. *)
Lemma calculateCost_inherited model tokensIn tokensOut :
  cost_entry model = Inherited →
  PrimFloat.is_nan (calculateCost model tokensIn tokensOut) = true.
Proof.
  intros Hentry. unfold calculateCost. rewrite Hentry. cbv zeta.
  apply is_nan_Prim2SF, add_nan, mul_nan.
Qed.

(** A call for a model name that the price table inherits is served and
    leaves no usage record.  For a metered call that the budget check lets
    through and the provider answers, with a model such as ['constructor']:
    the response is the 200 of a served call with a cost that is [NaN], the
    insert of the usage row fails (a [NaN] cost is sent as [null]) and is
    only logged, and the ledger stays as it was, so the call counts toward no
    budget. *)
Theorem inherited_model_call_is_not_recorded
    (f : faults) (now : timestamptz) (req : request) (w w1 : world)
    (userId : string) (r : ai_request) (res : ai_result) :
  admitted f now req w userId r w1 →
  cost_entry (model r) = Inherited →
  (∀ x, PrimFloat.is_nan x = true → numeric_of_number x = None) →
  allowed (checkBudget f now userId (project_id r) w1) = true →
  ai_provider (provider r) (model r) (prompt r) = Ok res →
  ∃ cost,
    PrimFloat.is_nan cost = true
    ∧ serve f now req w
      = (console_error "Failed to record AI usage:" w1,
         Success (result res) (tokensIn res) (tokensOut res) cost)
    ∧ status (Success (result res) (tokensIn res) (tokensOut res) cost) = 200
    ∧ ai_usage (db (fst (serve f now req w))) = ai_usage (db w).
Proof.
  intros Hadm Hentry Hnull Hbudget Hprov.
  pose proof (calculateCost_inherited (model r) (tokensIn res) (tokensOut res) Hentry)
    as Hnan.
  exists (calculateCost (model r) (tokensIn res) (tokensOut res)).
  split; [exact Hnan|].
  assert (Hserve : serve f now req w
            = (console_error "Failed to record AI usage:" w1,
               Success (result res) (tokensIn res) (tokensOut res)
                       (calculateCost (model r) (tokensIn res) (tokensOut res)))).
  { rewrite (serve_metered _ _ _ _ _ _ _ Hadm). cbv zeta.
    rewrite Hbudget, Hprov. cbn [negb]. cbv iota. f_equal.
    unfold recordAIUsage, usage_row. rewrite (Hnull _ Hnan).
    destruct (usage_insert_down f); [reflexivity|].
    destruct (integer_value (tokensIn res)); [|reflexivity].
    by destruct (integer_value (tokensOut res)). }
  split; [exact Hserve|]. split; [reflexivity|].
  rewrite Hserve. cbn [fst db console_error].
  destruct Hadm as (_ & _ & _ & (rl & Hrl & _) & _).
  apply checkRateLimit_frame in Hrl as [_ [t ->]]. reflexivity.
Qed.

End UnpricedCall.

Section UnpricedCallExamples.
Import Js Sql Runtime AiUsageSql AiProxy AiProxyCases Examples.
#[local] Existing Instance Reference.platform.

(** The prompt of the example sent for the model ['constructor']: served,
    and the ledger stays empty. *)
Lemma inherited_model_call_is_not_recorded_witness :
  status (snd (serve no_faults t0 (ai_call None "constructor") w0)) = 200
  ∧ ai_usage (db (fst (serve no_faults t0 (ai_call None "constructor") w0))) = [].
Proof.
  destruct (inherited_model_call_is_not_recorded no_faults t0
              (ai_call None "constructor") w0
              (fst (RateLimit.checkRateLimit no_faults t0 alice w0)) alice
              {| project_id := None;
                 prompt := "Create a hero section";
                 provider := "openai";
                 model := "constructor" |}
              (match mockAIProvider "openai" "constructor" "Create a hero section" with
               | Ok res => res
               | Throw _ => {| result := ""; tokensIn := 0; tokensOut := 0 |}
               end))
    as (cost & Hnan & Hserve & Hstatus & Hledger).
  - split_and!.
    + reflexivity.
    + vm_compute. reflexivity.
    + discriminate.
    + eexists. split; [apply surjective_pairing | vm_compute; reflexivity].
    + exists (default JNull (body (ai_call None "constructor"))).
      split; vm_compute; reflexivity.
  - reflexivity.
  - intros x Hx. unfold numeric_of_number, Reference.platform, Reference.six_decimals,
      Reference.shortest_decimal.
    by rewrite (is_nan_inv x Hx).
  - vm_compute. reflexivity.
  - reflexivity.
  - rewrite Hserve. split; [exact Hstatus | exact Hledger].
Defined.

End UnpricedCallExamples.


(** ** Requests without a session *)
Section Unauthenticated.
Import Js Sql Runtime.
Context `{Platform}.

Lemma substring_all s : String.substring 0 (String.length s) s = s.
Proof. induction s as [|c s IH]; [reflexivity|]. simpl. by rewrite IH. Qed.

Lemma prefix_split p : ∀ s,
  String.prefix p s = true →
  s = p +:+ String.substring (String.length p) (String.length s - String.length p) s.
Proof.
  induction p as [|c p IH]; intros s Hp.
  - simpl. rewrite Nat.sub_0_r. symmetry. apply substring_all.
  - destruct s as [|c' s]; [discriminate|]. simpl in Hp.
    destruct (Ascii.ascii_dec c c') as [->|]; [|discriminate].
    cbn [String.length String.substring Nat.sub]. cbv [String.append]. fold String.append.
    f_equal. by apply IH.
Qed.

(** [verifyAuth] refuses every request whose header is not ['Bearer '
    followed by the token of a session]. *)
Lemma verifyAuth_refuses w req :
  (∀ token, authorization req = Some ("Bearer " +:+ token) → sessions w !! token = None) →
  ∃ err, Auth.verifyAuth w req = ("", Some err).
Proof.
  intros Hnone. unfold Auth.verifyAuth.
  destruct (authorization req) as [h|]; [|eauto].
  destruct (negb (String.eqb h "")); [|eauto]. cbn [andb].
  destruct (String.prefix "Bearer " h) eqn:Hp; [|eauto].
  apply prefix_split in Hp. cbn [String.length] in Hp.
  rewrite (Hnone (String.substring 7 (String.length h - 7) h)); [eauto|].
  by rewrite <- Hp.
Qed.

(** A request without a session changes nothing.  A [POST] whose
    [authorization] header is missing, is not of the form ['Bearer ' followed
    by a token], or carries a token of no session is answered 401 by both
    endpoints, and the world is as it was: the request is not counted by the
    rate limiter, nothing is logged and nothing is recorded. *)
Theorem unauthenticated_request_changes_nothing
    (f : faults) (now : timestamptz) (req : request) (w : world) :
  method req = "POST" →
  (∀ token, authorization req = Some ("Bearer " +:+ token) → sessions w !! token = None) →
  ∃ err,
    Mutate.serve f now req w = (w, Mutate.Unauthorized err)
    ∧ AiProxy.serve f now req w = (w, AiProxy.Unauthorized err)
    ∧ Mutate.status (Mutate.Unauthorized err) = 401
    ∧ AiProxy.status (AiProxy.Unauthorized err) = 401.
Proof.
  intros Hm Hnone. destruct (verifyAuth_refuses w req Hnone) as [err Herr].
  exists err. unfold Mutate.serve, AiProxy.serve. rewrite Hm, Herr. done.
Qed.

End Unauthenticated.

Section UnauthenticatedExamples.
Import Js Sql Runtime Examples.
#[local] Existing Instance Reference.platform.

(** The rename of the example sent with a token of no session. *)
Lemma unauthenticated_request_changes_nothing_witness :
  ∃ err,
    Mutate.serve no_faults t0
      {| method := "POST"; authorization := Some "Bearer mallory-token";
         body := body (commit_request None "One") |} w0
    = (w0, Mutate.Unauthorized err)
    ∧ AiProxy.serve no_faults t0
        {| method := "POST"; authorization := Some "Bearer mallory-token";
           body := body (commit_request None "One") |} w0
      = (w0, AiProxy.Unauthorized err)
    ∧ Mutate.status (Mutate.Unauthorized err) = 401
    ∧ AiProxy.status (AiProxy.Unauthorized err) = 401.
Proof.
  apply (unauthenticated_request_changes_nothing no_faults t0
           {| method := "POST"; authorization := Some "Bearer mallory-token";
              body := body (commit_request None "One") |} w0).
  - reflexivity.
  - intros token Heq. cbv [String.append] in Heq. injection Heq as <-.
    vm_compute. reflexivity.
Defined.

End UnauthenticatedExamples.

(** ** One counter for both endpoints *)
Section SharedCounter.
Import Js Sql Runtime MutateCases.
Context `{Platform}.

(** The commit endpoint and the AI endpoint draw on one rate counter.  Two
    [POST]s of the same bearer, one to each endpoint, handled at the same
    instant in the same world, leave the same [rate_limits] table, and one is
    answered 429 exactly when the other is: a request to either endpoint
    counts against the calls to both. *)
Theorem endpoints_share_the_rate_counter
    (f : faults) (now : timestamptz) (commit prompt : request) (w : world) :
  method commit = "POST" →
  method prompt = "POST" →
  authorization commit = authorization prompt →
  rate_limits (db (fst (Mutate.serve f now commit w)))
  = rate_limits (db (fst (AiProxy.serve f now prompt w)))
  ∧ (Mutate.status (snd (Mutate.serve f now commit w)) = 429
     ↔ AiProxy.status (snd (AiProxy.serve f now prompt w)) = 429).
Proof.
  intros Hc Hp Hauth.
  assert (Hverify : Auth.verifyAuth w commit = Auth.verifyAuth w prompt)
    by (unfold Auth.verifyAuth; by rewrite Hauth).
  assert (Hmutate : ∀ userId w1 rl,
    RateLimit.checkRateLimit f now userId w = (w1, rl) →
    Auth.verifyAuth w commit = (userId, None) → userId ≠ "" →
    rate_limits (db (fst (Mutate.serve f now commit w))) = rate_limits (db w1)
    ∧ (Mutate.status (snd (Mutate.serve f now commit w)) = 429
       ↔ RateLimit.allowed rl = false)).
  { intros userId w1 rl Hrl Hv Hne. unfold Mutate.serve. rewrite Hc, Hv, Hrl.
    replace (bool_decide (is_Some None) || String.eqb userId "") with false
      by (symmetry; apply orb_false_iff; split;
          [apply bool_decide_eq_false_2; intros [? ?]; discriminate
          | by apply String.eqb_neq]).
    cbn [String.eqb negb]. cbv iota.
    destruct (RateLimit.allowed rl); cbn [negb]; [|done].
    assert (Hno : ∀ P : Prop, ¬ P → (P ↔ true = false))
      by (intros P HnP; split; [intros HP; by destruct HnP | discriminate]).
    destruct (body commit) as [json|]; [|split; [done|]; apply Hno; simpl; lia].
    destruct (Mutate.RequestSchema json) as [r|];
      [|split; [done|]; apply Hno; simpl; lia].
    cbv zeta.
    destruct (negb _ && negb _); [split; [done|]; apply Hno; simpl; lia|].
    destruct (bool_decide _ && negb _); [split; [done|]; apply Hno; simpl; lia|].
    assert (Hcommit :
      let res :=
        match ProjectEvents.apply_project_event plpgsql_variable_conflict now
                (Mutate.projectId r) userId (Mutate.type (Mutate.proposal_of r))
                {[ "name" := BStr (Mutate.payload_name (Mutate.proposal_of r)) ]}
                (db w1) with
        | (_, inl e) =>
            (console_error "Failed to apply event:" w1, Mutate.ApplyFailed (Some e))
        | (db', inr applied) =>
            (with_db db' w1,
             Mutate.Committed (Mutate.projectId r) applied
               (Mutate.key_or_undefined (Mutate.idempotencyKey r)))
        end in
      rate_limits (db (fst res)) = rate_limits (db w1)
      ∧ (Mutate.status (snd res) = 429 ↔ true = false)).
    { cbv zeta.
      destruct (ProjectEvents.apply_project_event _ _ _ _ _ _ _) as [d [e|a]] eqn:Hap.
      - split; [done|]. apply Hno. simpl. lia.
      - apply apply_project_event_keeps in Hap as (_ & _ & _ & _ & Hr).
        split; [exact Hr|]. apply Hno. simpl. lia. }
    destruct (Mutate.baseSeq r) as [expected|].
    - destruct (projection_select_down f); [split; [done|]; apply Hno; simpl; lia|].
      destruct (bool_decide _); [split; [done|]; apply Hno; simpl; lia|].
      destruct (apply_rpc_down f); [split; [done|]; apply Hno; simpl; lia|].
      exact Hcommit.
    - destruct (apply_rpc_down f); [split; [done|]; apply Hno; simpl; lia|].
      exact Hcommit. }
  assert (Hai : ∀ userId w1 rl,
    RateLimit.checkRateLimit f now userId w = (w1, rl) →
    Auth.verifyAuth w prompt = (userId, None) → userId ≠ "" →
    rate_limits (db (fst (AiProxy.serve f now prompt w))) = rate_limits (db w1)
    ∧ (AiProxy.status (snd (AiProxy.serve f now prompt w)) = 429
       ↔ RateLimit.allowed rl = false)).
  { intros userId w1 rl Hrl Hv Hne. unfold AiProxy.serve. rewrite Hp, Hv, Hrl.
    replace (bool_decide (is_Some None) || String.eqb userId "") with false
      by (symmetry; apply orb_false_iff; split;
          [apply bool_decide_eq_false_2; intros [? ?]; discriminate
          | by apply String.eqb_neq]).
    cbn [String.eqb negb]. cbv iota.
    destruct (RateLimit.allowed rl); cbn [negb]; [|done].
    assert (Hno : ∀ P : Prop, ¬ P → (P ↔ true = false))
      by (intros P HnP; split; [intros HP; by destruct HnP | discriminate]).
    destruct (body prompt) as [json|]; [|split; [done|]; apply Hno; simpl; lia].
    destruct (AiProxy.RequestSchema json) as [r|];
      [|split; [done|]; apply Hno; simpl; lia].
    destruct (negb (AiProxy.allowed _)).
    - split; [apply recordAIUsage_frame | apply Hno; simpl; lia].
    - destruct (ai_provider _ _ _) as [res|err];
        (split; [apply recordAIUsage_frame | apply Hno; simpl; lia]). }
  destruct (Auth.verifyAuth w prompt) as [userId [err|]] eqn:Hv.
  - unfold Mutate.serve, AiProxy.serve. rewrite Hc, Hp, Hverify, Hv. simpl.
    split; [reflexivity | split; lia].
  - destruct (String.eqb_spec userId "") as [->|Hne].
    + unfold Mutate.serve, AiProxy.serve. rewrite Hc, Hp, Hverify, Hv. simpl.
      split; [reflexivity | split; lia].
    + destruct (RateLimit.checkRateLimit f now userId w) as [w1 rl] eqn:Hrl.
      rewrite Hverify in Hmutate.
      destruct (Hmutate _ _ _ Hrl eq_refl Hne) as [-> ->].
      destruct (Hai _ _ _ Hrl eq_refl Hne) as [-> ->]. done.
Qed.

End SharedCounter.


(** ** Windows, principals and the retry hint *)
Section RateLimitMore.
Import Js Sql Runtime RateLimitSql RateLimit.

(** The window start [check_rate_limit] computes lies in the window that
    ends with the request. *)
Lemma window_start_of_bounds now win :
  0 < win →
  now - win * MICROS < window_start_of now win ≤ now.
Proof.
  intros Hwin. unfold window_start_of, date_trunc_second, numeric_micros_to_integer,
    extract_second_micros, MICROS.
  change (1000000 / 2) with 500000.
  pose proof (Z.mod_pos_bound now 1000000 ltac:(lia)) as Hm.
  pose proof (Z.mod_pos_bound now (60 * 1000000) ltac:(lia)) as Hs.
  assert (Hr : 0 ≤ (now mod (60 * 1000000) + 500000) / 1000000)
    by (apply Z.div_pos; lia).
  pose proof (Z.rem_bound_pos _ win Hr Hwin) as Hrem.
  lia.
Qed.

Lemma rate_key_inj u u' : rate_key u = rate_key u' → u = u'.
Proof. unfold rate_key. cbv [String.append]. by intros [= ->]. Qed.

(** [check_rate_limit] writes no row but that of its key. *)
Lemma check_rate_limit_other_keys now key win mx d d' res k :
  check_rate_limit now key win mx d = (d', res) → k ≠ key →
  rate_limits d' !! k = rate_limits d !! k.
Proof.
  unfold check_rate_limit, transaction, check_rate_limit_body.
  unfold mbind, stmt_bind, bind, window_start_at.
  destruct (win =? 0); [by intros [= <- _]|].
  unfold ret, read.
  destruct (select_count _ _ _) as [c|].
  - destruct (mx <=? c).
    + unfold mret, stmt_ret, ret. by intros [= <- _].
    + unfold increment_count, mbind, stmt_bind, bind, integer_add.
      destruct (is_integer (c + 1)); unfold ret, raise, write, mret, stmt_ret, ret.
      * intros [= <- _] Hne. simpl. by rewrite lookup_insert_ne.
      * by intros [= <- _].
  - unfold upsert_window, write, mret, stmt_ret, ret.
    intros [= <- _] Hne. simpl.
    destruct (rate_limits d !! key) as [r|]; [destruct (window_start r <? _)|];
      by rewrite ?lookup_insert_ne.
Qed.

(** Principals do not share a counter.  A request of one principal leaves
    the counter of every other principal as it was, whatever the answer and
    the backend failures. *)
Theorem rate_limit_is_per_principal
    (f : faults) (now : timestamptz) (u u' : string) (w : world) :
  u ≠ u' →
  rate_limits (db (fst (checkRateLimit f now u w))) !! rate_key u'
  = rate_limits (db w) !! rate_key u'.
Proof.
  intros Hne. unfold checkRateLimit.
  destruct (rate_limit_rpc_down f); [reflexivity|].
  destruct (check_rate_limit _ _ _ _ _) as [d' [e|[|]]] eqn:Hc; [reflexivity|..];
    cbn [fst db with_db];
    apply (check_rate_limit_other_keys _ _ _ _ _ _ _ _ Hc);
    intros Heq; apply Hne; symmetry; by apply rate_key_inj.
Qed.

Lemma rate_limit_is_per_principal_witness :
  rate_limits (db (fst (checkRateLimit no_faults Examples.t0 Examples.alice Examples.w0)))
    !! rate_key MutateCases.bob
  = rate_limits (db Examples.w0) !! rate_key MutateCases.bob.
Proof.
  apply (rate_limit_is_per_principal no_faults Examples.t0 Examples.alice MutateCases.bob
           Examples.w0).
  discriminate.
Defined.

(** A denied request found the counter of its window at the maximum. *)
Lemma checkRateLimit_denied now u w w1 rl :
  checkRateLimit no_faults now u w = (w1, rl) → allowed rl = false →
  w1 = w ∧ rl = rate_denied
  ∧ ∃ row, rate_limits (db w) !! rate_key u = Some row
           ∧ window_start row = window_start_of now RATE_LIMIT_WINDOW.
Proof.
  unfold checkRateLimit, rate_key. cbn [rate_limit_rpc_down no_faults].
  unfold check_rate_limit, transaction, check_rate_limit_body.
  unfold mbind, stmt_bind, bind, window_start_at.
  change (RATE_LIMIT_WINDOW =? 0) with false. cbv iota.
  unfold ret, read, select_count.
  destruct (rate_limits (db w) !! ("ai_proxy:" +:+ u)) as [row|] eqn:Hrow.
  - destruct (Z.eqb_spec (window_start row) (window_start_of now RATE_LIMIT_WINDOW)).
    + destruct (RATE_LIMIT_MAX_REQUESTS <=? count row).
      * unfold mret, stmt_ret, ret. intros [= <- <-] _.
        split; [by destruct w|]. split; [reflexivity|]. eauto.
      * unfold increment_count, mbind, stmt_bind, bind, integer_add.
        destruct (is_integer _); unfold ret, raise, write, mret, stmt_ret, ret;
          intros [= <- <-]; discriminate.
    + unfold upsert_window, write, mret, stmt_ret, ret. intros [= <- <-]. discriminate.
  - unfold upsert_window, write, mret, stmt_ret, ret. intros [= <- <-]. discriminate.
Qed.

(** The retry hint is long enough.  When a request is denied, a request of
    the same principal 60 seconds later, or any time after that, is
    allowed and opens a window of its own. *)
Theorem retry_after_the_hint_is_allowed
    (now later : timestamptz) (u : string) (w w1 : world) (rl : rate_limit_result) :
  checkRateLimit no_faults now u w = (w1, rl) →
  allowed rl = false →
  now + RATE_LIMIT_WINDOW * MICROS ≤ later →
  retryAfter rl = Some RATE_LIMIT_WINDOW
  ∧ ∃ w2, checkRateLimit no_faults later u w1 = (w2, rate_allowed)
          ∧ rate_limits (db w2) !! rate_key u
            = Some {| window_start := window_start_of later RATE_LIMIT_WINDOW;
                      count := 1;
                      rl_updated_at := later |}.
Proof.
  intros Hcall Hdenied Hlater.
  destruct (checkRateLimit_denied _ _ _ _ _ Hcall Hdenied)
    as (-> & -> & row & Hrow & Hws).
  split; [reflexivity|].
  apply checkRateLimit_new_window. intros row'. rewrite Hrow. intros [= <-].
  pose proof (window_start_of_bounds now RATE_LIMIT_WINDOW ltac:(done)).
  pose proof (window_start_of_bounds later RATE_LIMIT_WINDOW ltac:(done)).
  lia.
Qed.

End RateLimitMore.


(** ** The status report and the cleanup *)
Section RateLimitAdminFacts.
Import Js Sql Runtime RateLimitSql RateLimitAdmin.

(** [get_rate_limit_status] measures the counter against the window
    length.  It changes nothing.  For a window of at most [INTEGER_MAX]
    seconds that ends within the range of [TIMESTAMPTZ]: when no counter is stored for the current window start, the
    reported count is [NULL] and the reported remainder is 0; and when
    [check_rate_limit] has just denied a request, with the counter [c] at or
    above the maximum, the report gives the window length in seconds as
    [limit_val] and [GREATEST(0, window - c)] as [remaining], whatever the
    maximum. *)
Theorem rate_limit_status_report
    (now : timestamptz) (key : string) (win mx : Z) (d : database) :
  0 < win ≤ INTEGER_MAX →
  0 ≤ mx →
  MIN_TIMESTAMP ≤ now ∧ now + MICROS * win < END_TIMESTAMP →
  (∀ row, rate_limits d !! key = Some row → count row ≤ INTEGER_MAX) →
  (select_count key (window_start_of now win) d = None →
   get_rate_limit_status now key win d
   = (d, inr {| status_count := None;
                limit_val := win;
                remaining := 0;
                reset_at := window_start_of now win + MICROS * win |}))
  ∧ (snd (check_rate_limit now key win mx d) = inr false →
     ∃ c, mx ≤ c
          ∧ get_rate_limit_status now key win d
            = (d, inr {| status_count := Some c;
                         limit_val := win;
                         remaining := Z.max 0 (win - c);
                         reset_at := window_start_of now win + MICROS * win |})).
Proof.
  intros Hwin Hmx Hnow Hint.
  assert (Hw0 : (win =? 0) = false) by (apply Z.eqb_neq; lia).
  assert (Hreset : timestamptz_result (window_start_of now win + MICROS * win)
                   = ret (window_start_of now win + MICROS * win)).
  { pose proof (window_start_of_bounds now win ltac:(lia)) as Hb.
    unfold timestamptz_result.
    replace ((MIN_TIMESTAMP <=? _) && _) with true; [reflexivity|].
    symmetry. apply andb_true_iff. split; [apply Z.leb_le | apply Z.ltb_lt]; lia. }
  split.
  - intros Hnone. unfold get_rate_limit_status, transaction, get_rate_limit_status_body.
    unfold mbind, stmt_bind, bind, window_start_at. rewrite Hw0.
    unfold ret at 1, read. rewrite Hnone. unfold ret at 1. rewrite Hreset.
    reflexivity.
  - unfold check_rate_limit, transaction, check_rate_limit_body.
    unfold get_rate_limit_status, transaction, get_rate_limit_status_body.
    unfold mbind, stmt_bind, bind, window_start_at. rewrite Hw0.
    unfold ret, read.
    destruct (select_count key (window_start_of now win) d) as [c|] eqn:Hc.
    + destruct (Z.leb_spec mx c) as [Hle|Hlt].
      * intros _. exists c. split; [exact Hle|].
        unfold integer_sub.
        assert (Hc' : c ≤ INTEGER_MAX).
        { unfold select_count in Hc.
          destruct (rate_limits d !! key) as [row|] eqn:Hrow; [|discriminate].
          destruct (window_start row =? _); [|discriminate].
          injection Hc as <-. by apply Hint. }
        replace (is_integer (win - c)) with true
          by (symmetry; unfold is_integer, INTEGER_MAX in *; apply andb_true_iff; lia).
        rewrite Hreset. reflexivity.
      * unfold increment_count, mbind, stmt_bind, bind, integer_add.
        destruct (is_integer (c + 1)); unfold ret, raise, write, mret, stmt_ret, ret;
          simpl; discriminate.
    + unfold upsert_window, write, mret, stmt_ret, ret. simpl. discriminate.
Qed.

Lemma check_rate_limit_at_key now key win mx d1 d :
  win ≠ 0 →
  rate_limits d1 !! key = rate_limits d !! key
  ∨ (rate_limits d1 !! key = None
     ∧ ∃ row, rate_limits d !! key = Some row
              ∧ window_start row < window_start_of now win) →
  snd (check_rate_limit now key win mx d1) = snd (check_rate_limit now key win mx d)
  ∧ rate_limits (fst (check_rate_limit now key win mx d1)) !! key
    = rate_limits (fst (check_rate_limit now key win mx d)) !! key.
Proof.
  intros Hwin Hkey.
  unfold check_rate_limit, transaction, check_rate_limit_body.
  unfold mbind, stmt_bind, bind, window_start_at.
  destruct (Z.eqb_spec win 0); [done|].
  unfold ret, read, select_count.
  destruct Hkey as [Heq|(Hnone & row & Hrow & Hold)].
  - rewrite Heq.
    destruct (rate_limits d !! key) as [r|] eqn:Hr.
    + destruct (window_start r =? window_start_of now win).
      * destruct (mx <=? count r); [simpl; by rewrite Heq, Hr|].
        unfold increment_count, mbind, stmt_bind, bind, integer_add.
        destruct (is_integer (count r + 1)); unfold ret, raise, write, mret, stmt_ret, ret;
          simpl; [by rewrite !lookup_insert_eq | by rewrite Heq, Hr].
      * unfold upsert_window, write, mret, stmt_ret, ret. simpl. rewrite Heq, Hr.
        destruct (window_start r <? window_start_of now win);
          [by rewrite !lookup_insert_eq | by rewrite Heq, Hr].
    + unfold upsert_window, write, mret, stmt_ret, ret. simpl. rewrite Heq, Hr.
      by rewrite !lookup_insert_eq.
  - rewrite Hnone, Hrow.
    destruct (Z.eqb_spec (window_start row) (window_start_of now win)); [lia|].
    unfold upsert_window, write, mret, stmt_ret, ret. simpl. rewrite Hnone, Hrow.
    destruct (Z.ltb_spec (window_start row) (window_start_of now win)); [|lia].
    by rewrite !lookup_insert_eq.
Qed.

(** The cleanup is invisible to the limiter.  A cleanup with a maximum
    age of one hour or more removes the rows whose window started before
    the cut-off, keeps the others as they are and returns the number of rows
    it removed; and for a window of at most an hour, every later call of
    [check_rate_limit] gets the answer, and leaves the counter, that it would
    have without the cleanup: no live counter is reset and no denied request
    is let through. *)
Theorem cleanup_is_invisible_to_the_limiter
    (t t' : timestamptz) (hours : Z) (key : string) (win mx : Z)
    (d d1 : database) (n : Z) :
  1 ≤ hours →
  0 < win ≤ 3600 →
  t ≤ t' →
  cleanup_rate_limits t hours d = (d1, inr n) →
  (∀ k row, rate_limits d1 !! k = Some row
            ↔ rate_limits d !! k = Some row
              ∧ t - 3600 * MICROS * hours ≤ window_start row)
  ∧ n = Z.of_nat (size (rate_limits d)) - Z.of_nat (size (rate_limits d1))
  ∧ snd (check_rate_limit t' key win mx d1) = snd (check_rate_limit t' key win mx d)
  ∧ rate_limits (fst (check_rate_limit t' key win mx d1)) !! key
    = rate_limits (fst (check_rate_limit t' key win mx d)) !! key.
Proof.
  intros Hhours Hwin Hlater.
  unfold cleanup_rate_limits, transaction, cleanup_rate_limits_body.
  unfold mbind, stmt_bind, bind, cleanup_cutoff, timestamptz_result.
  destruct ((MIN_TIMESTAMP <=? _) && _); unfold ret, raise; [|discriminate].
  unfold read, write, mret, stmt_ret, ret.
  set (cutoff := t - 3600 * MICROS * hours).
  intros [= <- <-]. cbn [rate_limits with_rate_limits].
  assert (Hkept : ∀ k row,
            filter (λ kv, ¬ window_start kv.2 < cutoff) (rate_limits d) !! k = Some row
            ↔ rate_limits d !! k = Some row ∧ cutoff ≤ window_start row).
  { intros k row. rewrite map_lookup_filter_Some. simpl. split; intros [? ?]; split;
      try done; lia. }
  split; [exact Hkept|]. split.
  - pose proof (map_filter_union_complement (λ kv : string * rate_limit_row,
                  window_start kv.2 < cutoff) (rate_limits d)) as Hunion.
    rewrite <- Hunion at 2.
    rewrite map_size_disj_union by apply map_disjoint_filter_complement. lia.
  - apply check_rate_limit_at_key; [lia|].
    destruct (rate_limits d !! key) as [row|] eqn:Hrow.
    + destruct (Z.lt_ge_cases (window_start row) cutoff) as [Hold|Hnew].
      * right. split.
        -- apply map_lookup_filter_None. right. intros row' Hrow'. simpl.
           rewrite Hrow in Hrow'. injection Hrow' as <-. lia.
        -- exists row. split; [reflexivity|].
           pose proof (window_start_of_bounds t' win ltac:(lia)).
           unfold cutoff, MICROS in *. nia.
      * left. apply (Hkept key row). split; [exact Hrow | lia].
    + left. apply map_lookup_filter_None. by left.
Qed.

End RateLimitAdminFacts.


(** ** The [Access-Control-Allow-Origin] header *)
Section CorsFacts.
Import Cors.

Lemma prefix_iff p s : String.prefix p s = true ↔ ∃ rest, s = p +:+ rest.
Proof.
  split.
  - revert s. induction p as [|c p IH]; intros s Hp; [by exists s|].
    destruct s as [|c' s]; [discriminate|]. simpl in Hp.
    destruct (Ascii.ascii_dec c c') as [->|]; [|discriminate].
    destruct (IH s Hp) as [rest ->]. by exists rest.
  - intros [rest ->]. induction p as [|c p IH].
    + change ("" +:+ rest) with rest. by destruct rest.
    + change (String c p +:+ rest) with (String c (p +:+ rest)). simpl.
      by destruct (Ascii.ascii_dec c c).
Qed.

Lemma includes_eq needle s :
  includes needle s
  = String.prefix needle s
    || match s with
       | String _ rest => includes needle rest
       | EmptyString => false
       end.
Proof. by destruct s. Qed.

Lemma includes_iff needle s :
  includes needle s = true ↔ ∃ before after, s = before +:+ needle +:+ after.
Proof.
  split.
  - induction s as [|c s IH]; rewrite includes_eq, orb_true_iff.
    + intros [Hp|[=]]. apply prefix_iff in Hp as [rest ->]. by exists "", rest.
    + intros [Hp|Hin].
      * apply prefix_iff in Hp as [rest ->]. by exists "", rest.
      * destruct (IH Hin) as (before & after & ->). by exists (String c before), after.
  - intros (before & after & ->). induction before as [|c before IH].
    + change ("" +:+ needle +:+ after) with (needle +:+ after).
      rewrite includes_eq, orb_true_iff. left. apply prefix_iff. eauto.
    + change (String c before +:+ needle +:+ after)
        with (String c (before +:+ needle +:+ after)).
      rewrite includes_eq, IH. apply orb_true_r.
Qed.

Lemma isAllowed_iff origin :
  bool_decide (origin ∈ ALLOWED_ORIGINS) || includes "vercel.app" origin = true
  ↔ origin ∈ ALLOWED_ORIGINS
    ∨ ∃ before after, origin = before +:+ "vercel.app" +:+ after.
Proof. by rewrite orb_true_iff, bool_decide_eq_true, includes_iff. Qed.

(** The origin the endpoints allow.  [getCorsHeaders] never answers with
    the wildcard of its defaults: the [Access-Control-Allow-Origin] header is
    the origin of the request when that origin is one of the two of the
    allowlist or contains ['vercel.app'] anywhere in it, and
    ['http://localhost:3000'] for every other origin and for a request
    without one; the other two headers do not depend on the request. *)
Theorem cors_origin_is_reflected_or_default (origin_header : option string) :
  let origin := default "" origin_header in
  let headers := getCorsHeaders origin_header in
  ((origin ∈ ALLOWED_ORIGINS ∨ ∃ before after, origin = before +:+ "vercel.app" +:+ after)
   → headers !! "Access-Control-Allow-Origin" = Some origin)
  ∧ (¬ (origin ∈ ALLOWED_ORIGINS
        ∨ ∃ before after, origin = before +:+ "vercel.app" +:+ after)
     → headers !! "Access-Control-Allow-Origin" = Some "http://localhost:3000")
  ∧ headers !! "Access-Control-Allow-Origin" ≠ Some "*"
  ∧ headers !! "Access-Control-Allow-Headers"
    = Some "authorization, x-client-info, apikey, content-type"
  ∧ headers !! "Access-Control-Allow-Methods" = Some "POST, GET, OPTIONS"
  ∧ dom headers = dom defaultCorsHeaders.
Proof.
  cbv zeta. unfold getCorsHeaders. set (origin := default "" origin_header).
  rewrite lookup_insert_ne, lookup_insert_ne, lookup_insert_eq by done.
  split; [|split; [|split; [|split; [|split]]]].
  - intros Hyes. apply isAllowed_iff in Hyes. by rewrite Hyes.
  - intros Hno. destruct (_ || _) eqn:Hb; [|reflexivity].
    exfalso. apply Hno. by apply isAllowed_iff.
  - destruct (_ || _) eqn:Hb; [|discriminate].
    intros [= Hstar]. apply isAllowed_iff in Hb. rewrite Hstar in Hb.
    destruct Hb as [Hin|Hin].
    + revert Hin. unfold ALLOWED_ORIGINS. rewrite !elem_of_cons, elem_of_nil.
      intros [|[|[]]]; discriminate.
    + apply includes_iff in Hin. discriminate.
  - by rewrite lookup_insert_ne, lookup_insert_eq.
  - by rewrite lookup_insert_eq.
  - unfold defaultCorsHeaders. rewrite !dom_insert_L. set_solver.
Qed.

(** An origin outside the allowlist that contains ['vercel.app'] is
    allowed; an origin that does not is answered with the first origin of
    the allowlist. *)
Example cors_origins :
  getCorsHeaders (Some "https://vercel.app.attacker.example")
    !! "Access-Control-Allow-Origin"
  = Some "https://vercel.app.attacker.example"
  ∧ getCorsHeaders (Some "https://attacker.example") !! "Access-Control-Allow-Origin"
    = Some "http://localhost:3000"
  ∧ getCorsHeaders None !! "Access-Control-Allow-Origin" = Some "http://localhost:3000".
Proof. split_and!; vm_compute; reflexivity. Qed.

End CorsFacts.


(** ** The two reducers *)
Section TwoReducers.
Import Js Reducer Sql ProjectEvents Replay LogReplay.

(** The reducer in [apply_project_event] and [applyEvent].  Whenever
    [apply_project_event] commits a rename, whatever the setting of the
    database, the snapshot it returns is the one it stores in the projection,
    the old snapshot with [name] set to the name of the payload.  On a name
    of 1 to 200 characters [applyEvent] agrees: from a snapshot that holds
    the same JSON as the old one it gives a snapshot that holds the same JSON
    as the new one.  On any other name, such as the empty one, the function
    has committed the rename where [applyEvent] throws an invalid-payload
    error: the bounds on the name are checked by the endpoint and by
    [applyEvent], not by the function. *)
Theorem sql_reducer_and_applyEvent
    (vc : variable_conflict) (now : timestamptz) (p a : uuid) (name : string)
    (d d' : database) (seq : Z) (snap : option jsonb_object) (s : ProjectSnapshot) :
  apply_project_event vc now p a "project.rename" {[ "name" := BStr name ]} d
  = (d', inr (seq, snap)) →
  same_json (snapshot_of d p) s →
  snap = Some (snapshot_of d' p)
  ∧ snapshot_of d' p = <["name" := BStr name]> (snapshot_of d p)
  ∧ (valid_name name →
     applyEvent s (rename_event (JStr name)) = Ok (<["name" := JStr name]> s)
     ∧ same_json (snapshot_of d' p) (<["name" := JStr name]> s))
  ∧ (¬ valid_name name →
     ∃ e, applyEvent s (rename_event (JStr name)) = Throw e ∧ InvalidPayload e).
Proof.
  intros Hcall Hsame. apply apply_project_event_inr in Hcall.
  pose proof (apply_project_event_done_snapshot _ _ _ _ _ _ _ _ _ Hcall) as ->.
  apply apply_project_event_body_done in Hcall as (_ & _ & (sn & [= <-] & Hproj) & _).
  assert (Hsnap : snapshot_of d' p = <["name" := BStr name]> (snapshot_of d p))
    by (unfold snapshot_of at 1; by rewrite Hproj, lookup_insert_eq).
  assert (He : is_rename_of (rename_event (JStr name)) name).
  { split; [reflexivity|]. eexists. split; [reflexivity|].
    by rewrite lookup_insert_eq. }
  split_and!.
  - by rewrite Hsnap.
  - exact Hsnap.
  - intros Hvalid. split; [by apply applyEvent_is_rename|].
    rewrite Hsnap. by apply same_json_insert.
  - intros Hinvalid.
    rewrite (applyEvent_rename s (rename_event (JStr name)) eq_refl).
    rewrite (applyRenameEvent_payload s (rename_event (JStr name))
               (<["name" := JStr name]> ∅) eq_refl eq_refl).
    simpl. rewrite lookup_insert_eq. simpl.
    destruct (Nat.eqb_spec (String.length name) 0);
      [eexists; split; [reflexivity | apply InvalidPayload_intro]|].
    destruct (Nat.ltb_spec 200 (String.length name));
      [eexists; split; [reflexivity | apply InvalidPayload_intro]|].
    exfalso. apply Hinvalid. unfold valid_name. lia.
Qed.

(** A rename to the empty name of the project of the example, sent to the
    function: it is committed, and [applyEvent] refuses the same event. *)
Lemma sql_reducer_and_applyEvent_witness :
  snapshot_of
    (fst (apply_project_event UseColumn Examples.t0 Examples.project_A Examples.alice
            "project.rename" {[ "name" := BStr "" ]} Examples.db0))
    Examples.project_A
  = <["name" := BStr ""]> (snapshot_of Examples.db0 Examples.project_A)
  ∧ ∃ e, applyEvent ∅ (rename_event (JStr "")) = Throw e ∧ InvalidPayload e.
Proof.
  destruct (sql_reducer_and_applyEvent UseColumn Examples.t0 Examples.project_A
              Examples.alice ""
              Examples.db0
              (fst (apply_project_event UseColumn Examples.t0 Examples.project_A
                      Examples.alice "project.rename" {[ "name" := BStr "" ]}
                      Examples.db0))
              1 (Some {[ "name" := BStr "" ]}) ∅)
    as (_ & Hsnap & _ & Hthrow).
  - vm_compute. reflexivity.
  - intros k. vm_compute. constructor.
  - split; [exact Hsnap|]. apply Hthrow. unfold valid_name. simpl. lia.
Defined.

(** The same for a name of 201 characters, and for the first commit in a
    database that reads [snapshot] as the variable. *)
Example apply_project_event_commits_any_name :
  snd (apply_project_event UseColumn Examples.t0 Examples.project_A Examples.alice
         "project.rename" {[ "name" := BStr (a_repeat 201) ]} Examples.db0)
  = inr (1, Some {[ "name" := BStr (a_repeat 201) ]})
  ∧ snd (apply_project_event UseVariable Examples.t0 Examples.project_A Examples.alice
           "project.rename" {[ "name" := BStr "" ]} Examples.db0)
    = inr (1, Some {[ "name" := BStr "" ]}).
Proof. split; vm_compute; reflexivity. Qed.

End TwoReducers.

Section MoreWitnesses.
Import Js Sql Runtime RateLimitSql RateLimit RateLimitAdmin Examples MoreExamples.
#[local] Existing Instance Reference.platform.

(** A commit and a prompt of [alice]. *)
Lemma endpoints_share_the_rate_counter_witness :
  rate_limits (db (fst (Mutate.serve no_faults t0 (commit_request None "One") w0)))
  = rate_limits (db (fst (AiProxy.serve no_faults t0 (ai_call None "gpt-4") w0)))
  ∧ (Mutate.status (snd (Mutate.serve no_faults t0 (commit_request None "One") w0)) = 429
     ↔ AiProxy.status (snd (AiProxy.serve no_faults t0 (ai_call None "gpt-4") w0)) = 429).
Proof.
  apply (endpoints_share_the_rate_counter no_faults t0 (commit_request None "One")
           (ai_call None "gpt-4") w0); reflexivity.
Defined.

(** After thirty requests of [alice], a commit of hers is answered 429. *)
Example commit_after_thirty_prompts :
  Mutate.status (snd (Mutate.serve no_faults (t0 + 400000) (commit_request None "One") w30))
  = 429.
Proof. vm_compute. reflexivity. Qed.

(** The 31st request at 22:13:20.4 is denied; one at 22:14:20.4 is allowed. *)
Lemma retry_after_the_hint_is_allowed_witness :
  retryAfter (snd (checkRateLimit no_faults (t0 + 400000) alice w30)) = Some 60
  ∧ ∃ w2,
      checkRateLimit no_faults (t0 + 60400000) alice
        (fst (checkRateLimit no_faults (t0 + 400000) alice w30))
      = (w2, rate_allowed)
      ∧ rate_limits (db w2) !! rate_key alice
        = Some {| window_start := window_start_of (t0 + 60400000) RATE_LIMIT_WINDOW;
                  count := 1;
                  rl_updated_at := t0 + 60400000 |}.
Proof.
  apply (retry_after_the_hint_is_allowed (t0 + 400000) (t0 + 60400000) alice w30).
  - apply surjective_pairing.
  - vm_compute. reflexivity.
  - vm_compute. discriminate.
Defined.

(** With the counter of [alice] at 30 the limiter denies, and the report
    gives [limit_val = 60] and [remaining = 30]. *)
Lemma rate_limit_status_report_witness :
  ∃ c, 30 ≤ c
       ∧ get_rate_limit_status (t0 + 400000) (rate_key alice) 60 (db w30)
         = (db w30, inr {| status_count := Some c;
                           limit_val := 60;
                           remaining := Z.max 0 (60 - c);
                           reset_at := window_start_of (t0 + 400000) 60 + MICROS * 60 |}).
Proof.
  refine (proj2 (rate_limit_status_report (t0 + 400000) (rate_key alice) 60 30 (db w30)
                   _ _ _ _) _).
  - vm_compute. split; [reflexivity | discriminate].
  - lia.
  - vm_compute. split; [discriminate | reflexivity].
  - assert (Hrow : rate_limits (db w30) !! rate_key alice
                   = Some {| window_start := t0 - 20000000; count := 30;
                             rl_updated_at := t0 |})
      by (vm_compute; reflexivity).
    intros row. rewrite Hrow. intros [= <-]. vm_compute. discriminate.
  - vm_compute. reflexivity.
Defined.

Example rate_limit_status_at_the_maximum :
  snd (get_rate_limit_status (t0 + 400000) (rate_key alice) 60 (db w30))
  = inr {| status_count := Some 30; limit_val := 60; remaining := 30;
           reset_at := t0 + 40000000 |}
  ∧ snd (get_rate_limit_status t0 (rate_key alice) 60 (db w0))
    = inr {| status_count := None; limit_val := 60; remaining := 0;
             reset_at := t0 + 40000000 |}.
Proof. split; vm_compute; reflexivity. Qed.

(** Two hours after her thirty requests the cleanup removes the counter of
    [alice], and her next request is answered as without the cleanup. *)
Lemma cleanup_is_invisible_to_the_limiter_witness :
  snd (cleanup_rate_limits (t0 + 7200000000) 1 (db w30)) = inr 1
  ∧ rate_limits (fst (cleanup_rate_limits (t0 + 7200000000) 1 (db w30)))
      !! rate_key alice = None
  ∧ snd (check_rate_limit (t0 + 7201000000) (rate_key alice) 60 30
           (fst (cleanup_rate_limits (t0 + 7200000000) 1 (db w30))))
    = snd (check_rate_limit (t0 + 7201000000) (rate_key alice) 60 30 (db w30)).
Proof.
  split; [vm_compute; reflexivity|]. split; [vm_compute; reflexivity|].
  refine (proj1 (proj2 (proj2 (cleanup_is_invisible_to_the_limiter
            (t0 + 7200000000) (t0 + 7201000000) 1 (rate_key alice) 60 30 (db w30)
            (fst (cleanup_rate_limits (t0 + 7200000000) 1 (db w30))) 1 _ _ _ _)))).
  - lia.
  - lia.
  - vm_compute. discriminate.
  - vm_compute. reflexivity.
Defined.

End MoreWitnesses.
